(** * Archive Operation Orchestrator of [7zip_cli.py]: a shallow embedding

    The development follows the source file [src/7zip_cli.py] (class
    [SevenZipCLI]).  Python strings are Rocq [string]s whose characters are
    code points below 256; Python integers are [Z]; values of type [float]
    that the program only compares against decimal constants are exact
    rationals ([Q]).  Interactive methods are functions in a small monad that
    threads the remaining terminal input and the state of the operating
    system, collects what the program shows or launches, and propagates
    uncaught exceptions. *)

From Stdlib Require Import String Ascii List Bool Arith ZArith QArith Lia.
From Stdlib Require Import DecimalString.
From Stdlib Require Import Floats.SpecFloat.
Import ListNotations.

Set Warnings "-register-all".

Local Open Scope string_scope.
Local Open Scope list_scope.
Local Open Scope nat_scope.

(* ===================================================================== *)
(** * Part I.  Definitions *)
(* ===================================================================== *)

(** ** Python string and [os.path] primitives *)

Module PyStr.

(** [str.isspace] on one character (code points below 256). *)
Definition is_space (c : ascii) : bool :=
  let n := nat_of_ascii c in
  ((9 <=? n) && (n <=? 13)) || ((28 <=? n) && (n <=? 32))
  || (n =? 133) || (n =? 160).

Definition in_chars (chars : string) (c : ascii) : bool :=
  existsb (Ascii.eqb c) (list_ascii_of_string chars).

Fixpoint lstrip_by (p : ascii -> bool) (s : string) : string :=
  match s with
  | EmptyString => EmptyString
  | String c s' => if p c then lstrip_by p s' else s
  end.

Fixpoint rstrip_by (p : ascii -> bool) (s : string) : string :=
  match s with
  | EmptyString => EmptyString
  | String c s' =>
      match rstrip_by p s' with
      | EmptyString => if p c then EmptyString else String c EmptyString
      | r => String c r
      end
  end.

(** [s.strip()], [s.strip(chars)], [s.lstrip(chars)], [s.rstrip(chars)]. *)
Definition strip (s : string) : string := rstrip_by is_space (lstrip_by is_space s).
Definition strip_chars (chars s : string) : string :=
  rstrip_by (in_chars chars) (lstrip_by (in_chars chars) s).
Definition lstrip_chars (chars s : string) : string := lstrip_by (in_chars chars) s.
Definition rstrip_chars (chars s : string) : string := rstrip_by (in_chars chars) s.

(** [s.lower()]: A-Z and the upper-case letters of Latin-1. *)
Definition lower_char (c : ascii) : ascii :=
  let n := nat_of_ascii c in
  if ((65 <=? n) && (n <=? 90))
     || ((192 <=? n) && (n <=? 222) && negb (n =? 215))
  then ascii_of_nat (n + 32) else c.

Fixpoint lower (s : string) : string :=
  match s with
  | EmptyString => EmptyString
  | String c s' => String (lower_char c) (lower s')
  end.

Definition startswith (s p : string) : bool := prefix p s.

Definition endswith (s suf : string) : bool :=
  let n := String.length s in
  let m := String.length suf in
  (m <=? n) && String.eqb (substring (n - m) m s) suf.

(** [s.endswith((a, b, ...))]. *)
Definition endswith_any (s : string) (sufs : list string) : bool :=
  existsb (endswith s) sufs.

(** [sub in s]. *)
Fixpoint contains (sub s : string) : bool :=
  prefix sub s
  || match s with
     | EmptyString => false
     | String _ s' => contains sub s'
     end.

(** [s.replace(old, new)] for a non-empty [old]: occurrences are replaced
    from the left and do not overlap.  [skip] counts the characters of a
    matched occurrence that are still to be dropped. *)
Fixpoint replace_from (old new : string) (skip : nat) (s : string) : string :=
  match s with
  | EmptyString => EmptyString
  | String c s' =>
      match skip with
      | S k => replace_from old new k s'
      | O =>
          if prefix old s
          then (new ++ replace_from old new (String.length old - 1) s')%string
          else String c (replace_from old new 0 s')
      end
  end.

Definition replace (old new s : string) : string := replace_from old new 0 s.

(** [s.split()]: the maximal runs of non-space characters. *)
Fixpoint split_ws_from (cur : string) (s : string) : list string :=
  match s with
  | EmptyString => match cur with EmptyString => [] | _ => [cur] end
  | String c s' =>
      if is_space c
      then match cur with
           | EmptyString => split_ws_from EmptyString s'
           | _ => cur :: split_ws_from EmptyString s'
           end
      else split_ws_from (cur ++ String c EmptyString)%string s'
  end.

Definition split_ws (s : string) : list string := split_ws_from EmptyString s.

(** Splits at the last occurrence of [c]: the text before it and the text
    after it ([s.rfind(c)]); [None] when [c] does not occur. *)
Fixpoint rsplit1 (c : ascii) (s : string) : option (string * string) :=
  match s with
  | EmptyString => None
  | String a s' =>
      match rsplit1 c s' with
      | Some (h, t) => Some (String a h, t)
      | None => if Ascii.eqb a c then Some (EmptyString, s') else None
      end
  end.

Definition all_chars (p : ascii -> bool) (s : string) : bool :=
  forallb p (list_ascii_of_string s).

(** [posixpath.basename]. *)
Definition basename (p : string) : string :=
  match rsplit1 "/" p with
  | Some (_, t) => t
  | None => p
  end.

(** [posixpath.dirname]: the head up to the last slash, without trailing
    slashes unless it consists of slashes only. *)
Definition dirname (p : string) : string :=
  match rsplit1 "/" p with
  | None => EmptyString
  | Some (h, _) =>
      let head := (h ++ "/")%string in
      if all_chars (Ascii.eqb "/") head then head else rstrip_chars "/" head
  end.

(** [posixpath.splitext]: the extension starts at the last dot of the last
    component, provided a character other than a dot precedes it there. *)
Definition splitext (p : string) : string * string :=
  match rsplit1 "." (basename p) with
  | Some (root, e) =>
      if all_chars (Ascii.eqb ".") root then (p, EmptyString)
      else (substring 0 (String.length p - S (String.length e)) p, String "." e)
  | None => (p, EmptyString)
  end.

(** [posixpath.join] of two components. *)
Definition join (a b : string) : string :=
  if startswith b "/" then b
  else if (String.eqb a EmptyString || endswith a "/")%bool then (a ++ b)%string
  else (a ++ "/" ++ b)%string.

(** [str(n)] for an integer. *)
Definition str_of_Z (z : Z) : string := NilZero.string_of_int (Z.to_int z).

(** Truth value of a string: non-empty. *)
Definition truthy (s : string) : bool := negb (String.eqb s EmptyString).

End PyStr.

Import PyStr.


(** ** Data shared by the components *)

(** The keys of [default_preferences] in [load_preferences], with the types
    the preference menus store.  [last_output_directory] can be deleted
    ([del self.preferences["last_output_directory"]]), hence the option. *)
Record preferences : Type := {
  compression_preset : string;
  custom_compression_level : Z;
  default_output_directory : string;
  auto_open_after_extract : bool;
  exclude_patterns : list string;
  remember_last_directory : bool;
  last_output_directory : option string
}.

(** What [vm_stat] yielded inside the first [try] block of
    [check_system_resources_before_operation]: the block raised (the call,
    the parsing of a line or the arithmetic), the tool returned a non-zero
    status, or the four numbers were read. *)
Inductive vm_probe : Type :=
| VmRaised
| VmFailed
| VmStats (page_size free_pages inactive_pages speculative_pages : Z).

(** [os.getloadavg()[0]] and [os.cpu_count()], or an exception. *)
Inductive cpu_probe : Type :=
| CpuRaised
| CpuLoad (load_avg : Q) (cpu_count : option Z).

(** [subprocess.run(cmd, check=False)]: the exit status, or an exception
    while launching. *)
Inductive run_result : Type :=
| Exited (returncode : Z)
| RunRaised (msg : string).

(** The entries of the list [warnings]. *)
Inductive resource_warning : Type :=
| MemoryShort (level : Z) (estimated_gb available_gb : Q)
| LowMemory (available_gb : Q)
| ExtremeLevel (level : Z)
| HighCpu (percent : Q).

(** What the program shows or does to its environment.  Decorative output
    (banners, summaries, tips) is left out; every prompt, every message
    printed through [print_warning], [print_error], [print_info] and
    [print_success] that the components below issue, and every effect on
    the environment is recorded. *)
Inductive event : Type :=
| Prompt (text : string)
| PrintWarning (text : string)
| PrintError (text : string)
| PrintInfo (text : string)
| PrintSuccess (text : string)
| ResourceWarnings (ws : list resource_warning)
| Critical (level : Z)
| Run (cmd : list string)
| MakeDirs (path : string)
| SavePreferences (p : preferences).

(** Exceptions that leave a method.  [OutOfFuel] is not a Python exception:
    it marks the exhaustion of the recursion bound of a modelled loop, which
    never happens (lemmas [sound_create_archive], [sound_extract_archive]). *)
Inductive exn : Type :=
| EOFError
| TypeError
| ValueError
| IndexError
| OSError (msg : string)
| OutOfFuel.

Inductive outcome (A : Type) : Type :=
| Ok (a : A)
| Raise (e : exn).
Arguments Ok {A} a.
Arguments Raise {A} e.

(** The operating system as the program sees it.  Queries read the current
    state; [makedirs], [run_process] and [write_config] change it.  The
    content written to the preference file is part of the log
    ([SavePreferences]), not of the state the later queries read. *)
Record os_ops (W : Type) : Type := {
  path_exists : W -> string -> bool;
  path_isdir : W -> string -> bool;
  path_isfile : W -> string -> bool;
  path_abspath : W -> string -> string;
  path_getsize : W -> string -> option Z;
  walk_files : W -> string -> list string;
  listdir : W -> string -> option (list string);
  getcwd : W -> string;
  disk_free : W -> string -> option Z;
  read_lines : W -> string -> option (list string);
  vm_stat : W -> vm_probe;
  loadavg : W -> cpu_probe;
  today : W -> string;
  shlex_split : string -> option (list string);
  makedirs : W -> string -> option string * W;
  run_process : W -> list string -> run_result * W;
  write_config : W -> bool * W
}.
Arguments path_exists {W}.
Arguments path_isdir {W}.
Arguments path_isfile {W}.
Arguments path_abspath {W}.
Arguments path_getsize {W}.
Arguments walk_files {W}.
Arguments listdir {W}.
Arguments getcwd {W}.
Arguments disk_free {W}.
Arguments read_lines {W}.
Arguments vm_stat {W}.
Arguments loadavg {W}.
Arguments today {W}.
Arguments shlex_split {W}.
Arguments makedirs {W}.
Arguments run_process {W}.
Arguments write_config {W}.

(** ** The monad of interactive methods *)

Module IO.
Section Monad.
Context {W : Type}.

(** The lines the user will still type, and the operating system. *)
Record io_state : Type := { stdin : list string; world : W }.

Definition io (A : Type) : Type :=
  io_state -> outcome A * list event * io_state.

Definition ret {A} (a : A) : io A := fun st => (Ok a, [], st).

Definition bind {A B} (m : io A) (f : A -> io B) : io B :=
  fun st =>
    match m st with
    | (Ok a, log, st') =>
        match f a st' with
        | (r, log', st'') => (r, log ++ log', st'')
        end
    | (Raise e, log, st') => (Raise e, log, st')
    end.

Definition raise {A} (e : exn) : io A := fun st => (Raise e, [], st).

Definition emit (ev : event) : io unit := fun st => (Ok tt, [ev], st).

(** [input(prompt)] and [getpass.getpass(prompt)]: the next line, or
    [EOFError] at the end of the input. *)
Definition input (prompt : string) : io string :=
  fun st =>
    match stdin st with
    | [] => (Raise EOFError, [Prompt prompt], st)
    | line :: rest =>
        (Ok line, [Prompt prompt], {| stdin := rest; world := world st |})
    end.

Definition get_world : io W := fun st => (Ok (world st), [], st).

(** An effect on the operating system. *)
Definition os_step {A} (f : W -> A * W) : io A :=
  fun st =>
    let (a, w') := f (world st) in
    (Ok a, [], {| stdin := stdin st; world := w' |}).

(** [for x in l:] with the variables the body updates. *)
Fixpoint for_list {A S} (l : list A) (body : S -> A -> io S) (s : S) : io S :=
  match l with
  | [] => ret s
  | x :: l' => bind (body s x) (fun s' => for_list l' body s')
  end.

(** A computation that may raise but has no other effect. *)
Definition lift {A} (r : outcome A) : io A := fun st => (r, [], st).

(** [try: m  except Exception: handler]. *)
Definition try_except {A} (m : io A) (handler : exn -> io A) : io A :=
  fun st =>
    match m st with
    | (Raise OutOfFuel, log, st') => (Raise OutOfFuel, log, st')
    | (Raise e, log, st') =>
        match handler e st' with
        | (r, log', st'') => (r, log ++ log', st'')
        end
    | (Ok a, log, st') => (Ok a, log, st')
    end.

(** [while True:] loops whose body starts by reading a line.  [Continue]
    carries the loop variables into the next iteration, [Break] leaves the
    loop (by [break] or [return]). *)
Inductive ctl (S A : Type) : Type :=
| Continue (s : S)
| Break (a : A).
Arguments Continue {S A} s.
Arguments Break {S A} a.

Fixpoint while_fuel {S A} (fuel : nat) (prompt : string)
         (body : S -> string -> io (ctl S A)) (s : S) : io A :=
  bind (input prompt) (fun line =>
  match fuel with
  | O => raise OutOfFuel
  | Datatypes.S fuel' =>
      bind (body s line) (fun c =>
      match c with
      | Break a => ret a
      | Continue s' => while_fuel fuel' prompt body s'
      end)
  end).

(** Every iteration consumes a line, so the number of lines left bounds
    the number of iterations. *)
Definition while_input {S A} (prompt : string)
           (body : S -> string -> io (ctl S A)) (s : S) : io A :=
  fun st => while_fuel (List.length (stdin st)) prompt body s st.

End Monad.
Arguments io_state W : clear implicits.
Arguments io W A : clear implicits.
Arguments Continue {S A} s.
Arguments Break {S A} a.
End IO.
Import IO.

Declare Scope io_scope.
Delimit Scope io_scope with io.
Notation "x <- m ;; k" := (bind m (fun x => k))
  (at level 100, m at next level, right associativity) : io_scope.
Notation "m ;;; k" := (bind m (fun _ => k))
  (at level 100, right associativity) : io_scope.

Local Open Scope io_scope.

(** ** PathResolver *)

Definition dquote : ascii := ascii_of_nat 34.
Definition quote_chars : string := String dquote "'".

(** [clean_macos_path]: the stripped form and the form with the terminal's
    backslash escapes removed. *)
Definition clean_macos_path (path : string) : string * string :=
  let cleaned := strip_chars quote_chars (strip path) in
  let unescaped :=
    replace "\&" "&" (replace "\)" ")" (replace "\(" "(" (replace "\ " " " cleaned))) in
  (cleaned, unescaped).

Section PathResolver.
Context {W : Type} (os : os_ops W).

Definition denied_prefix (abs_path : string) : bool :=
  startswith abs_path "/System" || startswith abs_path "/usr/bin"
  || startswith abs_path "/private".

(** The body of the [for] loop of [validate_files_for_archiving], with the
    list built so far. *)
Fixpoint validate_files_loop (w : W) (file_paths validated_files : list string)
  : list string :=
  match file_paths with
  | [] => validated_files
  | file_path :: rest =>
      if negb (truthy file_path) || negb (truthy (strip file_path))
      then validate_files_loop w rest validated_files
      else
        let (original_path, unescaped_path) := clean_macos_path file_path in
        let abs_path :=
          if path_exists os w original_path
          then Some (path_abspath os w original_path)
          else if path_exists os w unescaped_path
               then Some (path_abspath os w unescaped_path)
               else None in
        match abs_path with
        | None => validate_files_loop w rest validated_files
        | Some abs_path =>
            if denied_prefix abs_path
            then validate_files_loop w rest validated_files
            else validate_files_loop w rest (validated_files ++ [abs_path])
        end
  end.

Definition validate_files_for_archiving (w : W) (file_paths : list string)
  : list string :=
  validate_files_loop w file_paths [].

End PathResolver.

(** ** ResourceEstimator *)

Definition Qltb (a b : Q) : bool := negb (Qle_bool b a).

Definition one_of (s : string) (options : list string) : bool :=
  existsb (String.eqb s) options.

(** [memory_multiplier.get(compression_level, 3)]. *)
Definition memory_multiplier (compression_level : Z) : Q :=
  match compression_level with
  | 0%Z => 1 # 10
  | 1%Z => 2 # 10
  | 2%Z => 5 # 10
  | 3%Z => 1
  | 4%Z => 2
  | 5%Z => 3
  | 6%Z => 5
  | 7%Z => 8
  | 8%Z => 12
  | 9%Z => 16
  | _ => 3
  end%Q.

(** The warnings of the memory [try] block. *)
Definition memory_warnings (probe : vm_probe) (compression_level : Z)
  : list resource_warning :=
  match probe with
  | VmStats page_size free_pages inactive_pages speculative_pages =>
      let available_pages := (free_pages + inactive_pages + speculative_pages)%Z in
      let available_memory_gb :=
        (inject_Z (available_pages * page_size) / inject_Z (1024 ^ 3))%Q in
      let estimated_memory_gb := memory_multiplier compression_level in
      (if Qltb available_memory_gb estimated_memory_gb
       then [MemoryShort compression_level estimated_memory_gb available_memory_gb]
       else [])
      ++ (if Qltb available_memory_gb 2
          then [LowMemory available_memory_gb] else [])
  | VmFailed => []
  | VmRaised =>
      if (8 <=? compression_level)%Z then [ExtremeLevel compression_level] else []
  end.

(** The warnings of the CPU [try] block. *)
Definition cpu_warnings (probe : cpu_probe) : list resource_warning :=
  match probe with
  | CpuLoad load_avg cpu_count =>
      let cpu_count :=
        match cpu_count with
        | Some n => if (n =? 0)%Z then 1%Z else n
        | None => 1%Z
        end in
      let cpu_usage_percent := (load_avg / inject_Z cpu_count * 100)%Q in
      if Qltb 70 cpu_usage_percent then [HighCpu cpu_usage_percent] else []
  | CpuRaised => []
  end.

Section ResourceEstimator.
Context {W : Type} (os : os_ops W).

Definition check_system_resources_before_operation
           (compression_level : Z) (total_size : Z) : io W bool :=
  w <- get_world ;;
  let warnings :=
    memory_warnings (vm_stat os w) compression_level ++ cpu_warnings (loadavg os w) in
  match warnings with
  | _ :: _ =>
      emit (ResourceWarnings warnings) ;;;
      if (8 <=? compression_level)%Z
      then
        emit (Critical compression_level) ;;;
        proceed <- input "Continue anyway? (y/n, default: n): " ;;
        ret (String.eqb (lower proceed) "y")
      else
        proceed <- input "Continue with warnings? (y/n, default: n): " ;;
        ret (one_of (lower proceed) ["y"; "yes"])
  | [] => ret true
  end.

End ResourceEstimator.

(** ** ArchivePlanner *)

Definition tab_chars : string := String (ascii_of_nat 9) EmptyString.

(** One test of the [if]/[elif] chain of [generate_smart_archive_name]:
    some name contains a keyword or ends with one of the extensions. *)
Definition names_match (keywords exts : list string) (file_names : list string)
  : bool :=
  existsb (fun name =>
             existsb (fun k => contains k (lower name)) keywords
             || endswith_any (lower name) exts) file_names.

(** [int(text)] for a decimal literal: an optional sign, then digits that
    single underscores may separate. *)
Definition digit_of (c : ascii) : option Z :=
  let n := nat_of_ascii c in
  if (48 <=? n) && (n <=? 57) then Some (Z.of_nat (n - 48)) else None.

Fixpoint parse_digits (acc : Z) (after_digit : bool) (s : string) : option Z :=
  match s with
  | EmptyString => if after_digit then Some acc else None
  | String c s' =>
      match digit_of c with
      | Some d => parse_digits (acc * 10 + d) true s'
      | None =>
          if Ascii.eqb c "_" && after_digit
          then match s' with
               | EmptyString => None
               | String c' _ =>
                   match digit_of c' with
                   | Some _ => parse_digits acc false s'
                   | None => None
                   end
               end
          else None
      end
  end.

Definition parse_int (text : string) : option Z :=
  match strip text with
  | String "-" s' => option_map Z.opp (parse_digits 0 false s')
  | String "+" s' => parse_digits 0 false s'
  | s => parse_digits 0 false s
  end.

(** [compression_ratios.get(compression_level, 0.5)]. *)
Definition compression_ratios (compression_level : Z) : Q :=
  match compression_level with
  | 0%Z => 1
  | 1%Z => 7 # 10
  | 2%Z => 65 # 100
  | 3%Z => 6 # 10
  | 4%Z => 55 # 100
  | 5%Z => 5 # 10
  | 6%Z => 45 # 100
  | 7%Z => 4 # 10
  | 8%Z => 35 # 100
  | 9%Z => 3 # 10
  | _ => 5 # 10
  end%Q.

Definition archive_extensions : list string := [".7z"; ".zip"; ".tar"; ".gz"].

(** The flags and operands of the command that [create_archive] builds
    (lines "Build secure command" to [cmd.extend(validated_files)]). *)
Definition create_flags (output_ext : string) (compression_level : Z)
           (split_size : option string) (overwrite_existing : bool)
           (password : option string) : list string :=
  (if negb (String.eqb output_ext "tar")
   then [("-mx" ++ str_of_Z compression_level)%string] else [])
  ++ (match split_size with
      | Some size => if truthy size then [("-v" ++ size)%string] else []
      | None => []
      end)
  ++ (if overwrite_existing then ["-y"] else [])
  ++ (match password with
      | Some pw =>
          if truthy pw
          then [("-p" ++ pw)%string]
               ++ (if String.eqb output_ext "7z" then ["-mhe=on"] else [])
          else []
      | None => []
      end).

Definition create_cmd (seven_zip_path output_path output_ext : string)
           (compression_level : Z) (split_size : option string)
           (overwrite_existing : bool) (password : option string)
           (validated_files : list string) : list string :=
  [seven_zip_path; "a"]
  ++ create_flags output_ext compression_level split_size overwrite_existing password
  ++ [output_path] ++ validated_files.

(** [output_ext] in [create_archive]. *)
Definition output_ext_of (output_path : string) : string :=
  lstrip_chars "." (lower (snd (splitext output_path))).

(** The local variables of [create_archive] at the point where the command
    has been built. *)
Record create_plan : Type := {
  plan_files : list string;
  plan_output_path : string;
  plan_password : option string;
  plan_compression_level : Z;
  plan_split_size : option string;
  plan_overwrite_existing : bool;
  plan_cmd : list string
}.

Section ArchivePlanner.
Context {W : Type} (os : os_ops W) (seven_zip_path : string).

(** [generate_smart_archive_name]; [source_files[0]] raises on an empty
    list. *)
Definition generate_smart_archive_name (w : W) (source_files : list string)
  : outcome string :=
  match source_files with
  | [source] =>
      let base_name := basename (rstrip_chars "/" source) in
      if path_isdir os w source
      then Ok (base_name ++ ".7z")%string
      else
        let name_without_ext := fst (splitext base_name) in
        Ok (name_without_ext ++ "_archive.7z")%string
  | _ =>
      let file_names := map (fun f => basename (rstrip_chars "/" f)) source_files in
      let base_name :=
        if names_match ["photo"; "img"] [".jpg"; ".png"; ".gif"; ".heic"] file_names
        then Ok "Photos"
        else if names_match ["doc"] [".pdf"; ".txt"; ".docx"; ".pages"] file_names
        then Ok "Documents"
        else if names_match ["video"; "movie"] [".mp4"; ".mov"; ".avi"] file_names
        then Ok "Videos"
        else if names_match ["music"; "audio"] [".mp3"; ".m4a"; ".wav"] file_names
        then Ok "Audio"
        else if names_match ["project"; "src"; "code"] [] file_names
        then Ok "Project"
        else
          match source_files with
          | [] => Raise IndexError
          | first :: _ =>
              let common_parent := dirname first in
              if truthy common_parent
                 && forallb (fun f => startswith f common_parent) source_files
              then
                let b := basename common_parent in
                Ok (if truthy b then b else "Files")
              else Ok "Mixed_Files"
          end in
      match base_name with
      | Ok base_name =>
          let date_str := today os w in
          Ok (base_name ++ "_" ++ date_str ++ ".7z")%string
      | Raise e => Raise e
      end
  end.

(** [save_preferences]: the record is written, or the failure is reported
    and ignored. *)
Definition save_preferences (prefs : preferences) : io W unit :=
  ok <- os_step (write_config os) ;;
  if ok : bool then emit (SavePreferences prefs)
  else emit (PrintWarning "Could not save preferences").

Definition set_last_output_directory (prefs : preferences) (dir : string)
  : preferences :=
  {| compression_preset := compression_preset prefs;
     custom_compression_level := custom_compression_level prefs;
     default_output_directory := default_output_directory prefs;
     auto_open_after_extract := auto_open_after_extract prefs;
     exclude_patterns := exclude_patterns prefs;
     remember_last_directory := remember_last_directory prefs;
     last_output_directory := Some dir |}.

(** One pass of the [while True] loop of [get_file_paths]; [line] is the
    answer to the prompt [Path(s):]. *)
Definition get_file_paths_body (all_files : list string) (line : string)
  : io W (ctl (list string) (option (list string))) :=
  let paths_input := strip line in
  if String.eqb (lower paths_input) "cancel" then ret (Break None)
  else if String.eqb (lower paths_input) "file" then
    answer <- input "Path to text file with file list (one per line): " ;;
    let file_list_path := strip answer in
    if String.eqb (lower file_list_path) "cancel" then ret (Break None)
    else
      let cleaned_path := snd (clean_macos_path file_list_path) in
      w <- get_world ;;
      if path_exists os w cleaned_path then
        match read_lines os w cleaned_path with
        | None =>
            emit (PrintError "Error reading file list") ;;;
            ret (Continue all_files)
        | Some lines =>
            let file_paths := filter truthy (map strip lines) in
            all_files <-
              for_list file_paths
                (fun all_files path =>
                   let clean_path := snd (clean_macos_path path) in
                   if path_exists os w clean_path
                   then ret (all_files ++ [clean_path])
                   else
                     emit (PrintWarning ("File not found (skipping): " ++ path)) ;;;
                     ret all_files)
                all_files ;;
            match all_files with
            | _ :: _ =>
                emit (PrintSuccess "Loaded files from list") ;;;
                ret (Break (Some all_files))
            | [] =>
                emit (PrintWarning "No valid files found in the file list") ;;;
                ret (Continue all_files)
            end
        end
      else
        emit (PrintError ("File list not found: " ++ file_list_path)) ;;;
        ret (Continue all_files)
  else if negb (truthy paths_input) then
    emit (PrintWarning "Please enter at least one path") ;;;
    ret (Continue all_files)
  else
    go_on <-
      (if (4000 <? String.length paths_input)
          && negb (endswith_any paths_input [" "; tab_chars; "/"])
       then
         emit (PrintWarning "Input might be truncated! Terminal has a character limit.") ;;;
         retry <- input "Continue anyway? (y/n): " ;;
         ret (one_of (lower (strip retry)) ["y"; "yes"])
       else ret true) ;;
    if negb go_on then ret (Continue all_files)
    else
      let path_list :=
        match shlex_split os paths_input with
        | Some l => l
        | None => split_ws paths_input
        end in
      w <- get_world ;;
      valid_paths <-
        for_list path_list
          (fun valid_paths path =>
             let (original_path, unescaped_path) := clean_macos_path path in
             if path_exists os w original_path
             then ret (valid_paths ++ [original_path])
             else if path_exists os w unescaped_path
             then ret (valid_paths ++ [unescaped_path])
             else
               emit (PrintWarning ("File or folder not found: " ++ original_path)) ;;;
               ret valid_paths)
          [] ;;
      match valid_paths with
      | _ :: _ =>
          let all_files := all_files ++ valid_paths in
          emit (PrintSuccess "Added") ;;;
          add_more <- input "Add more files? (y/n): " ;;
          if one_of (lower (strip add_more)) ["y"; "yes"]
          then ret (Continue all_files)
          else ret (Break (Some all_files))
      | [] =>
          emit (PrintWarning "ERROR: No valid files found. Please check your paths and try again.") ;;;
          ret (Continue all_files)
      end.

Definition get_file_paths : io W (option (list string)) :=
  while_input "Path(s): " get_file_paths_body [].

Definition default_dir_of (prefs : preferences) : string :=
  if remember_last_directory prefs
  then match last_output_directory prefs with
       | Some d => d
       | None => default_output_directory prefs
       end
  else default_output_directory prefs.

Definition add_default_extension (name : string) : string :=
  if endswith_any name archive_extensions then name else (name ++ ".7z")%string.

(** [get_output_path(default_name, source_files)]; the result carries the
    preferences as the method leaves them. *)
Definition get_output_path (prefs : preferences) (default_name : string)
           (source_files : option (list string)) : io W (string * preferences) :=
  w <- get_world ;;
  smart_name <-
    match source_files with
    | Some ((_ :: _) as files) => lift (generate_smart_archive_name w files)
    | _ => ret default_name
    end ;;
  let default_dir := default_dir_of prefs in
  let default_full_path := join default_dir smart_name in
  answer <- input "Path (or press Enter to use suggestion): " ;;
  let path := strip answer in
  if negb (truthy path) then ret (default_full_path, prefs)
  else
    let path := strip_chars quote_chars path in
    let path := snd (clean_macos_path path) in
    path <-
      (if path_isdir os w path || endswith path "/" then
         let base_dir := rstrip_chars "/" path in
         match source_files with
         | None => raise TypeError
         | Some [source] =>
             let base_name := fst (splitext (basename source)) in
             let filename := (base_name ++ ".7z")%string in
             ret (join base_dir filename)
         | Some [] => raise IndexError
         | Some (first :: _) =>
             let first_file_name := fst (splitext (basename first)) in
             let default_filename := (first_file_name ++ "_archive.7z")%string in
             answer <- input "Filename (or press Enter to use smart filename): " ;;
             let filename := strip answer in
             let filename := if truthy filename then filename else default_filename in
             ret (join base_dir (add_default_extension filename))
         end
       else ret (add_default_extension path)) ;;
    let output_dir := dirname path in
    prefs <-
      (if truthy output_dir && path_exists os w output_dir
       then
         let prefs := set_last_output_directory prefs output_dir in
         save_preferences prefs ;;; ret prefs
       else ret prefs) ;;
    let parent_dir := dirname path in
    w <- get_world ;;
    if truthy parent_dir && negb (path_exists os w parent_dir) then
      failure <- os_step (fun w => makedirs os w parent_dir) ;;
      emit (MakeDirs parent_dir) ;;;
      match failure with
      | None =>
          emit (PrintSuccess ("Created directory: " ++ parent_dir)) ;;;
          ret (path, prefs)
      | Some e =>
          emit (PrintError ("Cannot create directory " ++ parent_dir ++ ": " ++ e)) ;;;
          emit (PrintInfo "Using default location as fallback") ;;;
          let filename := basename path in
          ret (join default_dir filename, prefs)
      end
    else ret (path, prefs).

(** [get_password(optional, for_extraction)]. *)
Definition get_password (optional for_extraction : bool) : io W (option string) :=
  wanted <-
    (if optional then
       add_password <-
         input (if for_extraction
                then "Is this archive password protected? (y/n): "
                else "Add password protection? (y/n): ") ;;
       ret (String.eqb (lower add_password) "y")
     else ret true) ;;
  if negb wanted then ret None
  else
    while_input "Password: "
      (fun (_ : unit) password =>
         if negb (truthy password) && optional then ret (Break None)
         else if String.length password <? 4 then
           emit (PrintWarning "Password should be at least 4 characters") ;;;
           ret (Continue tt)
         else
           confirm <- input "Confirm password: " ;;
           if String.eqb password confirm then ret (Break (Some password))
           else
             emit (PrintError "Passwords don't match. Try again.") ;;;
             ret (Continue tt))
      tt.

(** [_confirm_level_9]. *)
Definition _confirm_level_9 : io W Z :=
  emit (PrintWarning "ULTRA COMPRESSION WARNING") ;;;
  confirm <- input "Continue with Level 9 anyway? (y/n, default: n): " ;;
  if negb (String.eqb (lower confirm) "y") then ret 5%Z else ret 9%Z.

(** [_get_custom_level]. *)
Definition _get_custom_level : io W Z :=
  while_input "Choose level (0-9): "
    (fun (_ : unit) answer =>
       match parse_int (strip answer) with
       | Some level =>
           if (0 <=? level)%Z && (level <=? 9)%Z then
             if (level =? 9)%Z then
               level <- _confirm_level_9 ;; ret (Break level)
             else
               (if (7 <=? level)%Z
                then emit (PrintWarning "Level uses significant memory and time")
                else ret tt) ;;;
               ret (Break level)
           else
             emit (PrintWarning "Please enter a number between 0 and 9") ;;;
             ret (Continue tt)
       | None =>
           emit (PrintWarning "Please enter a valid number") ;;;
           ret (Continue tt)
       end)
    tt.

(** [get_compression_level]. *)
Definition get_compression_level (prefs : preferences) : io W Z :=
  let preset := compression_preset prefs in
  if String.eqb preset "fast" then ret 1%Z
  else if String.eqb preset "balanced" then ret 5%Z
  else if String.eqb preset "maximum" then _confirm_level_9
  else if String.eqb preset "custom" then
    let level := custom_compression_level prefs in
    if (level =? 9)%Z then _confirm_level_9 else ret level
  else
    while_input "Choose preset (1-4, default 2): "
      (fun (_ : unit) answer =>
         let choice := strip answer in
         if negb (truthy choice) || String.eqb choice "2" then ret (Break 5%Z)
         else if String.eqb choice "1" then ret (Break 1%Z)
         else if String.eqb choice "3" then
           level <- _confirm_level_9 ;; ret (Break level)
         else if String.eqb choice "4" then
           level <- _get_custom_level ;; ret (Break level)
         else
           emit (PrintWarning "Please enter 1-4") ;;;
           ret (Continue tt))
      tt.

(** The loops that add up the sizes of the sources.  The sum so far is
    returned with a flag telling whether [os.path.getsize] raised on a
    source that is a file (inside a directory such failures are skipped). *)
Definition directory_size (w : W) (dir : string) : Z :=
  fold_left (fun total file =>
               match path_getsize os w file with
               | Some n => (total + n)%Z
               | None => total
               end) (walk_files os w dir) 0%Z.

Fixpoint sources_size (w : W) (sources : list string) (total_size : Z)
  : Z * bool :=
  match sources with
  | [] => (total_size, false)
  | source :: rest =>
      if path_isfile os w source then
        match path_getsize os w source with
        | Some n => sources_size w rest (total_size + n)%Z
        | None => (total_size, true)
        end
      else if path_isdir os w source then
        sources_size w rest (total_size + directory_size w source)%Z
      else sources_size w rest total_size
  end.

(** [estimate_archive_size]: megabytes, or [None] after an exception. *)
Definition estimate_archive_size (w : W) (source_files : list string)
           (compression_level : Z) : option Q :=
  match sources_size w source_files 0%Z with
  | (_, true) => None
  | (total_size, false) =>
      let total_mb := (inject_Z total_size / inject_Z (1024 * 1024))%Q in
      let ratio := compression_ratios compression_level in
      Some (total_mb * ratio)%Q
  end.

(** [check_disk_space]; the whole body is inside [try ... except
    Exception], so an exception (also the end of the input at the prompt)
    makes the method answer [True]. *)
Definition check_disk_space (output_path : string) (estimated_size_mb : option Q)
  : io W bool :=
  try_except
    (w <- get_world ;;
     let output_dir :=
       let d := dirname output_path in
       if truthy d then d else getcwd os w in
     match disk_free os w output_dir with
     | None => raise (OSError "disk_usage")
     | Some free_bytes =>
         let free_mb := (inject_Z free_bytes / inject_Z (1024 * 1024))%Q in
         let free_gb := (free_mb / 1024)%Q in
         let estimate :=
           match estimated_size_mb with
           | Some e => if Qeq_bool e 0 then None else Some e
           | None => None
           end in
         match estimate with
         | Some estimated_size_mb =>
             let required_mb := (estimated_size_mb * (12 # 10))%Q in
             if Qltb free_mb required_mb then
               emit (PrintWarning "DISK SPACE WARNING") ;;;
               continue_anyway <- input "Continue anyway? (y/n): " ;;
               if one_of (lower (strip continue_anyway)) ["y"; "yes"]
               then ret true else ret false
             else ret true
         | None =>
             (if Qltb free_gb 1
              then emit (PrintWarning "Low disk space")
              else ret tt) ;;;
             ret true
         end
     end)
    (fun _ => ret true).

(** The split-size menu of [create_archive], shown above 10 GiB. *)
Definition choose_split_size (total_size : Z) : io W (option string) :=
  if (10 * 1024 * 1024 * 1024 <? total_size)%Z then
    while_input "Choose option (1-4, default 1): "
      (fun (_ : unit) answer =>
         let choice := strip answer in
         if negb (truthy choice) || String.eqb choice "1" then ret (Break None)
         else if String.eqb choice "2" then ret (Break (Some "4000m"))
         else if String.eqb choice "3" then ret (Break (Some "2000m"))
         else if String.eqb choice "4" then
           answer <- input "Enter split size (e.g., 1000m, 500m): " ;;
           let custom_size := strip answer in
           if truthy custom_size then ret (Break (Some custom_size))
           else ret (Continue tt)
         else
           emit (PrintError "Invalid choice. Please enter 1-4.") ;;;
           ret (Continue tt))
      tt
  else ret None.

(** The password step of [create_archive] ("Warn about TAR password
    limitation before asking for password"). *)
Definition choose_password (output_ext : string) : io W (option string) :=
  if String.eqb output_ext "tar" then
    emit (PrintWarning "Note: TAR format does not support password protection.") ;;;
    emit (PrintInfo "The archive will be created without encryption.") ;;;
    ret None
  else get_password true false.

(** The existing-file menu of [create_archive]: the output path and
    [overwrite_existing], or [None] when the method returns. *)
Definition resolve_existing_output (prefs : preferences) (output_path : string)
  : io W (option (string * bool) * preferences) :=
  w <- get_world ;;
  if path_exists os w output_path then
    emit (PrintWarning ("File already exists: " ++ basename output_path)) ;;;
    answer <- input "Choose option (1-3): " ;;
    let choice := strip answer in
    if String.eqb choice "2" then
      r <- get_output_path prefs "archive.7z" None ;;
      let (output_path, prefs) := r : string * preferences in
      w <- get_world ;;
      if path_exists os w output_path then
        emit (PrintWarning "File still exists. Please choose a different name.") ;;;
        ret (None, prefs)
      else ret (Some (output_path, false), prefs)
    else if String.eqb choice "3" then
      emit (PrintWarning "Operation cancelled") ;;;
      ret (None, prefs)
    else if String.eqb choice "1" then ret (Some (output_path, true), prefs)
    else
      emit (PrintWarning "Invalid choice. Operation cancelled.") ;;;
      ret (None, prefs)
  else ret (Some (output_path, false), prefs).

(** [create_archive] from the password step to the built command, for
    the files and the output path chosen before. *)
Definition create_archive_from_password (validated_files : list string)
           (output_path : string) (overwrite_existing : bool)
           (prefs : preferences) : io W (option create_plan) :=
  let output_ext := output_ext_of output_path in
  password <- choose_password output_ext ;;
  compression_level <- get_compression_level prefs ;;
  w <- get_world ;;
  let estimated_size_mb := estimate_archive_size w validated_files compression_level in
  enough <- check_disk_space output_path estimated_size_mb ;;
  if negb enough then
    emit (PrintInfo "Operation cancelled due to disk space concerns") ;;;
    ret None
  else
    let total_size :=
      match sources_size w validated_files 0%Z with
      | (total, false) => total
      | (_, true) => 0%Z
      end in
    split_size <- choose_split_size total_size ;;
    (match password with
     | Some pw =>
         if truthy pw then ret tt
         else emit (PrintWarning "Archive will be unencrypted - consider adding a password")
     | None => emit (PrintWarning "Archive will be unencrypted - consider adding a password")
     end) ;;;
    let total_size := fst (sources_size w validated_files 0%Z) in
    proceed <- check_system_resources_before_operation os compression_level total_size ;;
    if negb proceed then
      emit (PrintWarning "Operation cancelled due to resource concerns") ;;;
      ret None
    else
      confirm <- input "Create archive? (y/n): " ;;
      if negb (String.eqb (lower confirm) "y") then ret None
      else
        let cmd :=
          create_cmd seven_zip_path output_path output_ext compression_level
                     split_size overwrite_existing password validated_files in
        ret (Some {| plan_files := validated_files;
                     plan_output_path := output_path;
                     plan_password := password;
                     plan_compression_level := compression_level;
                     plan_split_size := split_size;
                     plan_overwrite_existing := overwrite_existing;
                     plan_cmd := cmd |}).

(** [create_archive] up to the built command; [None] when the method
    returns before building it. *)
Definition create_archive_plan (prefs : preferences)
  : io W (option create_plan * preferences) :=
  files <- get_file_paths ;;
  match files with
  | None | Some [] =>
      emit (PrintWarning "No files selected") ;;; ret (None, prefs)
  | Some files =>
      w <- get_world ;;
      let validated_files := validate_files_for_archiving os w files in
      match validated_files with
      | [] =>
          emit (PrintError "No valid files to archive after security validation") ;;;
          ret (None, prefs)
      | _ :: _ =>
          r <- get_output_path prefs "archive.7z" (Some validated_files) ;;
          let (output_path, prefs) := r : string * preferences in
          r <- resolve_existing_output prefs output_path ;;
          let (chosen, prefs) := r : option (string * bool) * preferences in
          match chosen with
          | None => ret (None, prefs)
          | Some (output_path, overwrite_existing) =>
              w <- get_world ;;
              let output_abs := path_abspath os w output_path in
              if startswith output_abs "/System" || startswith output_abs "/usr/bin"
              then
                emit (PrintError "Cannot create archives in system directories") ;;;
                ret (None, prefs)
              else
                plan <- create_archive_from_password validated_files output_path
                                                     overwrite_existing prefs ;;
                ret (plan, prefs)
          end
      end
  end.

(** [show_archive_completion]. *)
Definition show_archive_completion (archive_path : string)
           (source_files : list string) : io W unit :=
  w <- get_world ;;
  if negb (path_exists os w archive_path) then
    emit (PrintError "Archive file not found after creation")
  else
    match path_getsize os w archive_path, sources_size w source_files 0%Z with
    | None, _ => raise (OSError "getsize")
    | _, (_, true) => raise (OSError "getsize")
    | Some _, (_, false) =>
        let archive_dir := dirname archive_path in
        open_folder <- input "Open containing folder? (y/n): " ;;
        if one_of (lower (strip open_folder)) ["y"; "yes"] then
          emit (Run ["open"; archive_dir]) ;;;
          r <- os_step (fun w => run_process os w ["open"; archive_dir]) ;;
          match r with
          | Exited _ => ret tt
          | RunRaised msg => raise (OSError msg)
          end
        else ret tt
    end.

(** [create_archive]; the result is the preference record as the method
    leaves it. *)
Definition create_archive (prefs : preferences) : io W preferences :=
  r <- create_archive_plan prefs ;;
  let (plan, prefs) := r : option create_plan * preferences in
  match plan with
  | None => ret prefs
  | Some plan =>
      emit (Run (plan_cmd plan)) ;;;
      r <- os_step (fun w => run_process os w (plan_cmd plan)) ;;
      match r with
      | Exited 0%Z =>
          w <- get_world ;;
          (if path_exists os w (plan_output_path plan) then
             match path_getsize os w (plan_output_path plan) with
             | Some n =>
                 if (0 <? n)%Z
                 then show_archive_completion (plan_output_path plan) (plan_files plan)
                 else ret tt
             | None => raise (OSError "getsize")
             end
           else ret tt) ;;;
          ret prefs
      | Exited code =>
          emit (PrintError ("Archive creation failed (error code: "
                            ++ str_of_Z code ++ ")")) ;;;
          ret prefs
      | RunRaised msg =>
          emit (PrintError ("Archive creation failed: " ++ msg)) ;;;
          ret prefs
      end
  end.

End ArchivePlanner.

(** ** ExtractionCoordinator *)

Inductive extraction_mode : Type := Separate | Combined.

(** The three branches of the summary at the end of [extract_archive]. *)
Inductive batch_result : Type :=
| AllSucceeded
| PartialSuccess (succeeded : nat) (failed : list (string * string))
| AllFailed (failed : list (string * string)).

Definition newline : string := String (ascii_of_nat 10) EmptyString.

(** [overwrite_flag] for the answer to the menu shown when the destination
    already contains files; [None] stands for "Cancel extraction". *)
Definition overwrite_flag_of_choice (resume_choice : string) : option string :=
  if String.eqb resume_choice "4" then None
  else if String.eqb resume_choice "2" then Some "-aoa"
  else if String.eqb resume_choice "3" then Some "-ao"
  else Some "-aos".

(** The extraction command of one archive. *)
Definition extract_cmd (seven_zip_path archive_path current_dest : string)
           (overwrite_flag : option string) (selected_files : list string)
           (archive_count : nat) : list string :=
  [seven_zip_path; "x"; archive_path; ("-o" ++ current_dest)%string; "-y"]
  ++ (match overwrite_flag with
      | Some flag => if truthy flag then [flag] else []
      | None => []
      end)
  ++ (match selected_files with
      | _ :: _ => if archive_count =? 1 then selected_files else []
      | [] => []
      end).

Definition summarize (success_count archive_count : nat)
           (failed_archives : list (string * string)) : batch_result :=
  if success_count =? archive_count then AllSucceeded
  else if 0 <? success_count then PartialSuccess success_count failed_archives
  else AllFailed failed_archives.

Section ExtractionCoordinator.
Context {W : Type} (os : os_ops W) (seven_zip_path : string).

(** One pass of the loop "Extract all archives": [idx] counts from 1,
    [counts] holds [success_count] and [failed_archives]. *)
Definition extract_job (archive_count : nat) (extract_to : string)
           (mode : extraction_mode) (overwrite_flag : option string)
           (selected_files : list string)
           (counts : nat * list (string * string)) (idx : nat)
           (archive_path : string) : io W (nat * list (string * string)) :=
  let (success_count, failed_archives) := counts in
  let archive_name := basename archive_path in
  let archive_base := fst (splitext archive_name) in
  dest <-
    (match mode with
     | Separate =>
         if 1 <? archive_count then
           let current_dest := join extract_to archive_base in
           failure <- os_step (fun w => makedirs os w current_dest) ;;
           emit (MakeDirs current_dest) ;;;
           match failure with
           | None => ret (inl current_dest)
           | Some e =>
               emit (PrintError ("Cannot create directory for " ++ archive_name
                                 ++ ": " ++ e)) ;;;
               ret (inr e)
           end
         else ret (inl extract_to)
     | Combined => ret (inl extract_to)
     end) ;;
  match dest with
  | inr e => ret (success_count, failed_archives ++ [(archive_name, e)])
  | inl current_dest =>
      let cmd := extract_cmd seven_zip_path archive_path current_dest
                             overwrite_flag selected_files archive_count in
      emit (Run cmd) ;;;
      result <- os_step (fun w => run_process os w cmd) ;;
      match result with
      | Exited returncode =>
          if negb (returncode =? 0)%Z then
            emit (PrintError ("Extraction failed for " ++ archive_name
                              ++ " (error code: " ++ str_of_Z returncode ++ ")")) ;;;
            ret (success_count,
                 failed_archives
                 ++ [(archive_name, ("error code " ++ str_of_Z returncode)%string)])
          else
            emit (PrintSuccess ("Extracted: " ++ archive_name)) ;;;
            ret (success_count + 1, failed_archives)
      | RunRaised e =>
          emit (PrintError ("Extraction failed for " ++ archive_name ++ ": " ++ e)) ;;;
          ret (success_count, failed_archives ++ [(archive_name, e)])
      end
  end.

Fixpoint extract_jobs (archive_count : nat) (extract_to : string)
         (mode : extraction_mode) (overwrite_flag : option string)
         (selected_files : list string) (idx : nat) (archive_paths : list string)
         (counts : nat * list (string * string))
  : io W (nat * list (string * string)) :=
  match archive_paths with
  | [] => ret counts
  | archive_path :: rest =>
      counts <- extract_job archive_count extract_to mode overwrite_flag
                            selected_files counts idx archive_path ;;
      extract_jobs archive_count extract_to mode overwrite_flag selected_files
                   (S idx) rest counts
  end.

(** [handle_auto_open]. *)
Definition handle_auto_open (prefs : preferences) (directory_path : string)
  : io W unit :=
  w <- get_world ;;
  if negb (path_exists os w directory_path) then ret tt
  else
    let open_it (report : bool) :=
      emit (Run ["open"; directory_path]) ;;;
      r <- os_step (fun w => run_process os w ["open"; directory_path]) ;;
      match r with
      | Exited code =>
          if negb (code =? 0)%Z && report
          then emit (PrintWarning "Could not auto-open folder")
          else ret tt
      | RunRaised msg => raise (OSError msg)
      end in
    if auto_open_after_extract prefs then open_it true
    else
      open_folder <- input "Open containing folder? (y/n): " ;;
      if one_of (lower (strip open_folder)) ["y"; "yes"]
      then open_it false else ret tt.

(** The paths typed at the first prompt of [extract_archive] that exist,
    in the form that exists. *)
Definition find_archives (raw : list string) : io W (list string) :=
  w <- get_world ;;
  for_list raw
    (fun archive_paths path_input =>
       let (original_path, unescaped_path) := clean_macos_path path_input in
       if path_exists os w original_path
       then ret (archive_paths ++ [original_path])
       else if path_exists os w unescaped_path
       then ret (archive_paths ++ [unescaped_path])
       else
         emit (PrintWarning ("Archive file not found (skipping): " ++ original_path)) ;;;
         ret archive_paths)
    [].

(** The batch of [extract_archive] once the user has confirmed: the loop
    and the summary. *)
Definition run_batch (archive_paths : list string) (extract_to : string)
           (mode : extraction_mode) (overwrite_flag : option string)
           (selected_files : list string) : io W batch_result :=
  let archive_count := List.length archive_paths in
  counts <- extract_jobs archive_count extract_to mode overwrite_flag
                         selected_files 1 archive_paths (0, []) ;;
  let (success_count, failed_archives) := counts : nat * list (string * string) in
  let result := summarize success_count archive_count failed_archives in
  (match result with
   | AllSucceeded => emit (PrintSuccess "All archive(s) extracted successfully!")
   | PartialSuccess _ _ => emit (PrintWarning "Some archive(s) extracted successfully")
   | AllFailed _ => emit (PrintError "All archives failed to extract")
   end) ;;;
  ret result.

(** [extract_archive]; [None] when the method returns before the batch
    runs. *)
Definition extract_archive (prefs : preferences) : io W (option batch_result) :=
  answer <- input "Archive path(s) (separate multiple with spaces or newlines): " ;;
  let archive_input := strip answer in
  if negb (truthy archive_input) then
    emit (PrintError "No archive path provided") ;;; ret None
  else
    let archive_paths_raw := split_ws (replace newline " " archive_input) in
    archive_paths <- find_archives archive_paths_raw ;;
    match archive_paths with
    | [] => emit (PrintError "No valid archive files found") ;;; ret None
    | first :: _ =>
        let archive_count := List.length archive_paths in
        mode <-
          (if 1 <? archive_count then
             mode_choice <- input "Choose option (1-2, default 1): " ;;
             ret (if String.eqb (strip mode_choice) "2" then Combined else Separate)
           else ret Separate) ;;
        selection <-
          (if archive_count =? 1 then
             choice <- input "Choose option (1-2, default 1): " ;;
             if String.eqb (strip choice) "2" then
               emit (Run [seven_zip_path; "l"; first]) ;;;
               r <- os_step (fun w => run_process os w [seven_zip_path; "l"; first]) ;;
               match r with
               | RunRaised msg => raise (OSError msg)
               | Exited _ =>
                   answer <- input "Files to extract: " ;;
                   let file_input := strip answer in
                   if String.eqb (lower file_input) "cancel" || negb (truthy file_input)
                   then ret None
                   else ret (Some (split_ws file_input))
               end
             else ret (Some [])
           else ret (Some [])) ;;
        match selection with
        | None => ret None
        | Some selected_files =>
            let default_extract := join (dirname first) "extracted" in
            answer <- input "Extract to: " ;;
            let extract_input := strip answer in
            let extract_to :=
              if negb (truthy extract_input) then default_extract
              else snd (clean_macos_path extract_input) in
            failure <- os_step (fun w => makedirs os w extract_to) ;;
            emit (MakeDirs extract_to) ;;;
            match failure with
            | Some e =>
                emit (PrintError ("Cannot create extraction directory: " ++ e)) ;;;
                ret None
            | None =>
                w <- get_world ;;
                occupied <-
                  (if path_exists os w extract_to then
                     match listdir os w extract_to with
                     | Some entries => ret (negb (List.length entries =? 0))
                     | None => raise (OSError "listdir")
                     end
                   else ret false) ;;
                policy <-
                  (if occupied : bool then
                     emit (PrintWarning "Destination folder already contains files") ;;;
                     answer <- input "Choose option (1-4, default 1): " ;;
                     match overwrite_flag_of_choice (strip answer) with
                     | None =>
                         emit (PrintInfo "Extraction cancelled") ;;; ret None
                     | Some flag => ret (Some (Some flag))
                     end
                   else ret (Some None)) ;;
                match policy with
                | None => ret None
                | Some overwrite_flag =>
                    confirm <- input "Extract archive(s)? (y/n): " ;;
                    if negb (String.eqb (lower confirm) "y") then ret None
                    else
                      result <- run_batch archive_paths extract_to mode
                                          overwrite_flag selected_files ;;
                      match result with
                      | AllFailed _ => ret (Some result)
                      | _ =>
                          w <- get_world ;;
                          reopen <-
                            (if path_exists os w extract_to then
                               match listdir os w extract_to with
                               | Some entries => ret (negb (List.length entries =? 0))
                               | None => raise (OSError "listdir")
                               end
                             else ret false) ;;
                          (if reopen : bool then handle_auto_open prefs extract_to
                           else ret tt) ;;;
                          ret (Some result)
                      end
                end
            end
        end
    end.

End ExtractionCoordinator.

(** ** PreferenceStore *)

Module PreferenceStore.

(** The values [json.load] builds.  A [PDict] lists its entries in insertion
    order.  Writing a value with [json.dump] and reading the text back with
    [json.load] gives the value again; the one exception, the keys of the
    dumped dictionary that are not strings, is modelled by [key_text]. *)
Inductive pyval : Type :=
| PNone
| PBool (b : bool)
| PInt (z : Z)
| PFloat (f : spec_float)
| PStr (s : string)
| PList (items : list pyval)
| PDict (entries : list (string * pyval)).

(** [self.preferences]: a dictionary in insertion order.  After
    [dict.update] with a list of pairs its keys need not be strings. *)
Definition pydict : Type := list (pyval * pyval).

(** The state of the file at [self.config_file]: missing; present but
    [open] or [read] raises [IOError]; not valid UTF-8; not valid JSON (an
    empty or truncated file is of this kind); or a JSON document. *)
Inductive config_file : Type :=
| Absent
| Unreadable
| BadEncoding
| Malformed
| Document (v : pyval).

(** The numeric value [m * 2^e] of a key that is a finite number. *)
Definition key_num (k : pyval) : option (Z * Z) :=
  match k with
  | PBool b => Some (if b then 1%Z else 0%Z, 0%Z)
  | PInt z => Some (z, 0%Z)
  | PFloat (S754_zero _) => Some (0%Z, 0%Z)
  | PFloat (S754_finite s m e) => Some (if s then Z.neg m else Z.pos m, e)
  | _ => None
  end.

Definition dyadic_eqb (a b : Z * Z) : bool :=
  let e := Z.min (snd a) (snd b) in
  (fst a * 2 ^ (snd a - e) =? fst b * 2 ^ (snd b - e))%Z.

(** Two keys denote the same dictionary slot: equal strings, or equal
    numbers ([1], [1.0] and [True] are one key). *)
Definition key_eqb (k1 k2 : pyval) : bool :=
  match k1, k2 with
  | PStr a, PStr b => String.eqb a b
  | PNone, PNone => true
  | PFloat (S754_infinity s1), PFloat (S754_infinity s2) => Bool.eqb s1 s2
  | PFloat S754_nan, PFloat S754_nan => true
  | _, _ =>
      match key_num k1, key_num k2 with
      | Some a, Some b => dyadic_eqb a b
      | _, _ => false
      end
  end.

Definition hashable (k : pyval) : bool :=
  match k with
  | PList _ | PDict _ => false
  | _ => true
  end.

(** [d[k] = v]: an existing slot keeps its key and its place. *)
Fixpoint dict_set (d : pydict) (k v : pyval) : pydict :=
  match d with
  | [] => [(k, v)]
  | (k', v') :: rest =>
      if key_eqb k' k then (k', v) :: rest else (k', v') :: dict_set rest k v
  end.

(** One element of the sequence given to [dict.update]: it must be iterable
    and of length 2, and its first component hashable. *)
Definition update_pair (item : pyval) : outcome (pyval * pyval) :=
  match item with
  | PList [k; v] => if hashable k then Ok (k, v) else Raise TypeError
  | PList _ => Raise ValueError
  | PStr (String c0 (String c1 EmptyString)) =>
      Ok (PStr (String c0 EmptyString), PStr (String c1 EmptyString))
  | PStr _ => Raise ValueError
  | PDict [(k0, _); (k1, _)] => Ok (PStr k0, PStr k1)
  | PDict _ => Raise ValueError
  | _ => Raise TypeError
  end.

Fixpoint update_from_pairs (d : pydict) (items : list pyval) : outcome pydict :=
  match items with
  | [] => Ok d
  | item :: rest =>
      match update_pair item with
      | Ok (k, v) => update_from_pairs (dict_set d k v) rest
      | Raise e => Raise e
      end
  end.

Definition update_from_entries (d : pydict) (entries : list (string * pyval))
  : pydict :=
  fold_left (fun d kv => dict_set d (PStr (fst kv)) (snd kv)) entries d.

(** [d.update(loaded_prefs)]. *)
Definition dict_update (d : pydict) (loaded_prefs : pyval) : outcome pydict :=
  match loaded_prefs with
  | PDict entries => Ok (update_from_entries d entries)
  | PList items => update_from_pairs d items
  | PStr EmptyString => Ok d
  | PStr _ => Raise ValueError
  | _ => Raise TypeError
  end.

Section Store.
Variable desktop : string.
Variable float_repr : spec_float -> string.

(** [default_preferences]; [desktop] is [os.path.expanduser("~/Desktop")]. *)
Definition default_preferences : pydict :=
  [ (PStr "compression_preset", PStr "balanced");
    (PStr "custom_compression_level", PInt 5);
    (PStr "default_output_directory", PStr desktop);
    (PStr "auto_open_after_extract", PBool false);
    (PStr "exclude_patterns", PList [PStr ".DS_Store"; PStr ".Thumbs.db"; PStr "Thumbs.db"]);
    (PStr "remember_last_directory", PBool true);
    (PStr "last_output_directory", PStr desktop) ].

Definition load_warning : event :=
  PrintWarning "Warning: Could not load preferences, using defaults".

(** [load_preferences]: only [json.JSONDecodeError] and [IOError] are
    caught. *)
Definition load_preferences (file : config_file) : outcome pydict * list event :=
  match file with
  | Absent => (Ok default_preferences, [])
  | Unreadable => (Ok default_preferences, [load_warning])
  | Malformed => (Ok default_preferences, [load_warning])
  | BadEncoding => (Raise ValueError, [])
  | Document loaded_prefs => (dict_update default_preferences loaded_prefs, [])
  end.

(** The key [json.dump] writes for a dictionary key. *)
Definition key_text (k : pyval) : string :=
  match k with
  | PStr s => s
  | PInt z => str_of_Z z
  | PBool true => "true"
  | PBool false => "false"
  | PNone => "null"
  | PFloat f => float_repr f
  | _ => EmptyString
  end.

Fixpoint entries_set (entries : list (string * pyval)) (k : string) (v : pyval)
  : list (string * pyval) :=
  match entries with
  | [] => [(k, v)]
  | (k', v') :: rest =>
      if String.eqb k' k then (k', v) :: rest else (k', v') :: entries_set rest k v
  end.

(** The document [json.load] reads from the text [json.dump] wrote for
    [prefs]. *)
Definition dumped (prefs : pydict) : pyval :=
  PDict (fold_left (fun entries kv => entries_set entries (key_text (fst kv)) (snd kv))
                   prefs []).

(** How the write of [save_preferences] ends. *)
Inductive write_outcome : Type :=
| WriteOk
| OpenFails
| WriteFails.

Definition save_warning : event :=
  PrintWarning "Warning: Could not save preferences".

(** [save_preferences]: [open(..., 'w')] truncates the file, [json.dump]
    writes the record into it; [IOError] is reported and ignored. *)
Definition save_preferences (o : write_outcome) (file : config_file)
           (prefs : pydict) : config_file * list event :=
  match o with
  | OpenFails => (file, [save_warning])
  | WriteFails => (Malformed, [save_warning])
  | WriteOk => (Document (dumped prefs), [])
  end.

(** The instants of a save at which the process can be interrupted. *)
Inductive save_point : Type :=
| BeforeOpen
| Opened
| Written.

(** The file as an interruption at that instant leaves it: untouched
    before [open]; truncated, holding at most a proper prefix of the text,
    between [open] and the end of the write; the new record afterwards. *)
Definition file_at (pt : save_point) (file : config_file) (prefs : pydict)
  : config_file :=
  match pt with
  | BeforeOpen => file
  | Opened => Malformed
  | Written => Document (dumped prefs)
  end.

(** The persisted states the preference record is meant to have: no file,
    a file that cannot be read or parsed, or a JSON object. *)
Definition key_value_document (file : config_file) : Prop :=
  match file with
  | Absent | Unreadable | Malformed => True
  | Document (PDict _) => True
  | _ => False
  end.

End Store.

(** A dictionary whose keys are the given strings. *)
Definition embed (l : list (string * pyval)) : pydict :=
  map (fun kv => (PStr (fst kv), snd kv)) l.

Definition set_entry (l : list (string * pyval)) (kv : string * pyval)
  : list (string * pyval) :=
  entries_set l (fst kv) (snd kv).

(** The keys and values of [default_preferences]. *)
Definition default_entries (desktop : string) : list (string * pyval) :=
  [ ("compression_preset", PStr "balanced");
    ("custom_compression_level", PInt 5);
    ("default_output_directory", PStr desktop);
    ("auto_open_after_extract", PBool false);
    ("exclude_patterns", PList [PStr ".DS_Store"; PStr ".Thumbs.db"; PStr "Thumbs.db"]);
    ("remember_last_directory", PBool true);
    ("last_output_directory", PStr desktop) ].

End PreferenceStore.

(** ** Start-up *)

(** The standard installation paths that [__init__] tries when the bundled
    binary is missing. *)
Definition external_paths : list string :=
  ["/usr/local/bin/7zz"; "/opt/homebrew/bin/7zz";
   "/usr/local/bin/7z"; "/opt/homebrew/bin/7z"].

(** [self.seven_zip_path] as [__init__] sets it; [bundled_path] is
    [os.path.join(os.path.dirname(__file__), "7zz")]. *)
Definition init_seven_zip_path (path_exists : string -> bool)
           (bundled_path : string) : string :=
  if path_exists bundled_path then bundled_path
  else
    match find path_exists external_paths with
    | Some path => path
    | None => "7zz"
    end.

Section Startup.
Context {W : Type} (os : os_ops W).

(** [check_7zip]. *)
Definition check_7zip (seven_zip_path : string) : io W bool :=
  w <- get_world ;;
  if negb (path_exists os w seven_zip_path) then
    emit (PrintError ("7-Zip not found at: " ++ seven_zip_path)) ;;;
    ret false
  else
    emit (Run [seven_zip_path]) ;;;
    r <- os_step (fun w => run_process os w [seven_zip_path]) ;;
    match r with
    | Exited _ => ret true
    | RunRaised e =>
        emit (PrintError ("7-Zip check failed: " ++ e)) ;;;
        ret false
    end.

End Startup.

(** ** ArchiveViewer *)

(** The command [view_archive] builds for the answer to its menu. *)
Definition view_cmd (seven_zip_path choice archive_path : string) : list string :=
  if String.eqb choice "3" then [seven_zip_path; "t"; archive_path]
  else if String.eqb choice "4" then [seven_zip_path; "i"; archive_path]
  else if String.eqb choice "2" then [seven_zip_path; "l"; "-slt"; archive_path]
  else [seven_zip_path; "l"; archive_path].

Section ArchiveViewer.
Context {W : Type} (os : os_ops W) (seven_zip_path : string).

(** [view_archive]; [subprocess.run(cmd)] is not guarded. *)
Definition view_archive : io W unit :=
  answer <- input "Archive path: " ;;
  let archive_input := strip answer in
  if negb (truthy archive_input) then emit (PrintError "No archive path provided")
  else
    let (original_path, unescaped_path) := clean_macos_path archive_input in
    w <- get_world ;;
    let archive_path :=
      if path_exists os w original_path then Some original_path
      else if path_exists os w unescaped_path then Some unescaped_path
      else None in
    match archive_path with
    | Some archive_path =>
        if negb (truthy archive_path) then
          emit (PrintError ("Archive file not found: " ++ original_path))
        else
          answer <- input "Choose option (1-4, default 1): " ;;
          let choice := strip answer in
          let cmd := view_cmd seven_zip_path choice archive_path in
          emit (Run cmd) ;;;
          r <- os_step (fun w => run_process os w cmd) ;;
          match r with
          | Exited _ => ret tt
          | RunRaised msg => raise (OSError msg)
          end
    | None => emit (PrintError ("Archive file not found: " ++ original_path))
    end.

End ArchiveViewer.

(** ** The technical listing read by [get_archive_contents] *)

(** The dictionary built for one entry of the listing; a key that was not
    set is [None]. *)
Record archive_entry : Type := {
  entry_path : option string;
  entry_size : option Z;
  entry_is_folder : option bool
}.

Definition no_entry : archive_entry :=
  {| entry_path := None; entry_size := None; entry_is_folder := None |}.

(** [current_file.get('path')] as a truth value. *)
Definition has_path (e : archive_entry) : bool :=
  match entry_path e with
  | Some p => truthy p
  | None => false
  end.

(** [s[n:]]. *)
Fixpoint drop (n : nat) (s : string) : string :=
  match n, s with
  | O, _ => s
  | S _, EmptyString => EmptyString
  | S n', String _ s' => drop n' s'
  end.

(** [s.split(sep)] for a separator of one character. *)
Fixpoint split_on (sep : ascii) (cur : string) (s : string) : list string :=
  match s with
  | EmptyString => [cur]
  | String c s' =>
      if Ascii.eqb c sep then cur :: split_on sep EmptyString s'
      else split_on sep (cur ++ String c EmptyString)%string s'
  end.

(** [str.isdigit] below code point 256: the decimal digits and the
    superscripts 2, 3 and 1, which [int] rejects. *)
Definition is_digit_char (c : ascii) : bool :=
  let n := nat_of_ascii c in
  ((48 <=? n) && (n <=? 57)) || (n =? 178) || (n =? 179) || (n =? 185).

Definition isdigit (s : string) : bool := truthy s && all_chars is_digit_char s.

(** One pass of the loop over the lines of the listing: the entries
    appended so far and [current_file]. *)
Definition listing_step (state : list archive_entry * archive_entry)
           (line : string) : outcome (list archive_entry * archive_entry) :=
  let (files, current_file) := state in
  let line := strip line in
  if startswith line "Path = " then
    let files := if has_path current_file then files ++ [current_file] else files in
    Ok (files, {| entry_path := Some (drop 7 line);
                  entry_size := None; entry_is_folder := None |})
  else if startswith line "Size = " then
    let text := drop 7 line in
    match (if isdigit text then parse_int text else Some 0%Z) with
    | Some size =>
        Ok (files, {| entry_path := entry_path current_file;
                      entry_size := Some size;
                      entry_is_folder := entry_is_folder current_file |})
    | None => Raise ValueError
    end
  else if startswith line "Folder = " then
    Ok (files, {| entry_path := entry_path current_file;
                  entry_size := entry_size current_file;
                  entry_is_folder := Some (String.eqb (drop 9 line) "+") |})
  else Ok state.

Fixpoint listing_loop (lines : list string)
         (state : list archive_entry * archive_entry)
  : outcome (list archive_entry * archive_entry) :=
  match lines with
  | [] => Ok state
  | line :: rest =>
      match listing_step state line with
      | Ok state' => listing_loop rest state'
      | Raise e => Raise e
      end
  end.

(** The list [get_archive_contents] returns for the standard output of a
    listing that exited with status 0; an exception makes the method
    answer [False]. *)
Definition archive_contents_of (stdout : string) : outcome (list archive_entry) :=
  match listing_loop (split_on (ascii_of_nat 10) EmptyString stdout) ([], no_entry) with
  | Ok (files, current_file) =>
      Ok (if has_path current_file then files ++ [current_file] else files)
  | Raise e => Raise e
  end.

(** ** The preference menus *)

Definition default_exclude_patterns : list string :=
  [".DS_Store"; ".Thumbs.db"; "Thumbs.db"].

(** [self.preferences[key] = value], key by key. *)
Definition set_compression_preset (prefs : preferences) (preset : string)
  : preferences :=
  {| compression_preset := preset;
     custom_compression_level := custom_compression_level prefs;
     default_output_directory := default_output_directory prefs;
     auto_open_after_extract := auto_open_after_extract prefs;
     exclude_patterns := exclude_patterns prefs;
     remember_last_directory := remember_last_directory prefs;
     last_output_directory := last_output_directory prefs |}.

Definition set_custom_compression_level (prefs : preferences) (level : Z)
  : preferences :=
  {| compression_preset := compression_preset prefs;
     custom_compression_level := level;
     default_output_directory := default_output_directory prefs;
     auto_open_after_extract := auto_open_after_extract prefs;
     exclude_patterns := exclude_patterns prefs;
     remember_last_directory := remember_last_directory prefs;
     last_output_directory := last_output_directory prefs |}.

Definition set_default_output_directory (prefs : preferences) (dir : string)
  : preferences :=
  {| compression_preset := compression_preset prefs;
     custom_compression_level := custom_compression_level prefs;
     default_output_directory := dir;
     auto_open_after_extract := auto_open_after_extract prefs;
     exclude_patterns := exclude_patterns prefs;
     remember_last_directory := remember_last_directory prefs;
     last_output_directory := last_output_directory prefs |}.

Definition set_auto_open_after_extract (prefs : preferences) (b : bool)
  : preferences :=
  {| compression_preset := compression_preset prefs;
     custom_compression_level := custom_compression_level prefs;
     default_output_directory := default_output_directory prefs;
     auto_open_after_extract := b;
     exclude_patterns := exclude_patterns prefs;
     remember_last_directory := remember_last_directory prefs;
     last_output_directory := last_output_directory prefs |}.

Definition set_exclude_patterns (prefs : preferences) (patterns : list string)
  : preferences :=
  {| compression_preset := compression_preset prefs;
     custom_compression_level := custom_compression_level prefs;
     default_output_directory := default_output_directory prefs;
     auto_open_after_extract := auto_open_after_extract prefs;
     exclude_patterns := patterns;
     remember_last_directory := remember_last_directory prefs;
     last_output_directory := last_output_directory prefs |}.

Definition set_remember_last_directory (prefs : preferences) (b : bool)
  : preferences :=
  {| compression_preset := compression_preset prefs;
     custom_compression_level := custom_compression_level prefs;
     default_output_directory := default_output_directory prefs;
     auto_open_after_extract := auto_open_after_extract prefs;
     exclude_patterns := exclude_patterns prefs;
     remember_last_directory := b;
     last_output_directory := last_output_directory prefs |}.

(** [del self.preferences["last_output_directory"]]. *)
Definition del_last_output_directory (prefs : preferences) : preferences :=
  {| compression_preset := compression_preset prefs;
     custom_compression_level := custom_compression_level prefs;
     default_output_directory := default_output_directory prefs;
     auto_open_after_extract := auto_open_after_extract prefs;
     exclude_patterns := exclude_patterns prefs;
     remember_last_directory := remember_last_directory prefs;
     last_output_directory := None |}.

(** [l.pop(idx)] for an index within the list: the list that is left. *)
Definition pop {A} (idx : nat) (l : list A) : list A :=
  firstn idx l ++ skipn (S idx) l.

(** The record [load_preferences] returns when there is no file. *)
Definition fresh_preferences (desktop : string) : preferences :=
  {| compression_preset := "balanced";
     custom_compression_level := 5;
     default_output_directory := desktop;
     auto_open_after_extract := false;
     exclude_patterns := default_exclude_patterns;
     remember_last_directory := true;
     last_output_directory := Some desktop |}.

Section PreferenceMenus.
Context {W : Type} (os : os_ops W).
(** [os.path.expanduser]; whether the preference file exists; and
    [os.remove] on it, with the message of the exception it raises. *)
Variable expanduser : string -> string.
Variable config_exists : W -> bool.
Variable remove_config : W -> option string * W.

(** [compression_preferences]; the result is the record as the method
    leaves it. *)
Definition compression_preferences (prefs : preferences) : io W preferences :=
  answer <- input "Choose (1-7): " ;;
  let choice := strip answer in
  let saved (prefs : preferences) : io W preferences :=
    save_preferences os prefs ;;;
    emit (PrintSuccess "Compression preference saved!") ;;;
    ret prefs in
  if String.eqb choice "1" then saved (set_compression_preset prefs "fast")
  else if String.eqb choice "2" then saved (set_compression_preset prefs "balanced")
  else if String.eqb choice "3" then saved (set_compression_preset prefs "maximum")
  else if String.eqb choice "4" then saved (set_compression_preset prefs "ask")
  else if String.eqb choice "5" then
    answer <- input "Enter compression level (0-9): " ;;
    let level := strip answer in
    match parse_int level with
    | Some level_int =>
        if (0 <=? level_int)%Z && (level_int <=? 9)%Z then
          saved (set_custom_compression_level
                   (set_compression_preset prefs "custom") level_int)
        else
          emit (PrintWarning "Please enter a number between 0 and 9") ;;;
          ret prefs
    | None =>
        emit (PrintWarning "Please enter a valid number") ;;;
        ret prefs
    end
  else if String.eqb choice "6" then
    let prefs := set_compression_preset prefs "ask" in
    emit (PrintSuccess "Compression preference cleared - will ask each time") ;;;
    save_preferences os prefs ;;;
    ret prefs
  else if String.eqb choice "7" then ret prefs
  else
    emit (PrintWarning "Invalid choice") ;;;
    ret prefs.

(** [directory_preferences]. *)
Definition directory_preferences (prefs : preferences) : io W preferences :=
  answer <- input "Choose (1-5): " ;;
  let choice := strip answer in
  if String.eqb choice "1" then
    answer <- input "Enter default directory path: " ;;
    let new_dir := strip answer in
    w <- get_world ;;
    if truthy new_dir && path_isdir os w (expanduser new_dir) then
      let prefs := set_default_output_directory prefs (expanduser new_dir) in
      save_preferences os prefs ;;;
      emit (PrintSuccess "Default directory updated!") ;;;
      ret prefs
    else
      emit (PrintWarning "Invalid directory path") ;;;
      ret prefs
  else if String.eqb choice "2" then
    let prefs :=
      set_remember_last_directory prefs (negb (remember_last_directory prefs)) in
    save_preferences os prefs ;;;
    emit (PrintSuccess (if remember_last_directory prefs
                        then "Remember last directory enabled!"
                        else "Remember last directory disabled!")) ;;;
    ret prefs
  else if String.eqb choice "3" then
    let prefs := set_default_output_directory prefs (expanduser "~/Desktop") in
    save_preferences os prefs ;;;
    emit (PrintSuccess "Default directory reset to ~/Desktop!") ;;;
    ret prefs
  else if String.eqb choice "4" then
    match last_output_directory prefs with
    | Some _ =>
        let prefs := del_last_output_directory prefs in
        save_preferences os prefs ;;;
        emit (PrintSuccess "Last directory memory cleared!") ;;;
        ret prefs
    | None =>
        emit (PrintInfo "No last directory to clear") ;;;
        ret prefs
    end
  else if String.eqb choice "5" then ret prefs
  else
    emit (PrintWarning "Invalid choice") ;;;
    ret prefs.

(** [auto_open_preferences]. *)
Definition auto_open_preferences (prefs : preferences) : io W preferences :=
  answer <- input "Choose (1-3): " ;;
  let choice := strip answer in
  if String.eqb choice "1" then
    let prefs := set_auto_open_after_extract prefs true in
    save_preferences os prefs ;;;
    emit (PrintSuccess "Auto-open enabled!") ;;;
    ret prefs
  else if String.eqb choice "2" then
    let prefs := set_auto_open_after_extract prefs false in
    save_preferences os prefs ;;;
    emit (PrintSuccess "Auto-open disabled!") ;;;
    ret prefs
  else if String.eqb choice "3" then ret prefs
  else
    emit (PrintWarning "Invalid choice") ;;;
    ret prefs.

(** [exclusion_preferences]. *)
Definition exclusion_preferences (prefs : preferences) : io W preferences :=
  answer <- input "Choose (1-4): " ;;
  let choice := strip answer in
  if String.eqb choice "1" then
    answer <- input "Enter pattern to exclude (e.g., *.tmp): " ;;
    let pattern := strip answer in
    if truthy pattern && negb (existsb (String.eqb pattern) (exclude_patterns prefs))
    then
      let prefs := set_exclude_patterns prefs (exclude_patterns prefs ++ [pattern]) in
      save_preferences os prefs ;;;
      emit (PrintSuccess ("Added exclusion: " ++ pattern)) ;;;
      ret prefs
    else
      emit (PrintWarning "Invalid or duplicate pattern") ;;;
      ret prefs
  else if String.eqb choice "2" then
    match exclude_patterns prefs with
    | _ :: _ =>
        answer <- input "Remove which pattern (number): " ;;
        match parse_int (strip answer) with
        | Some number =>
            let idx := (number - 1)%Z in
            if (0 <=? idx)%Z && (idx <? Z.of_nat (List.length (exclude_patterns prefs)))%Z
            then
              let removed := nth (Z.to_nat idx) (exclude_patterns prefs) EmptyString in
              let prefs :=
                set_exclude_patterns prefs (pop (Z.to_nat idx) (exclude_patterns prefs)) in
              save_preferences os prefs ;;;
              emit (PrintSuccess ("Removed exclusion: " ++ removed)) ;;;
              ret prefs
            else
              emit (PrintWarning "Invalid number") ;;;
              ret prefs
        | None =>
            emit (PrintWarning "Please enter a valid number") ;;;
            ret prefs
        end
    | [] =>
        emit (PrintInfo "No exclusion patterns to remove") ;;;
        ret prefs
    end
  else if String.eqb choice "3" then
    let prefs := set_exclude_patterns prefs default_exclude_patterns in
    save_preferences os prefs ;;;
    emit (PrintSuccess "Exclusions reset to defaults!") ;;;
    ret prefs
  else if String.eqb choice "4" then ret prefs
  else
    emit (PrintWarning "Invalid choice") ;;;
    ret prefs.

(** [clear_specific_setting]. *)
Definition clear_specific_setting (prefs : preferences) : io W preferences :=
  answer <- input "Choose (1-6): " ;;
  let choice := strip answer in
  if String.eqb choice "1" then
    let prefs := set_compression_preset prefs "ask" in
    save_preferences os prefs ;;;
    emit (PrintSuccess "Compression preference cleared - will ask each time") ;;;
    ret prefs
  else if String.eqb choice "2" then
    let prefs := set_default_output_directory prefs (expanduser "~/Desktop") in
    save_preferences os prefs ;;;
    emit (PrintSuccess "Default directory reset to ~/Desktop") ;;;
    ret prefs
  else if String.eqb choice "3" then
    match last_output_directory prefs with
    | Some _ =>
        let prefs := del_last_output_directory prefs in
        save_preferences os prefs ;;;
        emit (PrintSuccess "Last directory memory cleared") ;;;
        ret prefs
    | None =>
        emit (PrintInfo "No last directory to clear") ;;;
        ret prefs
    end
  else if String.eqb choice "4" then
    let prefs := set_auto_open_after_extract prefs false in
    save_preferences os prefs ;;;
    emit (PrintSuccess "Auto-open setting reset to disabled") ;;;
    ret prefs
  else if String.eqb choice "5" then
    let prefs := set_exclude_patterns prefs default_exclude_patterns in
    save_preferences os prefs ;;;
    emit (PrintSuccess "File exclusions reset to defaults") ;;;
    ret prefs
  else if String.eqb choice "6" then ret prefs
  else
    emit (PrintWarning "Invalid choice") ;;;
    ret prefs.

(** [reset_preferences] on the record: the file is removed, so that
    [load_preferences] returns the defaults, which are saved. *)
Definition reset_preferences : io W preferences :=
  w <- get_world ;;
  (if config_exists w then
     failure <- os_step remove_config ;;
     match failure with
     | Some msg => raise (OSError msg)
     | None => ret tt
     end
   else ret tt) ;;;
  let prefs := fresh_preferences (expanduser "~/Desktop") in
  save_preferences os prefs ;;;
  emit (PrintSuccess "SUCCESS: Preferences reset to defaults") ;;;
  ret prefs.

(** [user_preferences_menu] (without the interrupt from the keyboard,
    which ends the loop). *)
Definition user_preferences_menu (prefs : preferences) : io W preferences :=
  while_input "Choose option (1-7): "
    (fun (prefs : preferences) answer =>
       let choice := strip answer in
       if String.eqb choice "1" then
         prefs <- compression_preferences prefs ;; ret (Continue prefs)
       else if String.eqb choice "2" then
         prefs <- directory_preferences prefs ;; ret (Continue prefs)
       else if String.eqb choice "3" then
         prefs <- auto_open_preferences prefs ;; ret (Continue prefs)
       else if String.eqb choice "4" then
         prefs <- exclusion_preferences prefs ;; ret (Continue prefs)
       else if String.eqb choice "5" then
         prefs <- clear_specific_setting prefs ;; ret (Continue prefs)
       else if String.eqb choice "6" then
         prefs <- reset_preferences ;; ret (Continue prefs)
       else if String.eqb choice "7" then ret (Break prefs)
       else
         emit (PrintWarning "Invalid choice. Please enter 1-7.") ;;;
         ret (Continue prefs))
    prefs.

End PreferenceMenus.

(** ** The help and main menus *)

(** The heading of the topic a choice of [show_help] prints
    ([show_quick_start] and the like print fixed text under it); [None]
    for any other answer. *)
Definition help_topic (choice : string) : option string :=
  if String.eqb choice "1" then Some "QUICK START GUIDE"
  else if String.eqb choice "2" then Some "ARCHIVE FORMATS & COMPRESSION"
  else if String.eqb choice "3" then Some "FILE INPUT METHODS"
  else if String.eqb choice "4" then Some "USER PREFERENCES & SETTINGS"
  else if String.eqb choice "5" then Some "ADVANCED FEATURES"
  else if String.eqb choice "6" then Some "TROUBLESHOOTING"
  else if String.eqb choice "7" then Some "COMPLETE HELP REFERENCE"
  else None.

Section MainMenu.
Context {W : Type} (os : os_ops W) (seven_zip_path : string).
Variable expanduser : string -> string.
Variable config_exists : W -> bool.
Variable remove_config : W -> option string * W.

(** [show_help]: the method calls itself after every topic, which is the
    loop below. *)
Definition show_help : io W unit :=
  while_input "Choose topic (1-8): "
    (fun (_ : unit) answer =>
       let choice := strip answer in
       if String.eqb choice "8" then ret (Break tt)
       else
         (match help_topic choice with
          | Some topic => emit (PrintInfo topic)
          | None => emit (PrintWarning "Invalid choice. Please enter 1-8.")
          end) ;;;
         input "Press Enter to return to help menu..." ;;;
         ret (Continue tt))
    tt.

(** [main_menu]; the result is the preference record at exit.  An
    interrupt from the keyboard, which ends the loop, is not part of the
    model. *)
Definition main_menu (prefs : preferences) : io W preferences :=
  while_input "Choose option (1-6): "
    (fun (prefs : preferences) answer =>
       let choice := strip answer in
       if String.eqb choice "1" then
         prefs <- create_archive os seven_zip_path prefs ;;
         input "Press Enter to continue..." ;;;
         ret (Continue prefs)
       else if String.eqb choice "2" then
         extract_archive os seven_zip_path prefs ;;;
         input "Press Enter to continue..." ;;;
         ret (Continue prefs)
       else if String.eqb choice "3" then
         view_archive os seven_zip_path ;;;
         input "Press Enter to continue..." ;;;
         ret (Continue prefs)
       else if String.eqb choice "4" then
         prefs <- user_preferences_menu os expanduser config_exists remove_config prefs ;;
         ret (Continue prefs)
       else if String.eqb choice "5" then
         show_help ;;; ret (Continue prefs)
       else if String.eqb choice "6" then
         emit (PrintSuccess "Thank you for using 7-Zip CLI!") ;;;
         ret (Break prefs)
       else
         emit (PrintWarning "Invalid choice. Please enter 1-6.") ;;;
         ret (Continue prefs))
    prefs.

(** [run]: the exit status, 1 for [sys.exit(1)]. *)
Definition run (prefs : preferences) : io W Z :=
  ok <- check_7zip os seven_zip_path ;;
  if negb ok then ret 1%Z
  else main_menu prefs ;;; ret 0%Z.

End MainMenu.

(** ** PreferenceStore: lookup, deletion and reset *)

Module PreferenceOps.
Import PreferenceStore.

(** [d.get(k)]. *)
Fixpoint dict_get (d : pydict) (k : pyval) : option pyval :=
  match d with
  | [] => None
  | (k', v') :: rest => if key_eqb k' k then Some v' else dict_get rest k
  end.

(** [del d[k]] for a key that is present ([if k in d: del d[k]]). *)
Fixpoint dict_del (d : pydict) (k : pyval) : pydict :=
  match d with
  | [] => []
  | (k', v') :: rest => if key_eqb k' k then rest else (k', v') :: dict_del rest k
  end.

(** The value a JSON object holds for a key: the last member with that
    name. *)
Definition entries_get (entries : list (string * pyval)) (k : string)
  : option pyval :=
  fold_left (fun found kv => if String.eqb (fst kv) k then Some (snd kv) else found)
            entries None.

(** [os.path.exists(self.config_file)]. *)
Definition file_exists (file : config_file) : bool :=
  match file with
  | Absent => false
  | _ => true
  end.

Definition reset_message : event :=
  PrintSuccess "SUCCESS: Preferences reset to defaults".

Section Reset.
Variable desktop : string.
Variable float_repr : spec_float -> string.

(** [reset_preferences]: the record and the file it leaves.  [remove_fails]
    tells whether [os.remove] raises, which nothing catches. *)
Definition reset_preferences (remove_fails : bool) (o : write_outcome)
           (file : config_file) : outcome (pydict * config_file) * list event :=
  if file_exists file && remove_fails then (Raise (OSError "remove"), [])
  else
    let file := Absent in
    match load_preferences desktop file with
    | (Ok prefs, log) =>
        let (file, log') := save_preferences float_repr o file prefs in
        (Ok (prefs, file), log ++ log' ++ [reset_message])
    | (Raise e, log) => (Raise e, log)
    end.

(** The branch "Clear last directory memory" of [directory_preferences]
    and of [clear_specific_setting], on the dictionary and the file. *)
Definition clear_last_directory (o : write_outcome) (file : config_file)
           (prefs : pydict) : pydict * config_file * list event :=
  match dict_get prefs (PStr "last_output_directory") with
  | Some _ =>
      let prefs := dict_del prefs (PStr "last_output_directory") in
      let (file, log) := save_preferences float_repr o file prefs in
      (prefs, file, log ++ [PrintSuccess "Last directory memory cleared"])
  | None => (prefs, file, [PrintInfo "No last directory to clear"])
  end.

End Reset.

End PreferenceOps.

(** ** Specification-level notions used by the theorems *)

(** [path] lies under the directory [dir]. *)
Definition under (dir path : string) : Prop :=
  path = dir \/ startswith path (dir ++ "/") = true.

(** The decision the loop of [validate_files_for_archiving] takes for one
    candidate: the absolute path it appends, if any. *)
Definition accepted_path {W : Type} (os : os_ops W) (w : W) (file_path : string)
  : option string :=
  if truthy file_path && truthy (strip file_path) then
    let (original_path, unescaped_path) := clean_macos_path file_path in
    let abs_path :=
      if path_exists os w original_path then Some (path_abspath os w original_path)
      else if path_exists os w unescaped_path
           then Some (path_abspath os w unescaped_path)
           else None in
    match abs_path with
    | Some a => if denied_prefix a then None else Some a
    | None => None
    end
  else None.

Definition list_of_option {A} (o : option A) : list A :=
  match o with
  | Some a => [a]
  | None => []
  end.


(** How one job of an extraction batch ends. *)
Inductive job_outcome : Type :=
| MkdirFailed (e : string)
| JobExited (returncode : Z)
| JobRaised (e : string).

Definition job_ok (o : job_outcome) : bool :=
  match o with
  | JobExited code => (code =? 0)%Z
  | _ => false
  end.

Definition job_reason (o : job_outcome) : string :=
  match o with
  | MkdirFailed e => e
  | JobExited code => ("error code " ++ str_of_Z code)%string
  | JobRaised e => e
  end.

(** The entries of [failed_archives] for a list of jobs with outcomes. *)
Definition failures (jobs : list (string * job_outcome)) : list (string * string) :=
  map (fun j => (basename (fst j), job_reason (snd j)))
      (filter (fun j => negb (job_ok (snd j))) jobs).

Definition successes (jobs : list (string * job_outcome)) : list string :=
  map fst (filter (fun j => job_ok (snd j)) jobs).

Definition job_dest (archive_count : nat) (extract_to : string)
           (mode : extraction_mode) (archive_path : string) : string :=
  match mode with
  | Separate =>
      if 1 <? archive_count
      then join extract_to (fst (splitext (basename archive_path)))
      else extract_to
  | Combined => extract_to
  end.

(** The outcome of one job, obtained by asking the operating system for
    the result of the directory creation and of the archiver run. *)
Definition job_outcome_of {W : Type} (os : os_ops W) (seven_zip_path : string)
           (archive_count : nat) (extract_to : string) (mode : extraction_mode)
           (overwrite_flag : option string) (selected_files : list string)
           (w : W) (archive_path : string) : job_outcome * W :=
  let current_dest := job_dest archive_count extract_to mode archive_path in
  let makes_dir :=
    match mode with
    | Separate => 1 <? archive_count
    | Combined => false
    end in
  let (failure, w1) :=
    if makes_dir then makedirs os w current_dest else (None, w) in
  match failure with
  | Some e => (MkdirFailed e, w1)
  | None =>
      match run_process os w1
              (extract_cmd seven_zip_path archive_path current_dest
                           overwrite_flag selected_files archive_count) with
      | (Exited code, w2) => (JobExited code, w2)
      | (RunRaised e, w2) => (JobRaised e, w2)
      end
  end.

(** The outcomes of the jobs of a batch, in the order of the input. *)
Fixpoint job_outcomes {W : Type} (os : os_ops W) (seven_zip_path : string)
         (archive_count : nat) (extract_to : string) (mode : extraction_mode)
         (overwrite_flag : option string) (selected_files : list string)
         (w : W) (archive_paths : list string) : list (string * job_outcome) * W :=
  match archive_paths with
  | [] => ([], w)
  | archive_path :: rest =>
      let (o, w2) :=
        job_outcome_of os seven_zip_path archive_count extract_to mode
                       overwrite_flag selected_files w archive_path in
      let (jobs, w3) :=
        job_outcomes os seven_zip_path archive_count extract_to mode
                     overwrite_flag selected_files w2 rest in
      ((archive_path, o) :: jobs, w3)
  end.

(** The archiver commands in a log, in the order they were launched. *)
Fixpoint commands (log : list event) : list (list string) :=
  match log with
  | [] => []
  | Run cmd :: rest => cmd :: commands rest
  | _ :: rest => commands rest
  end.

(** Two preference records that differ at most in [exclude_patterns]. *)
Definition same_except_exclude_patterns (p q : preferences) : Prop :=
  compression_preset p = compression_preset q
  /\ custom_compression_level p = custom_compression_level q
  /\ default_output_directory p = default_output_directory q
  /\ auto_open_after_extract p = auto_open_after_extract q
  /\ remember_last_directory p = remember_last_directory q
  /\ last_output_directory p = last_output_directory q.

(** The list [warnings] of [check_system_resources_before_operation] when
    it reaches [if warnings:]. *)
Definition resource_warnings {W : Type} (os : os_ops W) (w : W)
           (compression_level : Z) : list resource_warning :=
  memory_warnings (vm_stat os w) compression_level ++ cpu_warnings (loadavg os w).

Definition high_level_prompt : string := "Continue anyway? (y/n, default: n): ".

(** What one job of a batch shows and launches, given its outcome. *)
Definition job_events (seven_zip_path : string) (archive_count : nat)
           (extract_to : string) (mode : extraction_mode)
           (overwrite_flag : option string) (selected_files : list string)
           (job : string * job_outcome) : list event :=
  let (archive_path, o) := job in
  let archive_name := basename archive_path in
  let current_dest := job_dest archive_count extract_to mode archive_path in
  let cmd := extract_cmd seven_zip_path archive_path current_dest
                         overwrite_flag selected_files archive_count in
  (match mode with
   | Separate => if 1 <? archive_count then [MakeDirs current_dest] else []
   | Combined => []
   end)
  ++ match o with
     | MkdirFailed e =>
         [PrintError ("Cannot create directory for " ++ archive_name ++ ": " ++ e)]
     | JobExited code =>
         [Run cmd;
          if (code =? 0)%Z then PrintSuccess ("Extracted: " ++ archive_name)
          else PrintError ("Extraction failed for " ++ archive_name
                           ++ " (error code: " ++ str_of_Z code ++ ")")]
     | JobRaised e =>
         [Run cmd; PrintError ("Extraction failed for " ++ archive_name ++ ": " ++ e)]
     end.

(** The line that closes a batch. *)
Definition summary_event (result : batch_result) : event :=
  match result with
  | AllSucceeded => PrintSuccess "All archive(s) extracted successfully!"
  | PartialSuccess _ _ => PrintWarning "Some archive(s) extracted successfully"
  | AllFailed _ => PrintError "All archives failed to extract"
  end.

(** The archiver command of a job, unless its directory could not be
    made. *)
Definition job_commands (seven_zip_path : string) (archive_count : nat)
           (extract_to : string) (mode : extraction_mode)
           (overwrite_flag : option string) (selected_files : list string)
           (job : string * job_outcome) : list (list string) :=
  match snd job with
  | MkdirFailed _ => []
  | _ =>
      [extract_cmd seven_zip_path (fst job)
                   (job_dest archive_count extract_to mode (fst job))
                   overwrite_flag selected_files archive_count]
  end.

(** A computation never exhausts the recursion bound of a loop and never
    puts lines back into the input. *)
Definition sound {W A : Type} (m : io W A) : Prop :=
  forall st : io_state W,
    fst (fst (m st)) <> Raise OutOfFuel
    /\ List.length (stdin (snd (m st))) <= List.length (stdin st).

(** Two events that are equal, or that save preference records differing
    at most in [exclude_patterns]. *)
Definition event_sim (e1 e2 : event) : Prop :=
  e1 = e2
  \/ exists p q, e1 = SavePreferences p /\ e2 = SavePreferences q
                 /\ same_except_exclude_patterns p q.

(** Two runs that end in the same state with the same result up to [R],
    having shown and done the same up to [event_sim]. *)
Definition run_sim {W A B : Type} (R : A -> B -> Prop)
           (r1 : outcome A * list event * io_state W)
           (r2 : outcome B * list event * io_state W) : Prop :=
  snd r1 = snd r2
  /\ Forall2 event_sim (snd (fst r1)) (snd (fst r2))
  /\ match fst (fst r1), fst (fst r2) with
     | Ok a, Ok b => R a b
     | Raise e1, Raise e2 => e1 = e2
     | _, _ => False
     end.

Definition io_sim {W A B : Type} (R : A -> B -> Prop)
           (m1 : io W A) (m2 : io W B) : Prop :=
  forall st : io_state W, run_sim R (m1 st) (m2 st).






(** Every run of [m] from a world in [K] ends in a world in [K], and a
    result it returns satisfies [Q] together with the log. *)
Definition yields {W A} (K : W -> Prop) (Q : A -> list event -> Prop)
           (m : io W A) : Prop :=
  forall st, K (world st) ->
    K (world (snd (m st)))
    /\ match fst (fst (m st)) with
       | Ok a => Q a (snd (fst (m st)))
       | Raise _ => True
       end.

(** Every event [m] writes to the log satisfies [P], however [m] ends. *)
Definition emits {W A} (P : event -> Prop) (m : io W A) : Prop :=
  forall st, Forall P (snd (fst (m st))).

Definition any_world {W} : W -> Prop := fun _ => True.

(** [Q] survives events added before and after the log. *)
Definition grows {A} (Q : A -> list event -> Prop) : Prop :=
  forall a l before after, Q a l -> Q a (before ++ l ++ after).

Definition no_backslash (s : string) : bool :=
  all_chars (fun c => negb (Ascii.eqb c "\")) s.

(** The records differ at most in [last_output_directory]. *)
Definition same_except_last_output_directory (p q : preferences) : Prop :=
  compression_preset p = compression_preset q
  /\ custom_compression_level p = custom_compression_level q
  /\ default_output_directory p = default_output_directory q
  /\ auto_open_after_extract p = auto_open_after_extract q
  /\ exclude_patterns p = exclude_patterns q
  /\ remember_last_directory p = remember_last_directory q.

(** The stored custom level is one the menus accept. *)
Definition level_in_range (prefs : preferences) : Prop :=
  (0 <= custom_compression_level prefs <= 9)%Z.

(** The event is not the launch of a process. *)
Definition not_a_launch (ev : event) : Prop :=
  match ev with
  | Run _ => False
  | _ => True
  end.


(** The save of a record, or the report that the save failed. *)
Definition save_attempt (prefs : preferences) (ev : event) : Prop :=
  ev = SavePreferences prefs \/ ev = PrintWarning "Could not save preferences".

Definition level9_prompt : string :=
  "Continue with Level 9 anyway? (y/n, default: n): ".

(** A compression level the menus hand out: within 0..9, and 9 only with
    the confirmation prompt in the log. *)
Definition level_answer (level : Z) (l : list event) : Prop :=
  (0 <= level <= 9)%Z /\ (level = 9%Z -> In (Prompt level9_prompt) l).

(** A record the menus can have produced: a custom level within 0..9 and
    exclusion patterns that are neither repeated nor empty. *)
Definition well_formed (prefs : preferences) : Prop :=
  level_in_range prefs
  /\ NoDup (exclude_patterns prefs)
  /\ ~ In EmptyString (exclude_patterns prefs).

(** The event is not the launch of an extraction. *)
Definition not_an_extraction (ev : event) : Prop :=
  match ev with
  | Run cmd => nth 1 cmd EmptyString <> "x"
  | _ => True
  end.

(** The event launches nothing but a listing by the 7-Zip binary. *)
Definition only_listings (seven_zip_path : string) (ev : event) : Prop :=
  match ev with
  | Run cmd => exists archive, cmd = [seven_zip_path; "l"; archive]
  | _ => True
  end.

(** The paths a technical listing names: the text after [Path = ] on the
    lines that start with it once stripped, the empty ones left out. *)
Definition listed_paths (stdout : string) : list string :=
  filter truthy
         (map (drop 7)
              (filter (fun line => startswith line "Path = ")
                      (map strip (split_on (ascii_of_nat 10) EmptyString stdout)))).

(** What [extract_archive] may launch: the listing of an archive, [open]
    on a folder, or the extraction of an archive that exists in the file
    system [w0]. *)
Definition extraction_launch {W : Type} (os : os_ops W) (seven_zip_path : string)
           (w0 : W) (ev : event) : Prop :=
  match ev with
  | Run cmd =>
      (exists archive, cmd = [seven_zip_path; "l"; archive])
      \/ (exists dir, cmd = ["open"; dir])
      \/ (exists archive dest flag selected n,
             path_exists os w0 archive = true
             /\ cmd = extract_cmd seven_zip_path archive dest flag selected n)
  | _ => True
  end.

(** ** A scripted operating system for the examples *)

Module Sim.

(** Regular files with their sizes, directories, and the exit statuses the
    next launched processes return (0 once the script is exhausted). *)
Record sim : Type := {
  sim_files : list (string * Z);
  sim_dirs : list string;
  sim_exits : list Z;
  sim_vm : vm_probe;
  sim_cpu : cpu_probe;
  sim_free : Z
}.

Definition has_file (w : sim) (p : string) : bool :=
  existsb (fun f => String.eqb (fst f) p) (sim_files w).
Definition has_dir (w : sim) (p : string) : bool :=
  existsb (String.eqb p) (sim_dirs w).

Definition size_of (w : sim) (p : string) : option Z :=
  match find (fun f => String.eqb (fst f) p) (sim_files w) with
  | Some f => Some (snd f)
  | None => if has_dir w p then Some 96%Z else None
  end.

Definition add_dir (w : sim) (d : string) : sim :=
  {| sim_files := sim_files w; sim_dirs := d :: sim_dirs w;
     sim_exits := sim_exits w; sim_vm := sim_vm w; sim_cpu := sim_cpu w;
     sim_free := sim_free w |}.

Definition next_exit (w : sim) : run_result * sim :=
  match sim_exits w with
  | [] => (Exited 0, w)
  | code :: rest =>
      (Exited code,
       {| sim_files := sim_files w; sim_dirs := sim_dirs w;
          sim_exits := rest; sim_vm := sim_vm w; sim_cpu := sim_cpu w;
          sim_free := sim_free w |})
  end.

(** All paths of the examples are absolute and normalised, so
    [os.path.abspath] leaves them as they are. *)
Definition ops : os_ops sim := {|
  path_exists := fun w p => has_file w p || has_dir w p;
  path_isdir := has_dir;
  path_isfile := has_file;
  path_abspath := fun _ p => p;
  path_getsize := size_of;
  walk_files := fun _ _ => [];
  listdir := fun w p =>
    if has_dir w p
    then Some (map fst (filter (fun f => String.eqb (dirname (fst f)) p) (sim_files w)))
    else None;
  getcwd := fun _ => "/";
  disk_free := fun w _ => Some (sim_free w);
  read_lines := fun _ _ => None;
  vm_stat := sim_vm;
  loadavg := sim_cpu;
  today := fun _ => "2024-05-17";
  shlex_split := fun s => Some (split_ws s);
  makedirs := fun w d => (None, add_dir w d);
  run_process := fun w _ => next_exit w;
  write_config := fun w => (true, w)
|}.

(** 64 GiB of reclaimable memory, an idle processor, 1 TiB of free disk. *)
Definition idle (files : list (string * Z)) (dirs : list string) (exits : list Z)
  : sim :=
  {| sim_files := files; sim_dirs := dirs; sim_exits := exits;
     sim_vm := VmStats 16384 4194304 0 0;
     sim_cpu := CpuLoad 0 (Some 8%Z);
     sim_free := (2 ^ 40)%Z |}.

Definition start (lines : list string) (w : sim) : io_state sim :=
  {| stdin := lines; world := w |}.

Definition prefs0 : preferences :=
  {| compression_preset := "balanced";
     custom_compression_level := 5;
     default_output_directory := "/Users/u/Desktop";
     auto_open_after_extract := false;
     exclude_patterns := [".DS_Store"; ".Thumbs.db"; "Thumbs.db"];
     remember_last_directory := true;
     last_output_directory := Some "/Users/u/Desktop" |}.

(** The same record with other exclusion patterns. *)
Definition prefs1 : preferences :=
  {| compression_preset := "balanced";
     custom_compression_level := 5;
     default_output_directory := "/Users/u/Desktop";
     auto_open_after_extract := false;
     exclude_patterns := ["*.log"; "-psecret"];
     remember_last_directory := true;
     last_output_directory := Some "/Users/u/Desktop" |}.

(** One source file, an existing directory [/tmp], and the answers of a user
    who adds no further file, names the destination and confirms. *)
Definition one_file : sim := idle [("/data/a.bin", 5%Z)] ["/tmp"] [].

Definition to_tar : io_state sim :=
  start ["/data/a.bin"; "n"; "/tmp/x.tar"; "y"] one_file.

Definition to_dot_tar : io_state sim :=
  start ["/data/a.bin"; "n"; "/tmp/.tar"; "y"; "secret"; "secret"; "y"] one_file.

End Sim.

(* ===================================================================== *)
(** * Part II.  Theorems *)
(* ===================================================================== *)

(** ** Strings *)

Example splitext_of_a_dot_file : splitext "/tmp/.tar" = ("/tmp/.tar", "").
Proof. reflexivity. Qed.

Example splitext_of_a_tar_file : splitext "/tmp/a.b/x.tar" = ("/tmp/a.b/x", ".tar").
Proof. reflexivity. Qed.

Example splitext_ignores_directory_dots : splitext "/tmp.d/x" = ("/tmp.d/x", "").
Proof. reflexivity. Qed.

Example dirname_of_a_root_entry : dirname "/x" = "/".
Proof. reflexivity. Qed.

Example clean_macos_path_unescapes :
  clean_macos_path " '/a/My\ File\(1\).txt' " = ("/a/My\ File\(1\).txt", "/a/My File(1).txt").
Proof. reflexivity. Qed.

Example parse_int_accepts_python_literals :
  map parse_int [" 7 "; "-3"; "1_0"; "1__0"; "x"; ""] =
  [Some 7%Z; Some (-3)%Z; Some 10%Z; None; None; None].
Proof. reflexivity. Qed.

Lemma prefix_refl (s : string) : prefix s s = true.
Proof.
  induction s as [|c s IH]; simpl; [reflexivity|].
  destruct (ascii_dec c c) as [_|Hne]; [exact IH | contradiction].
Qed.

Lemma prefix_app_l (a b s : string) :
  prefix (a ++ b) s = true -> prefix a s = true.
Proof.
  revert s. induction a as [|c a IH]; intros s H.
  - destruct s; reflexivity.
  - destruct s as [|d s]; simpl in *; [discriminate|].
    destruct (ascii_dec c d); [eauto | discriminate].
Qed.

Lemma under_startswith (dir path : string) :
  under dir path -> startswith path dir = true.
Proof.
  unfold under, startswith. intros [-> | H].
  - apply prefix_refl.
  - eapply prefix_app_l; exact H.
Qed.

(** ** The monad *)

Section IOFacts.
Context {W : Type}.

Lemma bind_ok {A B} (m : io W A) (f : A -> io W B)
      (st st' : io_state W) (b : B) (log : list event) :
  bind m f st = (Ok b, log, st') ->
  exists a l1 s1 l2,
    m st = (Ok a, l1, s1) /\ f a s1 = (Ok b, l2, st') /\ log = l1 ++ l2.
Proof.
  unfold bind. destruct (m st) as [[[a|e] l1] s1]; [|discriminate].
  destruct (f a s1) as [[r l2] s2] eqn:Hf.
  intros [= -> <- ->]. exists a, l1, s1, l2. auto.
Qed.








Lemma sound_ret {A} (a : A) : sound (W := W) (ret a).
Proof. intros st. cbn. split; [discriminate | lia]. Qed.

Lemma sound_raise {A} (e : exn) : e <> OutOfFuel -> sound (W := W) (raise (A := A) e).
Proof. intros He st. cbn. split; [congruence | lia]. Qed.

Lemma sound_emit (ev : event) : sound (W := W) (emit ev).
Proof. intros st. cbn. split; [discriminate | lia]. Qed.

Lemma sound_get_world : sound (W := W) get_world.
Proof. intros st. cbn. split; [discriminate | lia]. Qed.

Lemma sound_input (prompt : string) : sound (W := W) (input prompt).
Proof.
  intros st. unfold input. destruct (stdin st) eqn:E; cbn; rewrite ?E; cbn;
    split; try discriminate; lia.
Qed.

Lemma sound_os_step {A} (f : W -> A * W) : sound (os_step f).
Proof.
  intros st. unfold os_step. destruct (f (world st)). cbn.
  split; [discriminate | lia].
Qed.

Lemma sound_lift {A} (r : outcome A) : r <> Raise OutOfFuel -> sound (W := W) (lift r).
Proof. intros Hr st. cbn. split; [exact Hr | lia]. Qed.

Lemma sound_bind {A B} (m : io W A) (f : A -> io W B) :
  sound m -> (forall a, sound (f a)) -> sound (bind m f).
Proof.
  intros Hm Hf st. specialize (Hm st). unfold bind.
  destruct (m st) as [[[a|e] l] s]; cbn [fst snd] in *.
  - specialize (Hf a s). destruct (f a s) as [[r l'] s']. cbn [fst snd] in *.
    split; [tauto | lia].
  - destruct Hm as [Hne Hlen].
    split; [intros [= ->]; apply Hne; reflexivity | exact Hlen].
Qed.

Lemma sound_try_except {A} (m : io W A) (handler : exn -> io W A) :
  sound m -> (forall e, sound (handler e)) -> sound (try_except m handler).
Proof.
  intros Hm Hh st. specialize (Hm st). unfold try_except.
  destruct (m st) as [[[a|e] l] s]; cbn [fst snd] in *; [exact Hm|].
  assert (Hgen : fst (fst (let '(r, log', st'') := handler e s in (r, l ++ log', st'')))
                 <> Raise OutOfFuel
                 /\ List.length
                      (stdin (snd (let '(r, log', st'') := handler e s in
                                   (r, l ++ log', st''))))
                    <= List.length (stdin st)).
  { specialize (Hh e s). destruct (handler e s) as [[r l'] s']. cbn [fst snd] in *.
    split; [tauto | lia]. }
  destruct e; try exact Hgen. exfalso. apply (proj1 Hm). reflexivity.
Qed.

Lemma sound_for_list {A S} (l : list A) (body : S -> A -> io W S) (s : S) :
  (forall s x, sound (body s x)) -> sound (for_list l body s).
Proof.
  intros Hb. revert s. induction l as [|x l IH]; intros s; cbn [for_list].
  - apply sound_ret.
  - apply sound_bind; [apply Hb | intros s'; apply IH].
Qed.

Lemma sound_while_fuel {S A} (prompt : string)
      (body : S -> string -> io W (ctl S A)) :
  (forall s line, sound (body s line)) ->
  forall (fuel : nat) (s : S) (st : io_state W),
    List.length (stdin st) <= fuel ->
    fst (fst (while_fuel fuel prompt body s st)) <> Raise OutOfFuel
    /\ List.length (stdin (snd (while_fuel fuel prompt body s st)))
       <= List.length (stdin st).
Proof.
  intros Hb. induction fuel as [|fuel IH]; intros s [ins w] Hlen;
    cbn [while_fuel]; unfold bind, input; cbv [stdin world] in Hlen |- *.
  - destruct ins as [|line rest]; [|cbn [List.length] in Hlen; lia].
    cbn. split; [discriminate | lia].
  - destruct ins as [|line rest]; [cbn; split; [discriminate | lia]|].
    cbn [List.length] in Hlen.
    pose proof (Hb s line {| stdin := rest; world := w |}) as Hbody.
    destruct (body s line {| stdin := rest; world := w |}) as [[[c|e] l] st1];
      cbn [fst snd] in Hbody.
    + destruct c as [s'|a].
      * assert (Hlen1 : List.length (stdin st1) <= fuel)
          by (cbv [stdin] in Hbody |- *; lia).
        specialize (IH s' st1 Hlen1).
        destruct (while_fuel fuel prompt body s' st1) as [[r l'] st2].
        cbn [fst snd List.length] in *. cbv [stdin] in *.
        split; [tauto | lia].
      * cbn [fst snd List.length ret]. cbv [stdin] in *.
        split; [discriminate | lia].
    + cbn [fst snd List.length]. cbv [stdin] in *.
      destruct Hbody as [Hne Hl].
      split; [intros [= ->]; apply Hne; reflexivity | lia].
Qed.

Lemma sound_while_input {S A} (prompt : string)
      (body : S -> string -> io W (ctl S A)) (s : S) :
  (forall s line, sound (body s line)) -> sound (while_input prompt body s).
Proof.
  intros Hb st. unfold while_input. apply sound_while_fuel; [exact Hb | lia].
Qed.

End IOFacts.

Create HintDb sound.
#[export] Hint Resolve sound_ret sound_emit sound_get_world sound_input
  sound_os_step : sound.

Ltac sound_step :=
  first
    [ solve [auto with sound]
    | apply sound_raise; discriminate
    | apply sound_bind; [|intros ?]
    | apply sound_while_input; intros ? ?
    | apply sound_for_list; intros ? ?
    | apply sound_try_except; [|intros ?]
    | match goal with
      | |- sound (if ?c then _ else _) => destruct c
      | |- sound (match ?x with _ => _ end) => destruct x
      end ].

Ltac sound_auto := repeat sound_step.

(** ** PathResolver *)

Section PathResolverFacts.
Context {W : Type} (os : os_ops W).

Lemma validate_files_loop_flat_map (w : W) (file_paths acc : list string) :
  validate_files_loop os w file_paths acc
  = acc ++ flat_map (fun c => list_of_option (accepted_path os w c)) file_paths.
Proof.
  revert acc. induction file_paths as [|c rest IH]; intros acc.
  - cbn [validate_files_loop flat_map]. now rewrite app_nil_r.
  - cbn [validate_files_loop flat_map]. unfold accepted_path.
    destruct (truthy c); cbn [negb orb andb list_of_option app]; [|apply IH].
    destruct (truthy (strip c)); cbn [negb orb andb list_of_option app]; [|apply IH].
    destruct (clean_macos_path c) as [original_path unescaped_path].
    destruct (path_exists os w original_path).
    + destruct (denied_prefix (path_abspath os w original_path));
        cbn [list_of_option app].
      * apply IH.
      * rewrite IH, <- app_assoc. reflexivity.
    + destruct (path_exists os w unescaped_path).
      * destruct (denied_prefix (path_abspath os w unescaped_path));
          cbn [list_of_option app].
        -- apply IH.
        -- rewrite IH, <- app_assoc. reflexivity.
      * apply IH.
Qed.

Lemma accepted_path_not_denied (w : W) (c p : string) :
  accepted_path os w c = Some p -> denied_prefix p = false.
Proof.
  unfold accepted_path.
  destruct (truthy c && truthy (strip c)); [|discriminate].
  destruct (clean_macos_path c) as [o u].
  destruct (path_exists os w o).
  - destruct (denied_prefix (path_abspath os w o)) eqn:E; [discriminate|].
    intros [= <-]. exact E.
  - destruct (path_exists os w u); [|discriminate].
    destruct (denied_prefix (path_abspath os w u)) eqn:E; [discriminate|].
    intros [= <-]. exact E.
Qed.

Lemma validated_from_accepted (w : W) (file_paths : list string) (p : string) :
  In p (validate_files_for_archiving os w file_paths) ->
  exists c, In c file_paths /\ accepted_path os w c = Some p.
Proof.
  unfold validate_files_for_archiving.
  rewrite validate_files_loop_flat_map. simpl.
  rewrite in_flat_map. intros [c [Hc Hp]]. exists c. split; [exact Hc|].
  destruct (accepted_path os w c) as [a|]; simpl in Hp.
  - destruct Hp as [->|[]]. reflexivity.
  - destruct Hp.
Qed.

(** C6.  Whatever candidates are given, no path of the validated file set
    starts with [/System], [/usr/bin] or [/private]; in particular none lies
    under one of these directories. *)
Theorem validated_files_avoid_denied_prefixes
        (w : W) (file_paths : list string) (p : string) :
  In p (validate_files_for_archiving os w file_paths) ->
  (startswith p "/System" = false /\ startswith p "/usr/bin" = false
   /\ startswith p "/private" = false)
  /\ ~ under "/System" p /\ ~ under "/usr/bin" p /\ ~ under "/private" p.
Proof.
  intros Hin.
  destruct (validated_from_accepted w file_paths p Hin) as [c [_ Hacc]].
  apply accepted_path_not_denied in Hacc.
  unfold denied_prefix in Hacc.
  apply orb_false_iff in Hacc. destruct Hacc as [Hacc Hpriv].
  apply orb_false_iff in Hacc. destruct Hacc as [Hsys Husr].
  split; [auto|].
  repeat split; intro Hu; apply under_startswith in Hu; congruence.
Qed.

(** C2, as the code has it.  The validated file set is, in input order,
    the absolute path of every accepted candidate: nothing is merged, and a
    path occurs in the result once for each candidate that resolves to
    it. *)
Theorem validated_files_keep_every_accepted_candidate
        (w : W) (file_paths : list string) :
  validate_files_for_archiving os w file_paths
  = flat_map (fun c => list_of_option (accepted_path os w c)) file_paths
  /\ forall p : string,
      count_occ string_dec (validate_files_for_archiving os w file_paths) p
      = List.length
          (filter (fun c => match accepted_path os w c with
                            | Some a => String.eqb a p
                            | None => false
                            end) file_paths).
Proof.
  unfold validate_files_for_archiving.
  rewrite validate_files_loop_flat_map. simpl. split; [reflexivity|].
  intros p. induction file_paths as [|c rest IH]; simpl; [reflexivity|].
  rewrite count_occ_app, IH.
  destruct (accepted_path os w c) as [a|]; simpl; [|reflexivity].
  destruct (string_dec a p) as [->|Hne].
  - rewrite String.eqb_refl. reflexivity.
  - apply String.eqb_neq in Hne. rewrite Hne. reflexivity.
Qed.

End PathResolverFacts.

Lemma validated_files_avoid_denied_prefixes_witness :
  In "/data/a.txt"
     (validate_files_for_archiving
        Sim.ops (Sim.idle [("/data/a.txt", 5%Z); ("/System/Library/x", 1%Z)] [] [])
        ["/System/Library/x"; "/data/a.txt"])
  /\ ~ under "/System" "/data/a.txt".
Proof.
  split.
  - vm_compute. left. reflexivity.
  - apply (validated_files_avoid_denied_prefixes
             Sim.ops (Sim.idle [("/data/a.txt", 5%Z); ("/System/Library/x", 1%Z)] [] [])
             ["/System/Library/x"; "/data/a.txt"] "/data/a.txt").
    vm_compute. left. reflexivity.
Defined.

(** C2, as stated, fails: a candidate given twice is returned twice. *)
Lemma validated_files_can_repeat :
  ~ NoDup (validate_files_for_archiving
             Sim.ops (Sim.idle [("/data/a.txt", 5%Z)] [] [])
             ["/data/a.txt"; "/data/a.txt"]).
Proof.
  vm_compute. intros H. inversion H as [|x l Hnotin _]; subst.
  apply Hnotin. left. reflexivity.
Qed.

(** ** ResourceEstimator *)

Section ResourceEstimatorFacts.
Context {W : Type} (os : os_ops W).

(** C1, as the code has it.  At level 8 or above the check proceeds
    without a prompt exactly when no warning fired.  When a warning fired it
    shows the warnings and asks, and proceeds only on the answer [y] (in
    either case); a failed memory probe always fires a warning at these
    levels. *)
Theorem high_level_check_asks_when_warned
        (compression_level total_size : Z) (st : io_state W) :
  (8 <= compression_level)%Z ->
  let ws := resource_warnings os (world st) compression_level in
  (ws = [] ->
   check_system_resources_before_operation os compression_level total_size st
   = (Ok true, [], st))
  /\ (ws <> [] ->
      check_system_resources_before_operation os compression_level total_size st
      = match stdin st with
        | [] =>
            (Raise EOFError,
             [ResourceWarnings ws; Critical compression_level; Prompt high_level_prompt],
             st)
        | answer :: rest =>
            (Ok (String.eqb (lower answer) "y"),
             [ResourceWarnings ws; Critical compression_level; Prompt high_level_prompt],
             {| stdin := rest; world := world st |})
        end)
  /\ (vm_stat os (world st) = VmRaised -> ws <> []).
Proof.
  intros Hlevel ws.
  assert (Hge : (8 <=? compression_level)%Z = true) by (apply Z.leb_le; exact Hlevel).
  unfold check_system_resources_before_operation, bind, get_world.
  fold (resource_warnings os (world st) compression_level). fold ws.
  repeat split.
  - intros ->. reflexivity.
  - intros Hne. destruct ws as [|w0 ws']; [contradiction|].
    rewrite Hge. unfold emit, input, ret. cbn.
    destruct (stdin st) as [|answer rest]; reflexivity.
  - intros Hvm. subst ws. unfold resource_warnings, memory_warnings.
    rewrite Hvm, Hge. discriminate.
Qed.

End ResourceEstimatorFacts.

Lemma high_level_check_asks_when_warned_witness :
  check_system_resources_before_operation
    Sim.ops 9 0
    (Sim.start ["Y"]
       {| Sim.sim_files := []; Sim.sim_dirs := []; Sim.sim_exits := [];
          Sim.sim_vm := VmRaised; Sim.sim_cpu := CpuRaised; Sim.sim_free := 0 |})
  = (Ok true,
     [ResourceWarnings [ExtremeLevel 9]; Critical 9; Prompt high_level_prompt],
     Sim.start []
       {| Sim.sim_files := []; Sim.sim_dirs := []; Sim.sim_exits := [];
          Sim.sim_vm := VmRaised; Sim.sim_cpu := CpuRaised; Sim.sim_free := 0 |}).
Proof.
  pose proof (high_level_check_asks_when_warned
                Sim.ops 9 0
                (Sim.start ["Y"]
                   {| Sim.sim_files := []; Sim.sim_dirs := []; Sim.sim_exits := [];
                      Sim.sim_vm := VmRaised; Sim.sim_cpu := CpuRaised;
                      Sim.sim_free := 0 |})) as H.
  assert (Hlevel : (8 <= 9)%Z) by lia.
  specialize (H Hlevel). cbv zeta in H.
  destruct H as [_ [H _]].
  apply H. vm_compute. discriminate.
Defined.

(** C1, as stated, fails: with 64 GiB of reclaimable memory and an idle
    processor, level 9 with 0 planned bytes proceeds although nothing was
    asked and no answer was there to be read. *)
Lemma level_9_proceeds_unprompted :
  check_system_resources_before_operation
    Sim.ops 9 0 (Sim.start [] (Sim.idle [] [] []))
  = (Ok true, [], Sim.start [] (Sim.idle [] [] [])).
Proof. vm_compute. reflexivity. Qed.

(** ** ArchivePlanner: smart names *)

Section SmartNameFacts.
Context {W : Type} (os : os_ops W).


End SmartNameFacts.



(** ** ExtractionCoordinator *)

Section ExtractionFacts.
Context {W : Type} (os : os_ops W) (seven_zip_path : string).

Lemma job_outcomes_archives
      (n : nat) (extract_to : string) (mode : extraction_mode)
      (flag : option string) (sel : list string) (archive_paths : list string) (w : W) :
  map fst (fst (job_outcomes os seven_zip_path n extract_to mode flag sel w archive_paths))
  = archive_paths.
Proof.
  revert w. induction archive_paths as [|a rest IH]; intros w; [reflexivity|].
  cbn [job_outcomes].
  destruct (job_outcome_of os seven_zip_path n extract_to mode flag sel w a) as [o w2].
  specialize (IH w2).
  destruct (job_outcomes os seven_zip_path n extract_to mode flag sel w2 rest)
    as [jobs w3].
  cbn [fst map] in *. now rewrite IH.
Qed.

Lemma successes_failures_partition (jobs : list (string * job_outcome)) :
  List.length (successes jobs) + List.length (failures jobs) = List.length jobs.
Proof.
  unfold successes, failures. rewrite !length_map.
  induction jobs as [|j jobs IH]; [reflexivity|].
  cbn [filter]. destruct (job_ok (snd j)); cbn [negb List.length]; lia.
Qed.

(** One pass of the loop never raises; it counts the job as a success or
    appends it to the failures, and shows and launches what its outcome
    tells. *)
Lemma extract_job_run
      (n : nat) (extract_to : string) (mode : extraction_mode)
      (flag : option string) (sel : list string)
      (sc : nat) (fa : list (string * string)) (idx : nat) (a : string)
      (st : io_state W) :
  extract_job os seven_zip_path n extract_to mode flag sel (sc, fa) idx a st
  = let (o, w') :=
      job_outcome_of os seven_zip_path n extract_to mode flag sel (world st) a in
    (Ok (if job_ok o then (sc + 1, fa)
         else (sc, fa ++ [(basename a, job_reason o)])),
     job_events seven_zip_path n extract_to mode flag sel (a, o),
     {| stdin := stdin st; world := w' |}).
Proof.
  destruct st as [ins w].
  unfold extract_job, job_outcome_of, job_events, job_dest, bind, os_step, emit, ret.
  cbv [world stdin].
  destruct mode.
  - destruct (1 <? n).
    + destruct (makedirs os w (join extract_to (fst (splitext (basename a)))))
        as [[e|] w1]; [reflexivity|].
      destruct (run_process os w1 _) as [[code|e] w2]; [|reflexivity].
      cbn [job_ok]. destruct (code =? 0)%Z; reflexivity.
    + destruct (run_process os w _) as [[code|e] w2]; [|reflexivity].
      cbn [job_ok]. destruct (code =? 0)%Z; reflexivity.
  - destruct (run_process os w _) as [[code|e] w2]; [|reflexivity].
    cbn [job_ok]. destruct (code =? 0)%Z; reflexivity.
Qed.

(** The loop over the archives, against the outcomes of its jobs. *)
Lemma extract_jobs_run
      (n : nat) (extract_to : string) (mode : extraction_mode)
      (flag : option string) (sel : list string) (archive_paths : list string) :
  forall (idx : nat) (counts : nat * list (string * string)) (st : io_state W),
    extract_jobs os seven_zip_path n extract_to mode flag sel idx archive_paths counts st
    = let (jobs, w') :=
        job_outcomes os seven_zip_path n extract_to mode flag sel (world st)
                     archive_paths in
      (Ok (fst counts + List.length (successes jobs), snd counts ++ failures jobs),
       flat_map (job_events seven_zip_path n extract_to mode flag sel) jobs,
       {| stdin := stdin st; world := w' |}).
Proof.
  induction archive_paths as [|a rest IH]; intros idx [sc fa] st.
  - cbn [extract_jobs job_outcomes]. unfold ret, successes, failures.
    cbn [filter map List.length flat_map fst snd].
    rewrite Nat.add_0_r, app_nil_r. destruct st; reflexivity.
  - cbn [extract_jobs job_outcomes]. unfold bind.
    rewrite extract_job_run.
    destruct (job_outcome_of os seven_zip_path n extract_to mode flag sel (world st) a)
      as [o w2].
    rewrite IH. cbn [world stdin].
    destruct (job_outcomes os seven_zip_path n extract_to mode flag sel w2 rest)
      as [jobs w3].
    unfold successes, failures. cbn [filter flat_map snd fst].
    destruct (job_ok o); cbn [negb map List.length fst snd].
    + match goal with
      | |- (Ok (?x, _), _, _) = (Ok (?y, _), _, _) => replace x with y by lia
      end.
      reflexivity.
    + rewrite <- app_assoc. reflexivity.
Qed.

Lemma commands_app (l1 l2 : list event) :
  commands (l1 ++ l2) = commands l1 ++ commands l2.
Proof.
  induction l1 as [|ev l1 IH]; [reflexivity|].
  destruct ev; cbn [commands app]; rewrite ?IH; reflexivity.
Qed.

Lemma commands_job_events
      (n : nat) (extract_to : string) (mode : extraction_mode)
      (flag : option string) (sel : list string)
      (jobs : list (string * job_outcome)) :
  commands (flat_map (job_events seven_zip_path n extract_to mode flag sel) jobs)
  = flat_map (job_commands seven_zip_path n extract_to mode flag sel) jobs.
Proof.
  induction jobs as [|[a o] jobs IH]; [reflexivity|].
  cbn [flat_map]. rewrite commands_app, IH. f_equal.
  unfold job_events, job_commands. rewrite commands_app.
  cbn [fst snd].
  assert (Hd : commands
                 match mode with
                 | Separate =>
                     if 1 <? n then [MakeDirs (job_dest n extract_to mode a)] else []
                 | Combined => []
                 end = []).
  { destruct mode; [destruct (1 <? n)|]; reflexivity. }
  rewrite Hd. destruct o as [e|code|e]; [reflexivity| |reflexivity].
  destruct (code =? 0)%Z; reflexivity.
Qed.

(** The batch against the outcomes of its jobs: it never raises. *)
Lemma run_batch_run
      (archive_paths : list string) (extract_to : string) (mode : extraction_mode)
      (flag : option string) (sel : list string) (st : io_state W) :
  let n := List.length archive_paths in
  let run := job_outcomes os seven_zip_path n extract_to mode flag sel (world st)
                          archive_paths in
  let result := summarize (List.length (successes (fst run))) n (failures (fst run)) in
  run_batch os seven_zip_path archive_paths extract_to mode flag sel st
  = (Ok result,
     flat_map (job_events seven_zip_path n extract_to mode flag sel) (fst run)
     ++ [summary_event result],
     {| stdin := stdin st; world := snd run |}).
Proof.
  intros n run result.
  unfold run_batch, bind. rewrite extract_jobs_run.
  fold n. fold run. subst result.
  destruct run as [jobs w']. cbn [fst snd plus app].
  unfold emit, ret.
  destruct (summarize (List.length (successes jobs)) n (failures jobs));
    cbn [summary_event]; rewrite ?app_nil_r; reflexivity.
Qed.

(** C5.  A batch never raises.  Its jobs are those of the input, in that
    order, each with one outcome; the log is the sequence of what each job
    showed and launched, so the archiver runs for every archive whose
    directory could be made, whatever happened to the jobs before it.  Every
    job is counted once, as a success or in [failed_archives] with its
    reason, and the summary follows from the counts.  Of three jobs of which
    only the second fails, two are reported extracted and the second is the
    one failure. *)
Theorem batch_runs_every_job_once
        (archive_paths : list string) (extract_to : string) (mode : extraction_mode)
        (flag : option string) (sel : list string) (st : io_state W) :
  let n := List.length archive_paths in
  let run := job_outcomes os seven_zip_path n extract_to mode flag sel (world st)
                          archive_paths in
  let jobs := fst run in
  let result := summarize (List.length (successes jobs)) n (failures jobs) in
  let log := flat_map (job_events seven_zip_path n extract_to mode flag sel) jobs in
  run_batch os seven_zip_path archive_paths extract_to mode flag sel st
  = (Ok result, log ++ [summary_event result],
     {| stdin := stdin st; world := snd run |})
  /\ map fst jobs = archive_paths
  /\ commands log
     = flat_map (job_commands seven_zip_path n extract_to mode flag sel) jobs
  /\ List.length (successes jobs) + List.length (failures jobs) = n
  /\ (forall (a1 a2 a3 : string) (o2 : job_outcome),
         archive_paths = [a1; a2; a3] ->
         map snd jobs = [JobExited 0; o2; JobExited 0] ->
         job_ok o2 = false ->
         result = PartialSuccess 2 [(basename a2, job_reason o2)]
         /\ successes jobs = [a1; a3]).
Proof.
  intros n run jobs result log.
  assert (Harch : map fst jobs = archive_paths) by apply job_outcomes_archives.
  split; [|split; [exact Harch|split; [apply commands_job_events|split]]].
  - apply run_batch_run.
  - rewrite successes_failures_partition. subst n.
    rewrite <- (length_map fst jobs). now rewrite Harch.
  - intros a1 a2 a3 o2 Hpaths Houts Hfail.
    subst result n. rewrite Hpaths in *.
    destruct jobs as [|[b1 o1] [|[b2 o2'] [|[b3 o3] [|]]]]; try discriminate.
    cbn [map fst snd] in Harch, Houts.
    injection Harch as -> -> ->. injection Houts as -> -> ->.
    unfold successes, failures, summarize.
    cbn [filter map fst snd job_ok Z.eqb negb List.length]. rewrite Hfail.
    cbn [negb map filter fst snd List.length]. split; reflexivity.
Qed.

(** The command of every extraction job carries [-y], whatever the
    conflict policy. *)
Lemma extract_cmd_assumes_yes
      (archive_path current_dest : string) (flag : option string)
      (sel : list string) (n : nat) :
  In "-y" (extract_cmd seven_zip_path archive_path current_dest flag sel n).
Proof. unfold extract_cmd. cbn. tauto. Qed.

End ExtractionFacts.

Lemma batch_runs_every_job_once_witness :
  fst (fst (run_batch Sim.ops "7zz" ["/data/a.7z"; "/data/b.7z"; "/data/c.7z"]
                      "/out" Separate None []
                      (Sim.start [] (Sim.idle [] [] [0; 2; 0]%Z))))
  = Ok (PartialSuccess 2 [("b.7z", "error code 2")]).
Proof.
  pose proof (batch_runs_every_job_once
                Sim.ops "7zz" ["/data/a.7z"; "/data/b.7z"; "/data/c.7z"]
                "/out" Separate None []
                (Sim.start [] (Sim.idle [] [] [0; 2; 0]%Z))) as H.
  cbv zeta in H. destruct H as [Hrun [_ [_ [_ H3]]]].
  specialize (H3 "/data/a.7z" "/data/b.7z" "/data/c.7z" (JobExited 2) eq_refl).
  assert (Houts : map snd
                    (fst (job_outcomes
                            Sim.ops "7zz" 3 "/out" Separate None []
                            (Sim.idle [] [] [0; 2; 0]%Z)
                            ["/data/a.7z"; "/data/b.7z"; "/data/c.7z"]))
                  = [JobExited 0; JobExited 2; JobExited 0])
    by (vm_compute; reflexivity).
  destruct (H3 Houts eq_refl) as [Hres _].
  rewrite Hrun. cbn [fst]. rewrite Hres. reflexivity.
Defined.

(** C3 at the failing input: one archive, a destination that holds a file,
    and the answer 3 ("Ask for each file conflict").  The archiver is
    launched with [-ao] and with [-y], which answers every query of the
    archiver with yes. *)
Theorem ask_per_file_runs_with_assume_yes :
  overwrite_flag_of_choice "3" = Some "-ao"
  /\ commands
       (snd (fst (extract_archive
                    Sim.ops "7zz" Sim.prefs0
                    (Sim.start ["/data/a.7z"; "1"; "/out"; "3"; "y"; "n"]
                       (Sim.idle [("/data/a.7z", 5%Z); ("/out/old.txt", 1%Z)]
                                 ["/out"] [])))))
     = [["7zz"; "x"; "/data/a.7z"; "-o/out"; "-y"; "-ao"]].
Proof. split; vm_compute; reflexivity. Qed.

(** ** PreferenceStore *)

Module PreferenceStoreFacts.
Import PreferenceStore.

Lemma entries_set_fresh (l : list (string * pyval)) (k : string) (v : pyval) :
  ~ In k (map fst l) -> entries_set l k v = l ++ [(k, v)].
Proof.
  induction l as [|[k' v'] l IH]; intros Hk; cbn [entries_set app]; [reflexivity|].
  cbn [map fst] in Hk.
  destruct (String.eqb k' k) eqn:E.
  - apply String.eqb_eq in E. exfalso. apply Hk. left. exact E.
  - rewrite IH; [reflexivity|]. intros H. apply Hk. right. exact H.
Qed.

Lemma entries_set_present (l r : list (string * pyval)) (k : string) (v0 v : pyval) :
  ~ In k (map fst l) -> entries_set (l ++ (k, v0) :: r) k v = l ++ (k, v) :: r.
Proof.
  induction l as [|[k' v'] l IH]; intros Hk; cbn [entries_set app].
  - rewrite String.eqb_refl. reflexivity.
  - cbn [map fst] in Hk.
    destruct (String.eqb k' k) eqn:E.
    + apply String.eqb_eq in E. exfalso. apply Hk. left. exact E.
    + rewrite IH; [reflexivity|]. intros H. apply Hk. right. exact H.
Qed.

Lemma entries_set_keys (l : list (string * pyval)) (k : string) (v : pyval) :
  map fst (entries_set l k v)
  = if in_dec string_dec k (map fst l) then map fst l else map fst l ++ [k].
Proof.
  induction l as [|[k' v'] l IH]; cbn [entries_set map fst].
  - destruct (in_dec string_dec k []) as [[]|_]. reflexivity.
  - destruct (String.eqb k' k) eqn:E.
    + apply String.eqb_eq in E. subst k'.
      destruct (in_dec string_dec k (k :: map fst l)) as [_|Hn]; [reflexivity|].
      exfalso. apply Hn. left. reflexivity.
    + apply String.eqb_neq in E. cbn [map fst]. rewrite IH.
      destruct (in_dec string_dec k (map fst l)) as [Hin|Hn];
        destruct (in_dec string_dec k (k' :: map fst l)) as [Hin'|Hn'];
        try reflexivity.
      * exfalso. apply Hn'. right. exact Hin.
      * destruct Hin' as [Heq|Hin']; [congruence | contradiction].
Qed.

Lemma fold_set_fresh (l2 l1 : list (string * pyval)) :
  NoDup (map fst (l1 ++ l2)) -> fold_left set_entry l2 l1 = l1 ++ l2.
Proof.
  revert l1. induction l2 as [|[k v] l2 IH]; intros l1 Hnd; cbn [fold_left].
  - now rewrite app_nil_r.
  - unfold set_entry at 2. cbn [fst snd].
    rewrite entries_set_fresh.
    + rewrite IH; rewrite <- app_assoc; [reflexivity | exact Hnd].
    + rewrite map_app in Hnd. cbn [map fst] in Hnd.
      apply NoDup_remove_2 in Hnd. intros H. apply Hnd.
      apply in_or_app. left. exact H.
Qed.

(** Writing the entries of a record over defaults whose keys are the first
    keys of the record gives the record. *)
Lemma fold_set_over_prefix (d2 : list (string * pyval)) :
  forall l1 l2a l2b : list (string * pyval),
    map fst l2a = map fst d2 ->
    NoDup (map fst (l1 ++ l2a ++ l2b)) ->
    fold_left set_entry (l2a ++ l2b) (l1 ++ d2) = l1 ++ l2a ++ l2b.
Proof.
  induction d2 as [|[k v0] d2 IH]; intros l1 l2a l2b Hkeys Hnd.
  - destruct l2a; [|discriminate]. cbn [app] in *.
    rewrite app_nil_r. apply fold_set_fresh. exact Hnd.
  - destruct l2a as [|[k' v] l2a]; [discriminate|].
    cbn [map fst] in Hkeys. injection Hkeys as -> Hkeys.
    cbn [app fold_left]. unfold set_entry at 2. cbn [fst snd].
    rewrite entries_set_present.
    + replace (l1 ++ (k, v) :: d2) with ((l1 ++ [(k, v)]) ++ d2)
        by (rewrite <- app_assoc; reflexivity).
      rewrite IH; [rewrite <- app_assoc; reflexivity | exact Hkeys |].
      rewrite <- app_assoc. exact Hnd.
    + rewrite map_app in Hnd. cbn [app map fst] in Hnd.
      apply NoDup_remove_2 in Hnd. intros H. apply Hnd.
      apply in_or_app. left. exact H.
Qed.

Lemma fold_set_keys (entries d : list (string * pyval)) :
  exists extra : list string,
    map fst (fold_left set_entry entries d) = map fst d ++ extra.
Proof.
  revert d. induction entries as [|[k v] entries IH]; intros d; cbn [fold_left].
  - exists []. now rewrite app_nil_r.
  - destruct (IH (set_entry d (k, v))) as [extra Hx]. rewrite Hx.
    unfold set_entry. cbn [fst snd]. rewrite entries_set_keys.
    destruct (in_dec string_dec k (map fst d)).
    + exists extra. reflexivity.
    + exists (k :: extra). rewrite <- app_assoc. reflexivity.
Qed.

Lemma fold_set_nodup (entries d : list (string * pyval)) :
  NoDup (map fst d) -> NoDup (map fst (fold_left set_entry entries d)).
Proof.
  revert d. induction entries as [|[k v] entries IH]; intros d Hnd; cbn [fold_left].
  - exact Hnd.
  - apply IH. unfold set_entry. cbn [fst snd]. rewrite entries_set_keys.
    destruct (in_dec string_dec k (map fst d)) as [Hin|Hn]; [exact Hnd|].
    apply NoDup_app; [exact Hnd | repeat constructor; intros [] |].
    intros x Hx [<-|[]]. contradiction.
Qed.

(** Updating defaults with a record that was obtained by updating these
    defaults gives that record. *)
Lemma fold_set_idempotent (entries d : list (string * pyval)) :
  NoDup (map fst d) ->
  fold_left set_entry (fold_left set_entry entries d) d
  = fold_left set_entry entries d.
Proof.
  intros Hnd.
  destruct (fold_set_keys entries d) as [extra Hkeys].
  pose proof (fold_set_nodup entries d Hnd) as Hnd'.
  set (l := fold_left set_entry entries d) in *.
  destruct (map_eq_app _ _ _ _ Hkeys) as [la [lb [Hl [Hla _]]]].
  rewrite Hl in Hnd' |- *.
  apply (fold_set_over_prefix d [] la lb Hla Hnd').
Qed.

Lemma dict_set_embed (l : list (string * pyval)) (k : string) (v : pyval) :
  dict_set (embed l) (PStr k) v = embed (entries_set l k v).
Proof.
  induction l as [|[k' v'] l IH]; cbn [embed map dict_set entries_set fst snd];
    [reflexivity|].
  cbn [key_eqb]. destruct (String.eqb k' k); [reflexivity|].
  cbn [map fst snd]. f_equal. exact IH.
Qed.

Lemma update_from_entries_embed (entries d : list (string * pyval)) :
  update_from_entries (embed d) entries = embed (fold_left set_entry entries d).
Proof.
  unfold update_from_entries. revert d.
  induction entries as [|[k v] entries IH]; intros d; cbn [fold_left fst snd];
    [reflexivity|].
  rewrite dict_set_embed. apply IH.
Qed.

Section StoreFacts.
Variable desktop : string.
Variable float_repr : spec_float -> string.

Lemma default_preferences_embed :
  default_preferences desktop = embed (default_entries desktop).
Proof. reflexivity. Qed.

Lemma default_entries_nodup : NoDup (map fst (default_entries desktop)).
Proof.
  cbn [default_entries map fst].
  repeat (constructor; [cbn [In]; intuition discriminate|]). constructor.
Qed.

Lemma dumped_embed (l : list (string * pyval)) :
  dumped float_repr (embed l) = PDict (fold_left set_entry l []).
Proof.
  unfold dumped. f_equal. generalize (@nil (string * pyval)).
  induction l as [|[k v] l IH]; intros acc; cbn [embed map fold_left fst snd];
    [reflexivity|].
  cbn [key_text]. apply IH.
Qed.

Lemma reload_of_updated_defaults (entries : list (string * pyval)) :
  let record := fold_left set_entry entries (default_entries desktop) in
  dict_update (default_preferences desktop) (dumped float_repr (embed record))
  = Ok (embed record).
Proof.
  intros record.
  pose proof (fold_set_nodup entries _ default_entries_nodup) as Hnd.
  fold record in Hnd.
  rewrite dumped_embed, (fold_set_fresh record []) by exact Hnd.
  cbn [app dict_update]. rewrite default_preferences_embed, update_from_entries_embed.
  f_equal. f_equal. apply fold_set_idempotent. apply default_entries_nodup.
Qed.

(** C8, as the code has it.  When the persisted state is what the store
    itself produces (no file, an unreadable or unparsable file, or a JSON
    object) and the save succeeds, saving the loaded record and loading
    again gives the same record, key for key and value for value, in the
    same order. *)
Theorem save_then_load_round_trip
        (file : config_file) (prefs : pydict) (log : list event) :
  key_value_document file ->
  load_preferences desktop file = (Ok prefs, log) ->
  load_preferences desktop (fst (save_preferences float_repr WriteOk file prefs))
  = (Ok prefs, []).
Proof.
  intros Hdoc Hload. cbn [save_preferences fst load_preferences].
  assert (Hrec : exists entries,
             prefs = embed (fold_left set_entry entries (default_entries desktop))).
  { destruct file as [| | | |v]; cbn [load_preferences] in Hload;
      try (injection Hload as <- _; exists []; reflexivity);
      try contradiction.
    destruct v; try contradiction. cbn [dict_update] in Hload.
    injection Hload as <- _. exists entries.
    rewrite default_preferences_embed. apply update_from_entries_embed. }
  destruct Hrec as [entries ->].
  rewrite reload_of_updated_defaults. reflexivity.
Qed.

(** C9, as the code has it.  The save rewrites the file in place.  An
    interruption before [open] leaves the file as it was; an interruption
    between [open] and the end of the write leaves a truncated file, whatever
    record was stored before, and the next load answers with the defaults and
    a warning, which is what it answered before only if the file was already
    unreadable or unparsable; a failed [open] leaves the file as it was, a
    failed write leaves it truncated.  Neither failure raises. *)
Theorem save_rewrites_in_place (file : config_file) (prefs : pydict) :
  file_at float_repr BeforeOpen file prefs = file
  /\ load_preferences desktop (file_at float_repr Opened file prefs)
     = (Ok (default_preferences desktop), [load_warning])
  /\ (load_preferences desktop (file_at float_repr Opened file prefs)
      = load_preferences desktop file
      <-> file = Unreadable \/ file = Malformed)
  /\ file_at float_repr Written file prefs
     = fst (save_preferences float_repr WriteOk file prefs)
  /\ save_preferences float_repr OpenFails file prefs = (file, [save_warning])
  /\ load_preferences desktop (fst (save_preferences float_repr WriteFails file prefs))
     = (Ok (default_preferences desktop), [load_warning]).
Proof.
  split; [reflexivity|]. split; [reflexivity|]. split; [|repeat split].
  cbn [file_at load_preferences]. split.
  - destruct file; intros H; try discriminate H; auto.
  - intros [-> | ->]; reflexivity.
Qed.

End StoreFacts.

Lemma save_then_load_round_trip_witness :
  load_preferences
    "/Users/u/Desktop"
    (fst (save_preferences
            (fun _ => "nan") WriteOk
            (Document (PDict [("compression_preset", PStr "fast"); ("theme", PStr "dark")]))
            (update_from_entries
               (default_preferences "/Users/u/Desktop")
               [("compression_preset", PStr "fast"); ("theme", PStr "dark")])))
  = (Ok (update_from_entries
           (default_preferences "/Users/u/Desktop")
           [("compression_preset", PStr "fast"); ("theme", PStr "dark")]), []).
Proof.
  apply (save_then_load_round_trip
           "/Users/u/Desktop" (fun _ => "nan")
           (Document (PDict [("compression_preset", PStr "fast"); ("theme", PStr "dark")]))
           _ []).
  - exact I.
  - reflexivity.
Defined.

Lemma save_rewrites_in_place_witness :
  load_preferences "/Users/u/Desktop"
                   (file_at (fun _ => "nan") Opened Malformed
                            (default_preferences "/Users/u/Desktop"))
  = load_preferences "/Users/u/Desktop" Malformed.
Proof.
  destruct (save_rewrites_in_place
              "/Users/u/Desktop" (fun _ => "nan") Malformed
              (default_preferences "/Users/u/Desktop")) as [_ [_ [Hiff _]]].
  apply Hiff. right. reflexivity.
Defined.

(** C8, as stated, fails: a file that holds the JSON text [[[1, 2]]] is
    accepted by [dict.update] as a list of pairs and gives the record a key
    that is the integer 1; [json.dump] writes that key as the string "1",
    and the record read back differs. *)
Lemma round_trip_fails_for_a_list_of_pairs :
  let file := Document (PList [PList [PInt 1; PInt 2]]) in
  exists prefs : pydict,
    load_preferences "/Users/u/Desktop" file = (Ok prefs, [])
    /\ load_preferences
         "/Users/u/Desktop"
         (fst (save_preferences (fun _ => "nan") WriteOk file prefs))
       <> (Ok prefs, []).
Proof.
  eexists. split; [reflexivity|]. vm_compute. discriminate.
Qed.

(** C9, as stated, fails: an interruption right after [open] leaves an empty
    file in place of the record that was stored, and the stored choice is
    gone at the next load. *)
Lemma interrupted_save_loses_the_stored_record :
  let stored := Document (PDict [("compression_preset", PStr "fast")]) in
  let prefs :=
    update_from_entries (default_preferences "/Users/u/Desktop")
                        [("compression_preset", PStr "maximum")] in
  file_at (fun _ => "nan") Opened stored prefs <> stored
  /\ load_preferences "/Users/u/Desktop" (file_at (fun _ => "nan") Opened stored prefs)
     <> load_preferences "/Users/u/Desktop" stored.
Proof. split; vm_compute; discriminate. Qed.

End PreferenceStoreFacts.

(** ** ArchivePlanner: the create command *)

Lemma io_sim_raise {W A B} (R : A -> B -> Prop) (e : exn) :
  io_sim (W := W) R (raise e) (raise e).
Proof. intros st. unfold run_sim, raise. cbn. auto. Qed.



Section PlannerFacts.
Context {W : Type} (os : os_ops W) (seven_zip_path : string).

Lemma same_except_refl (p : preferences) : same_except_exclude_patterns p p.
Proof. unfold same_except_exclude_patterns. tauto. Qed.










Ltac inv_bind H :=
  apply bind_ok in H;
  let a := fresh "a" in
  let l1 := fresh "l" in
  let s1 := fresh "s" in
  let l2 := fresh "l" in
  let Hm := fresh "Hm" in
  let Hl := fresh "Hl" in
  destruct H as (a & l1 & s1 & l2 & Hm & H & Hl); cbv beta in H.



Lemma create_archive_from_password_inv
      (validated_files : list string) (output_path : string)
      (overwrite_existing : bool) (prefs : preferences)
      (st st' : io_state W) (plan : create_plan) (log : list event) :
  create_archive_from_password os seven_zip_path validated_files output_path
                               overwrite_existing prefs st
  = (Ok (Some plan), log, st') ->
  exists pw l1 s1 l2,
    choose_password (output_ext_of output_path) st = (Ok pw, l1, s1)
    /\ log = l1 ++ l2
    /\ plan_password plan = pw
    /\ plan_output_path plan = output_path
    /\ plan_files plan = validated_files
    /\ plan_cmd plan
       = create_cmd seven_zip_path output_path (output_ext_of output_path)
                    (plan_compression_level plan) (plan_split_size plan)
                    overwrite_existing pw validated_files.
Proof.
  intros H. unfold create_archive_from_password in H.
  inv_bind H. exists a, l, s, l0. split; [exact Hm|]. split; [exact Hl|].
  clear Hm Hl.
  inv_bind H. inv_bind H. inv_bind H.
  destruct (negb a2).
  { inv_bind H. unfold ret in H. discriminate H. }
  inv_bind H. inv_bind H. inv_bind H.
  destruct (negb a5).
  { inv_bind H. unfold ret in H. discriminate H. }
  inv_bind H.
  destruct (negb (lower a6 =? "y")%string); unfold ret in H; [discriminate H|].
  injection H as <- _ _. cbn. auto.
Qed.




End PlannerFacts.




(** ** Totality: no method exhausts the bound of its loops *)

Lemma generate_smart_archive_name_no_fuel {W} (os : os_ops W) (w : W)
      (source_files : list string) :
  generate_smart_archive_name os w source_files <> Raise OutOfFuel.
Proof.
  unfold generate_smart_archive_name.
  destruct source_files as [|a [|b rest]]; repeat
    match goal with
    | |- context [if ?c then _ else _] => destruct c
    end; discriminate.
Qed.
#[export] Hint Resolve sound_lift generate_smart_archive_name_no_fuel : sound.

Lemma sound_check_system_resources {W} (os : os_ops W) (level total : Z) :
  sound (check_system_resources_before_operation os level total).
Proof. unfold check_system_resources_before_operation. sound_auto. Qed.
#[export] Hint Resolve sound_check_system_resources : sound.

Lemma sound_save_preferences {W} (os : os_ops W) (p : preferences) :
  sound (save_preferences os p).
Proof. unfold save_preferences. sound_auto. Qed.
#[export] Hint Resolve sound_save_preferences : sound.

Lemma sound_get_file_paths {W} (os : os_ops W) : sound (get_file_paths os).
Proof. unfold get_file_paths, get_file_paths_body. sound_auto. Qed.
#[export] Hint Resolve sound_get_file_paths : sound.

Lemma sound_get_output_path {W} (os : os_ops W) (p : preferences)
      (default_name : string) (source_files : option (list string)) :
  sound (get_output_path os p default_name source_files).
Proof. unfold get_output_path. sound_auto. Qed.
#[export] Hint Resolve sound_get_output_path : sound.

Lemma sound_get_password {W} (optional for_extraction : bool) :
  sound (W := W) (get_password optional for_extraction).
Proof. unfold get_password. sound_auto. Qed.
#[export] Hint Resolve sound_get_password : sound.

Lemma sound_confirm_level_9 {W} : sound (W := W) _confirm_level_9.
Proof. unfold _confirm_level_9. sound_auto. Qed.
#[export] Hint Resolve sound_confirm_level_9 : sound.

Lemma sound_get_custom_level {W} : sound (W := W) _get_custom_level.
Proof. unfold _get_custom_level. sound_auto. Qed.
#[export] Hint Resolve sound_get_custom_level : sound.

Lemma sound_get_compression_level {W} (p : preferences) :
  sound (W := W) (get_compression_level p).
Proof. unfold get_compression_level. sound_auto. Qed.
#[export] Hint Resolve sound_get_compression_level : sound.

Lemma sound_check_disk_space {W} (os : os_ops W) (output_path : string)
      (estimated_size_mb : option Q) :
  sound (check_disk_space os output_path estimated_size_mb).
Proof. unfold check_disk_space. sound_auto. Qed.
#[export] Hint Resolve sound_check_disk_space : sound.

Lemma sound_choose_split_size {W} (total_size : Z) :
  sound (W := W) (choose_split_size total_size).
Proof. unfold choose_split_size. sound_auto. Qed.
#[export] Hint Resolve sound_choose_split_size : sound.

Lemma sound_choose_password {W} (output_ext : string) :
  sound (W := W) (choose_password output_ext).
Proof. unfold choose_password. sound_auto. Qed.
#[export] Hint Resolve sound_choose_password : sound.

Lemma sound_resolve_existing_output {W} (os : os_ops W) (p : preferences)
      (output_path : string) :
  sound (resolve_existing_output os p output_path).
Proof. unfold resolve_existing_output. sound_auto. Qed.
#[export] Hint Resolve sound_resolve_existing_output : sound.

Lemma sound_create_archive_from_password {W} (os : os_ops W) (seven_zip_path : string)
      (files : list string) (output_path : string) (ow : bool) (p : preferences) :
  sound (create_archive_from_password os seven_zip_path files output_path ow p).
Proof. unfold create_archive_from_password. sound_auto. Qed.
#[export] Hint Resolve sound_create_archive_from_password : sound.

(** [create_archive], up to the built command, never exhausts a loop bound:
    it returns, or it raises a Python exception (the end of the input among
    them). *)
Lemma sound_create_archive_plan {W} (os : os_ops W) (seven_zip_path : string)
      (p : preferences) :
  sound (create_archive_plan os seven_zip_path p).
Proof. unfold create_archive_plan. sound_auto. Qed.
#[export] Hint Resolve sound_create_archive_plan : sound.

Lemma sound_show_archive_completion {W} (os : os_ops W) (archive_path : string)
      (source_files : list string) :
  sound (show_archive_completion os archive_path source_files).
Proof. unfold show_archive_completion. sound_auto. Qed.
#[export] Hint Resolve sound_show_archive_completion : sound.

Lemma sound_create_archive {W} (os : os_ops W) (seven_zip_path : string)
      (p : preferences) :
  sound (create_archive os seven_zip_path p).
Proof. unfold create_archive. sound_auto. Qed.

Lemma sound_handle_auto_open {W} (os : os_ops W) (p : preferences) (dir : string) :
  sound (handle_auto_open os p dir).
Proof. unfold handle_auto_open. sound_auto. Qed.
#[export] Hint Resolve sound_handle_auto_open : sound.

Lemma sound_run_batch {W} (os : os_ops W) (seven_zip_path : string)
      (archive_paths : list string) (extract_to : string) (mode : extraction_mode)
      (flag : option string) (sel : list string) :
  sound (run_batch os seven_zip_path archive_paths extract_to mode flag sel).
Proof.
  intros st.
  pose proof (run_batch_run os seven_zip_path archive_paths extract_to
                            mode flag sel st) as H.
  cbv zeta in H. rewrite H. cbn [fst snd stdin].
  split; [discriminate | lia].
Qed.
#[export] Hint Resolve sound_run_batch : sound.

(** [extract_archive] has no loop over the input and never exhausts a
    bound. *)
Lemma sound_extract_archive {W} (os : os_ops W) (seven_zip_path : string)
      (p : preferences) :
  sound (extract_archive os seven_zip_path p).
Proof. unfold extract_archive, find_archives. sound_auto. Qed.

(** ** Postconditions of the interactive methods *)

Section PostFacts.
Context {W : Type}.

Lemma emits_ret {A} (P : event -> Prop) (a : A) : emits (W := W) P (ret a).
Proof. intros st. constructor. Qed.

Lemma emits_raise {A} (P : event -> Prop) (e : exn) :
  emits (W := W) P (raise (A := A) e).
Proof. intros st. constructor. Qed.

Lemma emits_emit (P : event -> Prop) (ev : event) :
  P ev -> emits (W := W) P (emit ev).
Proof. intros H st. cbn. constructor; [exact H | constructor]. Qed.

Lemma emits_input (P : event -> Prop) (prompt : string) :
  P (Prompt prompt) -> emits (W := W) P (input prompt).
Proof.
  intros H st. unfold input.
  destruct (stdin st); cbn [fst snd]; (constructor; [exact H | constructor]).
Qed.

Lemma emits_get_world (P : event -> Prop) : emits (W := W) P get_world.
Proof. intros st. constructor. Qed.

Lemma emits_os_step {A} (P : event -> Prop) (f : W -> A * W) :
  emits P (os_step f).
Proof. intros st. unfold os_step. destruct (f (world st)). constructor. Qed.

Lemma emits_lift {A} (P : event -> Prop) (r : outcome A) :
  emits (W := W) P (lift r).
Proof. intros st. constructor. Qed.

Lemma emits_bind {A B} (P : event -> Prop) (m : io W A) (f : A -> io W B) :
  emits P m -> (forall a, emits P (f a)) -> emits P (bind m f).
Proof.
  intros Hm Hf st. specialize (Hm st). unfold bind.
  destruct (m st) as [[[a|e] l] s]; cbn [fst snd] in *; [|exact Hm].
  specialize (Hf a s). destruct (f a s) as [[r l'] s']. cbn [fst snd] in *.
  apply Forall_app. split; assumption.
Qed.

Lemma emits_try_except {A} (P : event -> Prop) (m : io W A)
      (handler : exn -> io W A) :
  emits P m -> (forall e, emits P (handler e)) -> emits P (try_except m handler).
Proof.
  intros Hm Hh st. specialize (Hm st). unfold try_except.
  destruct (m st) as [[[a|e] l] s]; cbn [fst snd] in *; [exact Hm|].
  assert (Hgen : Forall P (snd (fst (let '(r, log', st'') := handler e s in
                                     (r, l ++ log', st''))))).
  { specialize (Hh e s). destruct (handler e s) as [[r l'] s']. cbn [fst snd] in *.
    apply Forall_app. split; assumption. }
  destruct e; first [exact Hgen | exact Hm].
Qed.

Lemma emits_for_list {A S} (P : event -> Prop) (l : list A)
      (body : S -> A -> io W S) (s : S) :
  (forall s x, emits P (body s x)) -> emits P (for_list l body s).
Proof.
  intros Hb. revert s. induction l as [|x l IH]; intros s; cbn [for_list].
  - apply emits_ret.
  - apply emits_bind; [apply Hb | intros s'; apply IH].
Qed.

Lemma emits_while_fuel {S A} (P : event -> Prop) (prompt : string)
      (body : S -> string -> io W (ctl S A)) :
  P (Prompt prompt) -> (forall s line, emits P (body s line)) ->
  forall fuel s, emits P (while_fuel fuel prompt body s).
Proof.
  intros Hp Hb fuel. induction fuel as [|fuel IH]; intros s; cbn [while_fuel];
    (apply emits_bind; [apply emits_input; exact Hp | intros line]).
  - apply emits_raise.
  - apply emits_bind; [apply Hb | intros [s'|a]; [apply IH | apply emits_ret]].
Qed.

Lemma emits_while_input {S A} (P : event -> Prop) (prompt : string)
      (body : S -> string -> io W (ctl S A)) (s : S) :
  P (Prompt prompt) -> (forall s line, emits P (body s line)) ->
  emits P (while_input prompt body s).
Proof. intros Hp Hb st. unfold while_input. apply emits_while_fuel; assumption. Qed.

Lemma emits_impl {A} (P Q : event -> Prop) (m : io W A) :
  (forall ev, P ev -> Q ev) -> emits P m -> emits Q m.
Proof. intros H Hm st. eapply Forall_impl; [exact H | apply Hm]. Qed.


End PostFacts.

Create HintDb emits.
#[export] Hint Resolve emits_ret emits_raise emits_get_world emits_os_step
  emits_lift : emits.

(** The leaves [emits_emit] and [emits_input] leave the property of the
    event, which [cbn] decides for the predicates used below. *)
Ltac emits_step :=
  first
    [ solve [auto with emits]
    | apply emits_emit; cbn; solve [auto]
    | apply emits_input; cbn; solve [auto]
    | apply emits_bind; [|intros ?]
    | apply emits_while_input; [cbn; solve [auto] | intros ? ?]
    | apply emits_for_list; intros ? ?
    | apply emits_try_except; [|intros ?]
    | match goal with
      | |- emits _ (if ?c then _ else _) => destruct c
      | |- emits _ (match ?x with _ => _ end) => destruct x
      | |- emits _ (let (_, _) := ?x in _) => destruct x
      end ].

Ltac emits_auto := repeat emits_step.

Section YieldsFacts.
Context {W : Type}.
Variable K : W -> Prop.

Lemma yields_ret {A} (Q : A -> list event -> Prop) (a : A) :
  Q a [] -> yields K Q (ret a).
Proof. intros H st HK. split; [exact HK | exact H]. Qed.

Lemma yields_raise {A} (Q : A -> list event -> Prop) (e : exn) :
  yields K Q (raise e).
Proof. intros st HK. split; [exact HK | exact I]. Qed.

Lemma yields_emit (Q : unit -> list event -> Prop) (ev : event) :
  Q tt [ev] -> yields K Q (emit ev).
Proof. intros H st HK. split; [exact HK | exact H]. Qed.

Lemma yields_input (Q : string -> list event -> Prop) (prompt : string) :
  (forall line, Q line [Prompt prompt]) -> yields K Q (input prompt).
Proof.
  intros H st HK. unfold input.
  destruct (stdin st); cbn [fst snd world]; split; auto.
Qed.

Lemma yields_get_world (Q : W -> list event -> Prop) :
  (forall w, K w -> Q w []) -> yields K Q get_world.
Proof. intros H st HK. split; [exact HK | apply H; exact HK]. Qed.

Lemma yields_os_step {A} (Q : A -> list event -> Prop) (f : W -> A * W) :
  (forall w, K w -> K (snd (f w)) /\ Q (fst (f w)) []) -> yields K Q (os_step f).
Proof.
  intros H st HK. unfold os_step. specialize (H _ HK).
  destruct (f (world st)) as [a w']. exact H.
Qed.

Lemma yields_lift {A} (Q : A -> list event -> Prop) (r : outcome A) :
  (forall a, r = Ok a -> Q a []) -> yields K Q (lift r).
Proof.
  intros H st HK. split; [exact HK|]. cbn [lift fst snd].
  destruct r; [apply H; reflexivity | exact I].
Qed.

(** The continuation is verified for the log that extends the one of the
    first part. *)
Lemma yields_bind {A B} (Q1 : A -> list event -> Prop)
      (Q : B -> list event -> Prop) (m : io W A) (f : A -> io W B) :
  yields K Q1 m ->
  (forall a l1, Q1 a l1 -> yields K (fun b l2 => Q b (l1 ++ l2)) (f a)) ->
  yields K Q (bind m f).
Proof.
  intros Hm Hf st HK. specialize (Hm st HK). unfold bind.
  destruct (m st) as [[[a|e] l] s]; cbn [fst snd] in *; [|exact Hm].
  destruct Hm as [HKs HQ1]. specialize (Hf a l HQ1 s HKs).
  destruct (f a s) as [[r l'] s']. cbn [fst snd] in *. exact Hf.
Qed.

Lemma yields_weaken {A} (Q1 Q2 : A -> list event -> Prop) (m : io W A) :
  (forall a l, Q1 a l -> Q2 a l) -> yields K Q1 m -> yields K Q2 m.
Proof.
  intros H Hm st HK. specialize (Hm st HK). destruct Hm as [HK' HQ].
  split; [exact HK'|]. destruct (fst (fst (m st))); [apply H; exact HQ | exact I].
Qed.

Lemma yields_for_list {A S} (Inv : S -> Prop) (l : list A)
      (body : S -> A -> io W S) (s : S) :
  Inv s ->
  (forall s x, Inv s -> yields K (fun s' _ => Inv s') (body s x)) ->
  yields K (fun s' _ => Inv s') (for_list l body s).
Proof.
  intros Hs Hb. revert s Hs. induction l as [|x l IH]; intros s Hs; cbn [for_list].
  - apply yields_ret. exact Hs.
  - eapply yields_bind; [apply Hb; exact Hs|].
    intros s' l1 Hs'. cbv beta. apply IH. exact Hs'.
Qed.

Lemma yields_while_fuel {S A} (Inv : S -> Prop) (Q : A -> list event -> Prop)
      (prompt : string) (body : S -> string -> io W (ctl S A)) :
  grows Q ->
  (forall s line, Inv s ->
     yields K (fun c l => match c with
                          | Continue s' => Inv s'
                          | Break a => Q a l
                          end) (body s line)) ->
  forall fuel s, Inv s -> yields K Q (while_fuel fuel prompt body s).
Proof.
  intros Hg Hb fuel. induction fuel as [|fuel IH]; intros s Hs; cbn [while_fuel];
    (eapply yields_bind; [apply (yields_input (fun _ l => l = [Prompt prompt]));
                          reflexivity | intros line l1 ->; cbv beta]).
  - apply yields_raise.
  - eapply yields_bind; [apply Hb; exact Hs|].
    intros [s'|a] l2 Hc; cbv beta.
    + eapply yields_weaken; [|apply IH; exact Hc].
      intros a l Ha. cbv beta.
      replace ([Prompt prompt] ++ l2 ++ l) with (([Prompt prompt] ++ l2) ++ l ++ [])
        by (rewrite app_nil_r, <- app_assoc; reflexivity).
      apply Hg. exact Ha.
    + apply yields_ret. apply Hg. exact Hc.
Qed.

Lemma yields_while_input {S A} (Inv : S -> Prop) (Q : A -> list event -> Prop)
      (prompt : string) (body : S -> string -> io W (ctl S A)) (s : S) :
  grows Q -> Inv s ->
  (forall s line, Inv s ->
     yields K (fun c l => match c with
                          | Continue s' => Inv s'
                          | Break a => Q a l
                          end) (body s line)) ->
  yields K Q (while_input prompt body s).
Proof.
  intros Hg Hs Hb st HK. unfold while_input.
  apply (yields_while_fuel Inv Q prompt body Hg Hb _ s Hs st HK).
Qed.

(** What a run that returns tells about its result. *)
Lemma yields_run {A} (Q : A -> list event -> Prop) (m : io W A)
      (st st' : io_state W) (a : A) (log : list event) :
  yields K Q m -> K (world st) -> m st = (Ok a, log, st') ->
  Q a log /\ K (world st').
Proof.
  intros Hm HK Hrun. specialize (Hm st HK). rewrite Hrun in Hm.
  cbn [fst snd] in Hm. tauto.
Qed.

End YieldsFacts.

Lemma grows_result {A} (R : A -> Prop) : grows (fun a (_ : list event) => R a).
Proof. intros a l before after H. exact H. Qed.

(** With no condition on the world and none on the result, nothing is
    claimed. *)
Lemma yields_trivial {W A} (m : io W A) :
  yields any_world (fun _ _ => True) m.
Proof.
  intros st _. split; [exact I|]. destruct (fst (fst (m st))); exact I.
Qed.

(** [try ... except] when only the final world matters. *)
Lemma yields_try_except {W A} (K : W -> Prop) (m : io W A)
      (handler : exn -> io W A) :
  yields K (fun _ _ => True) m ->
  (forall e, yields K (fun _ _ => True) (handler e)) ->
  yields K (fun _ _ => True) (try_except m handler).
Proof.
  intros Hm Hh st HK. specialize (Hm st HK). unfold try_except.
  destruct (m st) as [[[a|e] l] s]; cbn [fst snd] in *; [exact Hm|].
  destruct Hm as [HKs _].
  assert (Hgen : K (world (snd (let '(r, log', st'') := handler e s in
                                (r, l ++ log', st''))))).
  { specialize (Hh e s HKs). destruct (handler e s) as [[r l'] s'].
    cbn [fst snd] in *. tauto. }
  split.
  - destruct e; first [exact Hgen | exact HKs].
  - match goal with |- match ?x with _ => _ end => destruct x; exact I end.
Qed.

Create HintDb kept.

(** Methods that never act on the operating system leave every condition
    on the world in place. *)
Ltac kept_step :=
  first
    [ solve [auto with kept]
    | apply yields_ret; exact I
    | apply yields_raise
    | apply yields_emit; exact I
    | apply yields_input; intros ?; exact I
    | apply yields_get_world; intros ? ?; exact I
    | apply yields_lift; intros ? ?; exact I
    | apply (yields_bind _ (fun _ _ => True)); [|intros ? ? _; cbv beta]
    | apply (yields_while_input _ (fun _ => True));
        [apply (grows_result (fun _ => True)) | exact I | intros ? ? _]
    | apply yields_try_except; [|intros ?]
    | match goal with
      | |- yields _ _ (if ?c then _ else _) => destruct c
      | |- yields _ _ (match ?x with _ => _ end) => destruct x
      end ].

Ltac kept_auto := repeat kept_step.

Section WorldKept.
Context {W : Type} (os : os_ops W).
Variable K : W -> Prop.

Lemma kept_check_system_resources (level total : Z) :
  yields K (fun _ _ => True)
         (check_system_resources_before_operation os level total).
Proof. unfold check_system_resources_before_operation. kept_auto. Qed.

Lemma kept_check_disk_space (output_path : string) (estimate : option Q) :
  yields K (fun _ _ => True) (check_disk_space os output_path estimate).
Proof. unfold check_disk_space. kept_auto. Qed.

End WorldKept.

(** ** ArchivePlanner: the answers of the prompts *)

Section PromptFacts.
Context {W : Type}.
Variable K : W -> Prop.

Lemma confirm_level_9_yields :
  yields K (fun level l => (level = 5 \/ level = 9)%Z /\ In (Prompt level9_prompt) l)
         (_confirm_level_9 (W := W)).
Proof.
  unfold _confirm_level_9.
  apply (yields_bind _ (fun _ _ => True)); [apply yields_emit; exact I|].
  intros _ l1 _. cbv beta.
  apply (yields_bind _ (fun _ l => l = [Prompt level9_prompt]));
    [apply yields_input; reflexivity|].
  intros confirm l2 ->. cbv beta.
  destruct (negb (String.eqb (lower confirm) "y")); apply yields_ret;
    (split; [auto | rewrite !in_app_iff; cbn [In]; auto]).
Qed.

Lemma level_answer_grows : grows level_answer.
Proof.
  intros level l before after [Hr Hin]. split; [exact Hr|].
  intros H9. rewrite !in_app_iff. auto.
Qed.

Lemma get_custom_level_yields : yields K level_answer (_get_custom_level (W := W)).
Proof.
  unfold _get_custom_level.
  apply (yields_while_input _ (fun _ => True));
    [exact level_answer_grows | exact I | intros [] line _].
  destruct (parse_int (strip line)) as [level|] eqn:Hp.
  - destruct ((0 <=? level)%Z && (level <=? 9)%Z) eqn:Hr.
    + destruct (level =? 9)%Z eqn:H9.
      * eapply yields_bind; [apply confirm_level_9_yields|].
        intros level' l1 [Hl Hin]. cbv beta. apply yields_ret.
        split; [lia | intros _; rewrite app_nil_r; exact Hin].
      * apply (yields_bind _ (fun _ _ => True)).
        { destruct (7 <=? level)%Z; [apply yields_emit | apply yields_ret]; exact I. }
        intros _ l1 _. cbv beta. apply yields_ret. split; lia.
    + apply (yields_bind _ (fun _ _ => True)); [apply yields_emit; exact I|].
      intros _ l1 _. cbv beta. apply yields_ret. exact I.
  - apply (yields_bind _ (fun _ _ => True)); [apply yields_emit; exact I|].
    intros _ l1 _. cbv beta. apply yields_ret. exact I.
Qed.

End PromptFacts.

(** The level of [get_compression_level]: 9 only after the confirmation
    prompt; within 0..9 unless it is the stored custom level. *)
Lemma get_compression_level_yields {W} (K : W -> Prop) (prefs : preferences) :
  yields K (fun level l =>
              (level = 9%Z -> In (Prompt level9_prompt) l)
              /\ (compression_preset prefs <> "custom" \/ level_in_range prefs
                  -> (0 <= level <= 9)%Z))
         (get_compression_level (W := W) prefs).
Proof.
  unfold get_compression_level.
  destruct (String.eqb (compression_preset prefs) "fast");
    [apply yields_ret; split; [discriminate | lia]|].
  destruct (String.eqb (compression_preset prefs) "balanced");
    [apply yields_ret; split; [discriminate | lia]|].
  destruct (String.eqb (compression_preset prefs) "maximum").
  { eapply yields_weaken; [|apply confirm_level_9_yields].
    intros level l [Hl Hin]. split; [auto | lia]. }
  destruct (String.eqb (compression_preset prefs) "custom") eqn:Hc.
  { apply String.eqb_eq in Hc.
    destruct (custom_compression_level prefs =? 9)%Z eqn:H9.
    - eapply yields_weaken; [|apply confirm_level_9_yields].
      intros level l [Hl Hin]. split; [auto | lia].
    - apply yields_ret. split; [lia|].
      intros [Hn|Hr]; [contradiction | exact Hr]. }
  eapply yields_weaken;
    [|apply (yields_while_input _ (fun _ => True) level_answer);
      [exact level_answer_grows | exact I | intros [] line _]].
  { intros level l [Hr Hin]. split; [exact Hin | intros _; exact Hr]. }
  destruct (negb (truthy (strip line)) || String.eqb (strip line) "2");
    [apply yields_ret; split; [lia | discriminate]|].
  destruct (String.eqb (strip line) "1");
    [apply yields_ret; split; [lia | discriminate]|].
  destruct (String.eqb (strip line) "3").
  { eapply yields_bind; [apply confirm_level_9_yields|].
    intros level' l1 [Hl Hin]. cbv beta. apply yields_ret.
    split; [lia | intros _; rewrite app_nil_r; exact Hin]. }
  destruct (String.eqb (strip line) "4").
  { eapply yields_bind; [apply get_custom_level_yields|].
    intros level' l1 [Hl Hin]. cbv beta. apply yields_ret.
    split; [lia | intros H; rewrite app_nil_r; auto]. }
  apply (yields_bind _ (fun _ _ => True)); [apply yields_emit; exact I|].
  intros _ l1 _. cbv beta. apply yields_ret. exact I.
Qed.



Lemma get_password_yields {W} (K : W -> Prop) (optional for_extraction : bool) :
  yields K (fun o _ =>
              (forall pw, o = Some pw -> 4 <= String.length pw)
              /\ (optional = false -> o <> None))
         (get_password (W := W) optional for_extraction).
Proof.
  unfold get_password.
  apply (yields_bind _ (fun wanted _ => optional = false -> wanted = true)).
  { destruct optional.
    - apply (yields_bind _ (fun _ _ => True)); [apply yields_input; intros ?; exact I|].
      intros a l _. cbv beta. apply yields_ret. discriminate.
    - apply yields_ret. reflexivity. }
  intros wanted l1 Hw. cbv beta.
  destruct wanted; cbn [negb].
  2:{ apply yields_ret. split; [discriminate|].
      intros Ho. specialize (Hw Ho). discriminate. }
  apply (yields_while_input _ (fun _ => True));
    [apply (grows_result
              (fun o => (forall pw, o = Some pw -> 4 <= String.length pw)
                        /\ (optional = false -> o <> None)))
    | exact I | intros [] password _].
  destruct (negb (truthy password) && optional) eqn:Hempty.
  { apply yields_ret. split; [discriminate|].
    intros ->. rewrite andb_false_r in Hempty. discriminate. }
  destruct (String.length password <? 4) eqn:Hlen.
  { apply (yields_bind _ (fun _ _ => True)); [apply yields_emit; exact I|].
    intros _ l2 _. cbv beta. apply yields_ret. exact I. }
  apply Nat.ltb_ge in Hlen.
  apply (yields_bind _ (fun _ _ => True)); [apply yields_input; intros ?; exact I|].
  intros confirm l2 _. cbv beta.
  destruct (String.eqb password confirm).
  - apply yields_ret. split; [intros pw [= <-]; exact Hlen | discriminate].
  - apply (yields_bind _ (fun _ _ => True)); [apply yields_emit; exact I|].
    intros _ l3 _. cbv beta. apply yields_ret. exact I.
Qed.



Lemma choose_split_size_yields {W} (K : W -> Prop) (total_size : Z) :
  yields K (fun o _ => forall size, o = Some size -> truthy size = true)
         (choose_split_size (W := W) total_size).
Proof.
  unfold choose_split_size.
  destruct (10 * 1024 * 1024 * 1024 <? total_size)%Z;
    [|apply yields_ret; discriminate].
  apply (yields_while_input _ (fun _ => True));
    [apply (grows_result (fun o => forall size, o = Some size -> truthy size = true))
    | exact I | intros [] line _].
  destruct (negb (truthy (strip line)) || String.eqb (strip line) "1");
    [apply yields_ret; discriminate|].
  destruct (String.eqb (strip line) "2");
    [apply yields_ret; intros size [= <-]; reflexivity|].
  destruct (String.eqb (strip line) "3");
    [apply yields_ret; intros size [= <-]; reflexivity|].
  destruct (String.eqb (strip line) "4").
  - apply (yields_bind _ (fun _ _ => True)); [apply yields_input; intros ?; exact I|].
    intros answer l1 _. cbv beta.
    destruct (truthy (strip answer)) eqn:Ht; apply yields_ret; [|exact I].
    intros size [= <-]. exact Ht.
  - apply (yields_bind _ (fun _ _ => True)); [apply yields_emit; exact I|].
    intros _ l1 _. cbv beta. apply yields_ret. exact I.
Qed.

(** X3.  The split size of [create_archive] is never the empty string, and
    for sources of at most 10 GiB no split is offered: nothing is asked and
    there is no split size. *)
Theorem split_size_is_never_empty {W} (total_size : Z) (st st' : io_state W)
        (o : option string) (log : list event) :
  choose_split_size total_size st = (Ok o, log, st') ->
  (forall size, o = Some size -> size <> EmptyString)
  /\ ((total_size <= 10 * 1024 * 1024 * 1024)%Z ->
      o = None /\ log = [] /\ st' = st).
Proof.
  intros Hrun. split.
  - destruct (yields_run any_world _ _ st st' o log
                         (choose_split_size_yields any_world total_size) I Hrun)
      as [H _].
    intros size Ho Hempty. specialize (H size Ho). subst size. discriminate.
  - intros Hsmall. unfold choose_split_size in Hrun.
    destruct (10 * 1024 * 1024 * 1024 <? total_size)%Z eqn:Hlt;
      [apply Z.ltb_lt in Hlt; lia|].
    cbv [ret] in Hrun. injection Hrun as <- <- <-. auto.
Qed.

Lemma split_size_is_never_empty_witness : "700m" <> EmptyString.
Proof.
  apply (split_size_is_never_empty
           (11 * 1024 * 1024 * 1024)%Z
           (Sim.start ["4"; " "; "4"; " 700m "] (Sim.idle [] [] []))
           (Sim.start [] (Sim.idle [] [] []))
           (Some "700m")
           [Prompt "Choose option (1-4, default 1): ";
            Prompt "Enter split size (e.g., 1000m, 500m): ";
            Prompt "Choose option (1-4, default 1): ";
            Prompt "Enter split size (e.g., 1000m, 500m): "]).
  - reflexivity.
  - reflexivity.
Defined.

(** ** ArchivePlanner: the collected sources *)

Section SourceFacts.
Context {W : Type} (os : os_ops W).

Ltac skip_emit :=
  apply (yields_bind _ (fun _ _ => True)); [apply yields_emit; exact I|];
  intros _ ? _; cbv beta.

Lemma get_file_paths_yields (w0 : W) :
  yields (eq w0)
         (fun o _ =>
            forall files, o = Some files ->
              files <> [] /\ Forall (fun p => path_exists os w0 p = true) files)
         (get_file_paths os).
Proof.
  unfold get_file_paths.
  apply (yields_while_input _ (Forall (fun p => path_exists os w0 p = true)));
    [apply (grows_result
              (fun o => forall files, o = Some files ->
                 files <> [] /\ Forall (fun p => path_exists os w0 p = true) files))
    | constructor | intros all_files line Hall].
  unfold get_file_paths_body.
  destruct (String.eqb (lower (strip line)) "cancel");
    [apply yields_ret; discriminate|].
  destruct (String.eqb (lower (strip line)) "file").
  { apply (yields_bind _ (fun _ _ => True)); [apply yields_input; intros ?; exact I|].
    intros answer l1 _. cbv beta.
    destruct (String.eqb (lower (strip answer)) "cancel");
      [apply yields_ret; discriminate|].
    apply (yields_bind _ (fun w _ => w0 = w));
      [apply yields_get_world; intros w Hw; exact Hw|].
    intros w l2 <-. cbv beta.
    destruct (path_exists os w0 (snd (clean_macos_path (strip answer))));
      [|skip_emit; apply yields_ret; exact Hall].
    destruct (read_lines os w0 (snd (clean_macos_path (strip answer))))
      as [lines|]; [|skip_emit; apply yields_ret; exact Hall].
    eapply yields_bind.
    { apply (yields_for_list _ (Forall (fun p => path_exists os w0 p = true)));
        [exact Hall|].
      intros acc path Hacc.
      destruct (path_exists os w0 (snd (clean_macos_path path))) eqn:He.
      - apply yields_ret. apply Forall_app. split; [exact Hacc|].
        constructor; [exact He | constructor].
      - skip_emit. apply yields_ret. exact Hacc. }
    intros loaded l3 Hloaded. cbv beta.
    destruct loaded as [|p loaded]; skip_emit; apply yields_ret.
    - constructor.
    - intros files [= <-]. split; [discriminate | exact Hloaded]. }
  destruct (negb (truthy (strip line)));
    [skip_emit; apply yields_ret; exact Hall|].
  apply (yields_bind _ (fun _ _ => True)).
  { destruct ((4000 <? String.length (strip line))
              && negb (endswith_any (strip line) [" "; tab_chars; "/"])).
    - skip_emit.
      apply (yields_bind _ (fun _ _ => True)); [apply yields_input; intros ?; exact I|].
      intros retry l2 _. cbv beta. apply yields_ret. exact I.
    - apply yields_ret. exact I. }
  intros go_on l1 _. cbv beta.
  destruct (negb go_on); [apply yields_ret; exact Hall|].
  apply (yields_bind _ (fun w _ => w0 = w));
    [apply yields_get_world; intros w Hw; exact Hw|].
  intros w l2 <-. cbv beta.
  eapply yields_bind.
  { apply (yields_for_list _ (Forall (fun p => path_exists os w0 p = true)));
      [constructor|].
    intros acc path Hacc.
    destruct (clean_macos_path path) as [original_path unescaped_path].
    destruct (path_exists os w0 original_path) eqn:He.
    - apply yields_ret. apply Forall_app. split; [exact Hacc|].
      constructor; [exact He | constructor].
    - destruct (path_exists os w0 unescaped_path) eqn:Hu.
      + apply yields_ret. apply Forall_app. split; [exact Hacc|].
        constructor; [exact Hu | constructor].
      + skip_emit. apply yields_ret. exact Hacc. }
  intros valid_paths l3 Hvalid. cbv beta.
  destruct valid_paths as [|p valid_paths];
    [skip_emit; apply yields_ret; exact Hall|].
  skip_emit.
  apply (yields_bind _ (fun _ _ => True)); [apply yields_input; intros ?; exact I|].
  intros add_more l5 _. cbv beta.
  assert (Hboth : Forall (fun p => path_exists os w0 p = true)
                         (all_files ++ p :: valid_paths))
    by (apply Forall_app; split; assumption).
  destruct (one_of (lower (strip add_more)) ["y"; "yes"]); apply yields_ret.
  - exact Hboth.
  - intros files [= <-]. split; [|exact Hboth].
    destruct all_files; discriminate.
Qed.

(** X4.  The sources [get_file_paths] returns are never an empty list, each
    of them exists, and the method changes nothing in the file system. *)
Theorem collected_sources_exist
        (st st' : io_state W) (files : list string) (log : list event) :
  get_file_paths os st = (Ok (Some files), log, st') ->
  files <> []
  /\ Forall (fun p => path_exists os (world st) p = true) files
  /\ world st' = world st.
Proof.
  intros Hrun.
  destruct (yields_run (eq (world st)) _ _ st st' (Some files) log
                       (get_file_paths_yields (world st)) eq_refl Hrun)
    as [H Hw].
  destruct (H files eq_refl) as [Hne Hall]. auto.
Qed.

End SourceFacts.

Lemma collected_sources_exist_witness :
  Forall (fun p => path_exists Sim.ops Sim.one_file p = true) ["/data/a.bin"].
Proof.
  apply (collected_sources_exist
           Sim.ops
           (Sim.start ["/data/missing /data/a.bin"; "n"] Sim.one_file)
           (Sim.start [] Sim.one_file)
           ["/data/a.bin"]
           [Prompt "Path(s): ";
            PrintWarning "File or folder not found: /data/missing";
            PrintSuccess "Added"; Prompt "Add more files? (y/n): "]).
  reflexivity.
Defined.

(** ** ArchivePlanner: what a create run does to the preferences *)

Ltac skip_bind :=
  match goal with
  | |- yields _ _ (bind _ _) =>
      apply (yields_bind _ (fun _ _ => True)); [apply yields_trivial|];
      intros ? ? _; cbv beta
  end.

Lemma same_except_last_refl (p : preferences) :
  same_except_last_output_directory p p.
Proof. repeat split. Qed.

Lemma same_except_last_trans (p q r : preferences) :
  same_except_last_output_directory p q ->
  same_except_last_output_directory q r ->
  same_except_last_output_directory p r.
Proof.
  unfold same_except_last_output_directory.
  intros (H1 & H2 & H3 & H4 & H5 & H6) (G1 & G2 & G3 & G4 & G5 & G6).
  repeat split; congruence.
Qed.

Lemma same_except_last_set (p : preferences) (dir : string) :
  same_except_last_output_directory p (set_last_output_directory p dir).
Proof. repeat split. Qed.

Section PreferenceFlow.
Context {W : Type} (os : os_ops W) (seven_zip_path : string).

Lemma get_output_path_yields (prefs : preferences) (default_name : string)
      (source_files : option (list string)) :
  yields any_world
         (fun r _ => same_except_last_output_directory prefs (snd r))
         (get_output_path os prefs default_name source_files).
Proof.
  unfold get_output_path.
  skip_bind. skip_bind. skip_bind.
  match goal with |- yields _ _ (if ?c then _ else _) => destruct c end;
    [apply yields_ret; apply same_except_last_refl|].
  skip_bind.
  match goal with
  | |- yields _ _ (bind ?m _) =>
      apply (yields_bind _ (fun p _ => same_except_last_output_directory prefs p))
  end.
  { match goal with |- yields _ _ (if ?c then _ else _) => destruct c end.
    - skip_bind. apply yields_ret. apply same_except_last_set.
    - apply yields_ret. apply same_except_last_refl. }
  intros prefs' la Hp. cbv beta.
  skip_bind.
  match goal with |- yields _ _ (if ?c then _ else _) => destruct c end;
    [|apply yields_ret; exact Hp].
  skip_bind. skip_bind.
  match goal with |- yields _ _ (match ?x with _ => _ end) => destruct x end.
  - skip_bind. skip_bind. apply yields_ret. exact Hp.
  - skip_bind. apply yields_ret. exact Hp.
Qed.

Lemma resolve_existing_output_yields (prefs : preferences) (output_path : string) :
  yields any_world
         (fun r _ => same_except_last_output_directory prefs (snd r))
         (resolve_existing_output os prefs output_path).
Proof.
  unfold resolve_existing_output.
  skip_bind.
  match goal with |- yields _ _ (if ?c then _ else _) => destruct c end;
    [|apply yields_ret; apply same_except_last_refl].
  skip_bind. skip_bind.
  match goal with |- yields _ _ (if ?c then _ else _) => destruct c end.
  { eapply yields_bind; [apply get_output_path_yields|].
    intros [path prefs'] la Hp. cbv beta. cbn [snd] in Hp.
    skip_bind.
    match goal with |- yields _ _ (if ?c then _ else _) => destruct c end.
    - skip_bind. apply yields_ret. exact Hp.
    - apply yields_ret. exact Hp. }
  match goal with |- yields _ _ (if ?c then _ else _) => destruct c end;
    [skip_bind; apply yields_ret; apply same_except_last_refl|].
  match goal with |- yields _ _ (if ?c then _ else _) => destruct c end;
    [apply yields_ret; apply same_except_last_refl|].
  skip_bind. apply yields_ret. apply same_except_last_refl.
Qed.

Lemma create_archive_plan_prefs_yields (prefs : preferences) :
  yields any_world
         (fun r _ => same_except_last_output_directory prefs (snd r))
         (create_archive_plan os seven_zip_path prefs).
Proof.
  unfold create_archive_plan.
  skip_bind.
  match goal with
  | |- yields _ _ (match ?x with _ => _ end) => destruct x as [[|f files]|]
  end;
    try (skip_bind; apply yields_ret; apply same_except_last_refl).
  skip_bind.
  match goal with |- yields _ _ (match ?x with _ => _ end) => destruct x end;
    [skip_bind; apply yields_ret; apply same_except_last_refl|].
  eapply yields_bind; [apply get_output_path_yields|].
  intros [path prefs1] la H1. cbv beta. cbn [snd] in H1.
  eapply yields_bind; [apply resolve_existing_output_yields|].
  intros [chosen prefs2] lb H2. cbv beta. cbn [snd] in H2.
  pose proof (same_except_last_trans _ _ _ H1 H2) as H12.
  destruct chosen as [[path' overwrite]|]; [|apply yields_ret; exact H12].
  skip_bind.
  match goal with |- yields _ _ (if ?c then _ else _) => destruct c end.
  - skip_bind. apply yields_ret. exact H12.
  - skip_bind. apply yields_ret. exact H12.
Qed.

Lemma create_archive_prefs_yields (prefs : preferences) :
  yields any_world (fun prefs' _ => same_except_last_output_directory prefs prefs')
         (create_archive os seven_zip_path prefs).
Proof.
  unfold create_archive.
  eapply yields_bind; [apply create_archive_plan_prefs_yields|].
  intros [plan prefs1] la H1. cbv beta. cbn [snd] in H1.
  destruct plan as [plan|]; [|apply yields_ret; exact H1].
  skip_bind. skip_bind.
  match goal with |- yields _ _ (match ?x with _ => _ end) => destruct x as [[| |]|] end;
    repeat skip_bind; apply yields_ret; exact H1.
Qed.

(** X5.  A run of [create_archive] leaves every preference as it was, except
    [last_output_directory]. *)
Theorem create_changes_only_the_last_directory (prefs prefs' : preferences)
        (st st' : io_state W) (log : list event) :
  create_archive os seven_zip_path prefs st = (Ok prefs', log, st') ->
  same_except_last_output_directory prefs prefs'.
Proof.
  intros Hrun.
  destruct (yields_run any_world _ _ st st' prefs' log
                       (create_archive_prefs_yields prefs) I Hrun) as [H _].
  exact H.
Qed.

End PreferenceFlow.

Lemma create_changes_only_the_last_directory_witness :
  same_except_last_output_directory
    Sim.prefs0 (set_last_output_directory Sim.prefs0 "/tmp").
Proof.
  apply (create_changes_only_the_last_directory
           Sim.ops "7zz" Sim.prefs0 _ Sim.to_tar
           (snd (create_archive Sim.ops "7zz" Sim.prefs0 Sim.to_tar))
           (snd (fst (create_archive Sim.ops "7zz" Sim.prefs0 Sim.to_tar)))).
  vm_compute. reflexivity.
Defined.

(** ** The processes a session launches *)

Section LaunchFacts.
Context {W : Type} (os : os_ops W).















End LaunchFacts.

Lemma bind_log {W A B} (m : io W A) (f : A -> io W B) (st : io_state W) :
  snd (fst (bind m f st))
  = match m st with
    | (Ok a, l, s) => l ++ snd (fst (f a s))
    | (Raise _, l, _) => l
    end.
Proof.
  unfold bind. destruct (m st) as [[[a|e] l] s]; [|reflexivity].
  destruct (f a s) as [[r l'] s']. reflexivity.
Qed.


Section CreateLaunchFacts.
Context {W : Type} (os : os_ops W) (seven_zip_path : string).



End CreateLaunchFacts.

(** ** ArchivePlanner: the plans that are built *)

(** Splits a run of [bind m f] that returned into the run of [m] and the
    run of the continuation. *)
Ltac split_bind H :=
  apply bind_ok in H;
  let a := fresh "a" in
  let l1 := fresh "l" in
  let s1 := fresh "s" in
  let l2 := fresh "l" in
  let Hm := fresh "Hm" in
  let Hl := fresh "Hl" in
  destruct H as (a & l1 & s1 & l2 & Hm & H & Hl); cbv beta in H.

Section PlanFacts.
Context {W : Type} (os : os_ops W) (seven_zip_path : string).

Ltac pass_emit K :=
  apply (yields_bind K (fun _ _ => True)); [apply yields_emit; exact I|];
  intros _ ? _; cbv beta.

Lemma choose_password_yields (K : W -> Prop) (output_ext : string) :
  yields K (fun o _ => forall pw, o = Some pw -> 4 <= String.length pw)
         (choose_password (W := W) output_ext).
Proof.
  unfold choose_password. destruct (String.eqb output_ext "tar").
  - pass_emit K. pass_emit K. apply yields_ret. discriminate.
  - eapply yields_weaken; [|apply get_password_yields].
    intros o l [H _]. exact H.
Qed.

Lemma create_archive_from_password_yields (K : W -> Prop)
      (validated_files : list string) (output_path : string)
      (overwrite_existing : bool) (prefs : preferences) :
  yields K
         (fun o _ =>
            forall plan, o = Some plan ->
              plan_files plan = validated_files
              /\ plan_output_path plan = output_path
              /\ plan_overwrite_existing plan = overwrite_existing
              /\ (forall pw, plan_password plan = Some pw -> 4 <= String.length pw)
              /\ (forall size, plan_split_size plan = Some size -> truthy size = true)
              /\ (compression_preset prefs <> "custom" \/ level_in_range prefs
                  -> (0 <= plan_compression_level plan <= 9)%Z)
              /\ plan_cmd plan
                 = create_cmd seven_zip_path output_path (output_ext_of output_path)
                              (plan_compression_level plan) (plan_split_size plan)
                              overwrite_existing (plan_password plan)
                              validated_files)
         (create_archive_from_password os seven_zip_path validated_files
                                       output_path overwrite_existing prefs).
Proof.
  unfold create_archive_from_password.
  eapply yields_bind; [apply choose_password_yields|].
  intros password la Hpw. cbv beta.
  eapply yields_bind; [apply get_compression_level_yields|].
  intros level lb [_ Hlevel]. cbv beta.
  apply (yields_bind _ (fun _ _ => True));
    [apply yields_get_world; intros ? ?; exact I|].
  intros w lc _. cbv beta.
  apply (yields_bind _ (fun _ _ => True)); [apply kept_check_disk_space|].
  intros enough ld _. cbv beta.
  destruct (negb enough); [pass_emit K; apply yields_ret; discriminate|].
  eapply yields_bind; [apply choose_split_size_yields|].
  intros split_size le Hsplit. cbv beta.
  apply (yields_bind _ (fun _ _ => True)).
  { destruct password as [pw|]; [destruct (truthy pw)|];
      first [apply yields_ret; exact I | apply yields_emit; exact I]. }
  intros _ lf _. cbv beta.
  apply (yields_bind _ (fun _ _ => True)); [apply kept_check_system_resources|].
  intros proceed lg _. cbv beta.
  destruct (negb proceed); [pass_emit K; apply yields_ret; discriminate|].
  apply (yields_bind _ (fun _ _ => True)); [apply yields_input; intros ?; exact I|].
  intros confirm lh _. cbv beta.
  destruct (negb (String.eqb (lower confirm) "y")); apply yields_ret;
    [discriminate|].
  intros plan [= <-]. cbn. auto 10.
Qed.

(** X7.  Every plan [create_archive] builds has at least one source, none of
    them under [/System], [/usr/bin] or [/private]; a destination whose
    absolute path is outside [/System] and [/usr/bin]; a password of at
    least four characters if it has one; a split size that is not empty if
    it has one; a level within 0..9 unless the stored custom level is out
    of that range; and its command is the 7-Zip binary with [a], the flags
    for these choices, the destination and the sources. *)
Theorem planned_archive_is_well_formed
        (prefs prefs' : preferences) (st st' : io_state W)
        (plan : create_plan) (log : list event) :
  create_archive_plan os seven_zip_path prefs st = (Ok (Some plan, prefs'), log, st') ->
  plan_files plan <> []
  /\ Forall (fun f => denied_prefix f = false) (plan_files plan)
  /\ startswith (path_abspath os (world st') (plan_output_path plan)) "/System" = false
  /\ startswith (path_abspath os (world st') (plan_output_path plan)) "/usr/bin" = false
  /\ (forall pw, plan_password plan = Some pw -> 4 <= String.length pw)
  /\ (forall size, plan_split_size plan = Some size -> size <> EmptyString)
  /\ (compression_preset prefs <> "custom" \/ level_in_range prefs
      -> (0 <= plan_compression_level plan <= 9)%Z)
  /\ plan_cmd plan
     = create_cmd seven_zip_path (plan_output_path plan)
                  (output_ext_of (plan_output_path plan))
                  (plan_compression_level plan) (plan_split_size plan)
                  (plan_overwrite_existing plan) (plan_password plan)
                  (plan_files plan).
Proof.
  intros H. unfold create_archive_plan in H.
  split_bind H.
  destruct a as [[|f fs]|].
  1, 3: split_bind H; unfold ret in H; discriminate H.
  split_bind H.
  destruct (validate_files_for_archiving os a (f :: fs)) as [|v vs] eqn:Hval.
  { split_bind H. unfold ret in H. discriminate H. }
  split_bind H. destruct a0 as [output_path prefs0].
  pose proof (yields_run any_world _ _ _ _ _ _
                         (get_output_path_yields os prefs _ _) I Hm1) as [Hp0 _].
  split_bind H. destruct a0 as [[[out ow]|] prefs1].
  2: { unfold ret in H. discriminate H. }
  pose proof (yields_run any_world _ _ _ _ _ _
                         (resolve_existing_output_yields os prefs0 _) I Hm2)
    as [Hp1 _].
  cbn [snd] in Hp0, Hp1.
  split_bind H.
  destruct (startswith (path_abspath os a0 out) "/System"
            || startswith (path_abspath os a0 out) "/usr/bin") eqn:Hsys.
  { split_bind H. unfold ret in H. discriminate H. }
  apply orb_false_iff in Hsys. destruct Hsys as [Hsys Hbin].
  split_bind H. unfold ret in H. injection H as -> _ <- <-.
  unfold get_world in Hm3. injection Hm3 as <- _ <-.
  destruct (yields_run (eq (world s2)) _ _ _ _ _ _
                       (create_archive_from_password_yields
                          (eq (world s2)) (v :: vs) out ow prefs1)
                       eq_refl Hm4) as [Hplan Hw].
  destruct (Hplan plan eq_refl) as (Hf & Ho & Hov & Hpw & Hsp & Hlv & Hcmd).
  rewrite Hf, Ho, Hov. rewrite <- Hw.
  split; [discriminate|].
  split.
  { rewrite <- Hval. unfold validate_files_for_archiving.
    rewrite validate_files_loop_flat_map. cbn [app].
    apply Forall_forall. intros p Hin. apply in_flat_map in Hin.
    destruct Hin as [c [_ Hc]].
    destruct (accepted_path os a c) as [q|] eqn:Hq; cbn [list_of_option In] in Hc;
      [|contradiction].
    destruct Hc as [<-|[]]. apply (accepted_path_not_denied os a c q Hq). }
  split; [exact Hsys|]. split; [exact Hbin|]. split; [exact Hpw|].
  split; [|split; [|exact Hcmd]].
  - intros size Hs Hempty. specialize (Hsp size Hs). subst size. discriminate.
  - intros Hr. apply Hlv.
    assert (Hsame : same_except_last_output_directory prefs prefs1)
      by (eapply same_except_last_trans; eassumption).
    destruct Hsame as (Hpre & Hcl & _).
    unfold level_in_range in *. rewrite <- Hpre, <- Hcl. exact Hr.
Qed.

End PlanFacts.

Lemma planned_archive_is_well_formed_witness :
  match fst (fst (create_archive_plan Sim.ops "7zz" Sim.prefs0 Sim.to_dot_tar)) with
  | Ok (Some plan, _) =>
      plan_files plan <> []
      /\ Forall (fun f => denied_prefix f = false) (plan_files plan)
      /\ (forall pw, plan_password plan = Some pw -> 4 <= String.length pw)
  | _ => False
  end.
Proof.
  destruct (create_archive_plan Sim.ops "7zz" Sim.prefs0 Sim.to_dot_tar)
    as [[r log] st'] eqn:E.
  assert (E' := E). vm_compute in E'. injection E' as Hr Hl Hs.
  subst r log st'. cbn [fst].
  destruct (planned_archive_is_well_formed Sim.ops "7zz" _ _ _ _ _ _ E)
    as (H1 & H2 & _ & _ & H5 & _).
  split; [exact H1 | split; [exact H2 | exact H5]].
Defined.

(** ** PathResolver: batches of candidates *)

Section CandidateFacts.
Context {W : Type} (os : os_ops W).

(** X8.  [validate_files_for_archiving] decides candidate by candidate: the
    result for two lists put together is the two results put together, and
    it never has more paths than there were candidates. *)
Theorem validation_is_per_candidate (w : W) (l1 l2 : list string) :
  validate_files_for_archiving os w (l1 ++ l2)
  = validate_files_for_archiving os w l1 ++ validate_files_for_archiving os w l2
  /\ List.length (validate_files_for_archiving os w l1) <= List.length l1.
Proof.
  unfold validate_files_for_archiving. rewrite !validate_files_loop_flat_map.
  cbn [app]. split; [apply flat_map_app|].
  induction l1 as [|c l1 IH]; [constructor|].
  cbn [flat_map]. rewrite length_app. cbn [List.length].
  destruct (accepted_path os w c); cbn [list_of_option List.length]; lia.
Qed.

End CandidateFacts.

(** ** PathResolver: the two forms of a path *)

Lemma lstrip_by_all_chars (p q : ascii -> bool) (s : string) :
  all_chars q s = true -> all_chars q (lstrip_by p s) = true.
Proof.
  unfold all_chars. induction s as [|c s IH]; [reflexivity|].
  cbn [lstrip_by list_ascii_of_string forallb]. intros H.
  apply andb_true_iff in H. destruct H as [Hc Hs].
  destruct (p c); [apply IH; exact Hs|].
  cbn [list_ascii_of_string forallb]. rewrite Hc, Hs. reflexivity.
Qed.

Lemma rstrip_by_all_chars (p q : ascii -> bool) (s : string) :
  all_chars q s = true -> all_chars q (rstrip_by p s) = true.
Proof.
  unfold all_chars. induction s as [|c s IH]; [reflexivity|].
  cbn [rstrip_by list_ascii_of_string forallb]. intros H.
  apply andb_true_iff in H. destruct H as [Hc Hs]. specialize (IH Hs).
  destruct (rstrip_by p s) as [|c' r].
  - destruct (p c); [reflexivity|].
    cbn [list_ascii_of_string forallb]. rewrite Hc. reflexivity.
  - cbn [list_ascii_of_string forallb] in *. rewrite Hc. exact IH.
Qed.

Lemma replace_from_no_backslash (old new : string) (c : ascii) (s : string) :
  no_backslash s = true ->
  replace_from (String "\" (String c old)) new 0 s = s.
Proof.
  unfold no_backslash, all_chars. induction s as [|a s IH]; [reflexivity|].
  cbn [list_ascii_of_string forallb]. intros H.
  apply andb_true_iff in H. destruct H as [Ha Hs].
  cbn [replace_from prefix].
  destruct (ascii_dec "\" a) as [<-|Hne]; [discriminate Ha|].
  rewrite (IH Hs). reflexivity.
Qed.

(** X9.  A path without a backslash has one form only: the text stripped of
    blanks and quotes is also what [clean_macos_path] gives as the
    unescaped form, so no second candidate is tried for it. *)
Theorem path_without_backslash_has_one_form (path : string) :
  no_backslash path = true ->
  snd (clean_macos_path path) = fst (clean_macos_path path)
  /\ no_backslash (fst (clean_macos_path path)) = true.
Proof.
  intros H. unfold clean_macos_path. cbn [fst snd].
  assert (Hc : no_backslash (strip_chars quote_chars (strip path)) = true).
  { unfold strip_chars, strip, no_backslash.
    apply rstrip_by_all_chars, lstrip_by_all_chars,
          rstrip_by_all_chars, lstrip_by_all_chars. exact H. }
  split; [|exact Hc].
  unfold replace.
  rewrite !(replace_from_no_backslash _ _ _ (strip_chars quote_chars (strip path)) Hc).
  reflexivity.
Qed.

Lemma path_without_backslash_has_one_form_witness :
  snd (clean_macos_path " '/data/my file.txt' ") = "/data/my file.txt".
Proof.
  destruct (path_without_backslash_has_one_form " '/data/my file.txt' " eq_refl)
    as [H _].
  rewrite H. reflexivity.
Defined.

(** ** ResourceEstimator: levels and answers *)

Lemma memory_multiplier_monotone (a b : Z) :
  (0 <= a)%Z -> (a <= b)%Z -> (b <= 9)%Z ->
  (memory_multiplier a <= memory_multiplier b)%Q.
Proof.
  intros H0 Hab H9.
  assert (Ha : (a = 0 \/ a = 1 \/ a = 2 \/ a = 3 \/ a = 4 \/ a = 5 \/ a = 6
                \/ a = 7 \/ a = 8 \/ a = 9)%Z) by lia.
  assert (Hb : (b = 0 \/ b = 1 \/ b = 2 \/ b = 3 \/ b = 4 \/ b = 5 \/ b = 6
                \/ b = 7 \/ b = 8 \/ b = 9)%Z) by lia.
  destruct Ha as [->|[->|[->|[->|[->|[->|[->|[->|[->| ->]]]]]]]]];
    destruct Hb as [->|[->|[->|[->|[->|[->|[->|[->|[->| ->]]]]]]]]];
    first [lia | cbn; unfold Qle; cbn; lia].
Qed.

Lemma Qltb_le_trans (x y z : Q) :
  Qltb x y = true -> (y <= z)%Q -> Qltb x z = true.
Proof.
  unfold Qltb. intros Hxy Hyz.
  apply negb_true_iff in Hxy. apply negb_true_iff.
  destruct (Qle_bool z x) eqn:Hzx; [|reflexivity].
  apply Qle_bool_iff in Hzx.
  assert (Hyx : (y <= x)%Q) by (eapply Qle_trans; eassumption).
  apply Qle_bool_iff in Hyx. congruence.
Qed.

Section LevelFacts.
Context {W : Type} (os : os_ops W).

(** X10.  Between levels 0 and 9 the warnings only grow with the level: when
    the check has a warning to show at one level, it has one at every
    higher level for the same state of the system. *)
Theorem warnings_grow_with_the_level (w : W) (a b : Z) :
  (0 <= a)%Z -> (a <= b)%Z -> (b <= 9)%Z ->
  resource_warnings os w a <> [] -> resource_warnings os w b <> [].
Proof.
  intros H0 Hab H9. unfold resource_warnings.
  destruct (cpu_warnings (loadavg os w)) as [|c cs].
  2:{ intros _ H. apply app_eq_nil in H. destruct H as [_ H]. discriminate. }
  rewrite !app_nil_r. unfold memory_warnings.
  destruct (vm_stat os w) as [| |page_size free inactive speculative].
  - destruct (8 <=? a)%Z eqn:Ha; [|intros H; contradiction].
    apply Z.leb_le in Ha.
    assert (Hb : (8 <=? b)%Z = true) by (apply Z.leb_le; lia).
    rewrite Hb. discriminate.
  - intros H. exact H.
  - set (available := (inject_Z ((free + inactive + speculative) * page_size)
                       / inject_Z (1024 ^ 3))%Q).
    destruct (Qltb available 2); [intros _ H; apply app_eq_nil in H;
                                  destruct H as [_ H]; discriminate|].
    rewrite !app_nil_r.
    destruct (Qltb available (memory_multiplier a)) eqn:Hlow; [|intros H; contradiction].
    rewrite (Qltb_le_trans _ _ _ Hlow (memory_multiplier_monotone a b H0 Hab H9)).
    discriminate.
Qed.

(** X11.  The answer [yes] to the prompt of the resource check is taken as
    consent below level 8 and as refusal from level 8 on, where only [y]
    counts. *)
Theorem yes_is_consent_only_below_level_8
        (compression_level total_size : Z) (st : io_state W)
        (answer : string) (rest : list string) :
  stdin st = answer :: rest ->
  lower answer = "yes" ->
  resource_warnings os (world st) compression_level <> [] ->
  fst (fst (check_system_resources_before_operation
              os compression_level total_size st))
  = Ok (compression_level <? 8)%Z.
Proof.
  intros Hin Hyes Hws.
  unfold check_system_resources_before_operation, bind, get_world.
  fold (resource_warnings os (world st) compression_level).
  destruct (resource_warnings os (world st) compression_level) as [|w0 ws];
    [contradiction|].
  unfold emit, input, ret. rewrite Z.ltb_antisym.
  destruct (8 <=? compression_level)%Z; cbn [fst snd negb]; rewrite Hin;
    cbn [fst snd]; rewrite Hyes; reflexivity.
Qed.

End LevelFacts.

Lemma warnings_grow_with_the_level_witness :
  resource_warnings
    Sim.ops
    {| Sim.sim_files := []; Sim.sim_dirs := []; Sim.sim_exits := [];
       Sim.sim_vm := VmStats 16384 262144 0 0; Sim.sim_cpu := CpuLoad 0 (Some 8%Z);
       Sim.sim_free := 0 |} 9 <> [].
Proof.
  apply (warnings_grow_with_the_level
           Sim.ops
           {| Sim.sim_files := []; Sim.sim_dirs := []; Sim.sim_exits := [];
              Sim.sim_vm := VmStats 16384 262144 0 0;
              Sim.sim_cpu := CpuLoad 0 (Some 8%Z); Sim.sim_free := 0 |}
           6 9); [lia | lia | lia |].
  vm_compute. discriminate.
Defined.

Lemma yes_is_consent_only_below_level_8_witness :
  fst (fst (check_system_resources_before_operation
              Sim.ops 5 0
              (Sim.start ["YES"]
                 {| Sim.sim_files := []; Sim.sim_dirs := []; Sim.sim_exits := [];
                    Sim.sim_vm := VmStats 16384 65536 0 0;
                    Sim.sim_cpu := CpuLoad 0 (Some 8%Z); Sim.sim_free := 0 |})))
  = Ok true.
Proof.
  apply (yes_is_consent_only_below_level_8
           Sim.ops 5 0
           (Sim.start ["YES"]
              {| Sim.sim_files := []; Sim.sim_dirs := []; Sim.sim_exits := [];
                 Sim.sim_vm := VmStats 16384 65536 0 0;
                 Sim.sim_cpu := CpuLoad 0 (Some 8%Z); Sim.sim_free := 0 |})
           "YES" []).
  - reflexivity.
  - reflexivity.
  - vm_compute. discriminate.
Defined.

(** ** ResourceEstimator: the disk space check *)

Section DiskFacts.
Context {W : Type} (os : os_ops W).

(** X12.  [check_disk_space] never raises.  It answers [False] only when the
    estimate is known and not zero, the free space is below 1.2 times the
    estimate, and the user answered the prompt with something other than
    [y] or [yes]; when the free space cannot be read, or the input ends at
    the prompt, it answers [True]. *)
Theorem disk_check_refuses_only_on_request
        (output_path : string) (estimated_size_mb : option Q) (st : io_state W) :
  let run := check_disk_space os output_path estimated_size_mb st in
  let output_dir :=
    if truthy (dirname output_path) then dirname output_path
    else getcwd os (world st) in
  (exists b, fst (fst run) = Ok b)
  /\ (fst (fst run) = Ok false ->
      exists estimate free_bytes answer rest,
        estimated_size_mb = Some estimate
        /\ Qeq_bool estimate 0 = false
        /\ disk_free os (world st) output_dir = Some free_bytes
        /\ Qltb (inject_Z free_bytes / inject_Z (1024 * 1024))
                (estimate * (12 # 10)) = true
        /\ stdin st = answer :: rest
        /\ one_of (lower (strip answer)) ["y"; "yes"] = false)
  /\ (disk_free os (world st) output_dir = None -> run = (Ok true, [], st))
  /\ (stdin st = [] -> fst (fst run) = Ok true).
Proof.
  cbv zeta.
  unfold check_disk_space, try_except, bind, get_world, raise, ret, emit, input.
  cbn [fst snd world].
  destruct (disk_free os (world st)
                      (if truthy (dirname output_path) then dirname output_path
                       else getcwd os (world st))) as [free_bytes|] eqn:Hfree.
  2:{ cbn. repeat split; eauto; discriminate. }
  destruct estimated_size_mb as [estimate|].
  2:{ destruct (Qltb (inject_Z free_bytes / inject_Z (1024 * 1024) / 1024) 1);
        cbn; repeat split; eauto; discriminate. }
  destruct (Qeq_bool estimate 0) eqn:Hzero.
  { destruct (Qltb (inject_Z free_bytes / inject_Z (1024 * 1024) / 1024) 1);
      cbn; repeat split; eauto; discriminate. }
  destruct (Qltb (inject_Z free_bytes / inject_Z (1024 * 1024))
                 (estimate * (12 # 10))) eqn:Hshort.
  2:{ cbn. repeat split; eauto; discriminate. }
  destruct (stdin st) as [|answer rest] eqn:Hin.
  { cbn. repeat split; eauto; discriminate. }
  cbn [fst snd app].
  destruct (one_of (lower (strip answer)) ["y"; "yes"]) eqn:Hans; cbn [fst snd].
  - repeat split; eauto; discriminate.
  - split; [eauto|]. split; [|split; discriminate].
    intros _. exists estimate, free_bytes, answer, rest. auto 10.
Qed.

End DiskFacts.

(** ** ArchivePlanner: overwriting and the flags *)

Section OverwriteFacts.
Context {W : Type} (os : os_ops W).

(** X13.  [create_archive] sets [overwrite_existing] only when the
    destination exists and the user answered the menu with [1]; the path
    and the preferences are then unchanged.  A destination that does not
    exist is kept without a question and without the overwrite mark. *)
Theorem overwrite_only_on_request
        (prefs : preferences) (output_path : string) (st : io_state W) :
  (forall chosen prefs' log st',
      resolve_existing_output os prefs output_path st
      = (Ok (Some (chosen, true), prefs'), log, st') ->
      path_exists os (world st) output_path = true
      /\ chosen = output_path /\ prefs' = prefs
      /\ exists answer rest, stdin st = answer :: rest /\ strip answer = "1")
  /\ (path_exists os (world st) output_path = false ->
      resolve_existing_output os prefs output_path st
      = (Ok (Some (output_path, false), prefs), [], st)).
Proof.
  split.
  - intros chosen prefs' log st' H. unfold resolve_existing_output in H.
    split_bind H. unfold get_world in Hm. injection Hm as <- _ <-.
    destruct (path_exists os (world st) output_path);
      [|unfold ret in H; discriminate H].
    split; [reflexivity|].
    split_bind H. split_bind H.
    unfold emit in Hm. injection Hm as _ _ <-.
    unfold input in Hm0.
    destruct (stdin st) as [|answer rest] eqn:Hin; [discriminate Hm0|].
    injection Hm0 as <- _ <-.
    destruct (String.eqb (strip answer) "2").
    { split_bind H. destruct a0 as [p q]. split_bind H.
      destruct (path_exists os a0 p); [split_bind H|]; unfold ret in H;
        discriminate H. }
    destruct (String.eqb (strip answer) "3");
      [split_bind H; unfold ret in H; discriminate H|].
    destruct (String.eqb (strip answer) "1") eqn:H1.
    + unfold ret in H. injection H as <- <- _ _.
      apply String.eqb_eq in H1. eauto 10.
    + split_bind H. unfold ret in H. discriminate H.
  - intros Hne. unfold resolve_existing_output, bind, get_world.
    rewrite Hne. reflexivity.
Qed.

End OverwriteFacts.

Lemma truthy_true (s : string) : truthy s = true <-> s <> EmptyString.
Proof.
  unfold truthy. rewrite negb_true_iff. apply String.eqb_neq.
Qed.

Lemma or_iff_both (A A' B B' : Prop) :
  (A <-> A') -> (B <-> B') -> (A \/ B <-> A' \/ B').
Proof. tauto. Qed.

(** The flags of the create command, one by one. *)
Lemma in_create_flags
      (flag output_ext : string) (compression_level : Z)
      (split_size : option string) (overwrite_existing : bool)
      (password : option string) :
  In flag (create_flags output_ext compression_level split_size
                        overwrite_existing password)
  <-> (output_ext <> "tar" /\ flag = ("-mx" ++ str_of_Z compression_level)%string)
      \/ (exists size, split_size = Some size /\ size <> EmptyString
                       /\ flag = ("-v" ++ size)%string)
      \/ (overwrite_existing = true /\ flag = "-y")
      \/ (exists pw, password = Some pw /\ pw <> EmptyString
                     /\ (flag = ("-p" ++ pw)%string
                         \/ (output_ext = "7z" /\ flag = "-mhe=on"))).
Proof.
  unfold create_flags. rewrite !in_app_iff.
  apply or_iff_both; [|apply or_iff_both; [|apply or_iff_both]].
  - destruct (String.eqb output_ext "tar") eqn:Htar; cbn [negb In].
    + apply String.eqb_eq in Htar. tauto.
    + apply String.eqb_neq in Htar. intuition congruence.
  - destruct split_size as [size|].
    + destruct (truthy size) eqn:Ht; cbn [In].
      * apply truthy_true in Ht. split.
        -- intros [<-|[]]. eauto.
        -- intros (size' & [= <-] & _ & ->). auto.
      * split; [intros []|]. intros (size' & [= <-] & Hne & _).
        apply truthy_true in Hne. congruence.
    + cbn [In]. split; [intros []|]. intros (size' & H & _). discriminate H.
  - destruct overwrite_existing; cbn [In]; intuition congruence.
  - destruct password as [pw|].
    + destruct (truthy pw) eqn:Ht.
      * apply truthy_true in Ht. rewrite in_app_iff.
        destruct (String.eqb output_ext "7z") eqn:H7; cbn [In].
        -- apply String.eqb_eq in H7. split.
           ++ intros [[<-|[]]|[<-|[]]]; eauto 8.
           ++ intros (pw' & [= <-] & _ & [->|[_ ->]]); auto.
        -- apply String.eqb_neq in H7. split.
           ++ intros [[<-|[]]|[]]. eauto 8.
           ++ intros (pw' & [= <-] & _ & [->|[H _]]); [auto | contradiction].
      * cbn [In]. split; [intros []|]. intros (pw' & [= <-] & Hne & _).
        apply truthy_true in Hne. congruence.
    + cbn [In]. split; [intros []|]. intros (pw' & H & _). discriminate H.
Qed.

(** X14.  In the flags of the create command, [-y] stands exactly when the
    user chose to overwrite, [-mhe=on] exactly when the format is [7z] and
    a password that is not empty is set, and the level flag [-mx...] is
    left out exactly for [tar]. *)
Theorem create_flags_follow_the_choices
        (output_ext : string) (compression_level : Z)
        (split_size : option string) (overwrite_existing : bool)
        (password : option string) :
  let flags := create_flags output_ext compression_level split_size
                            overwrite_existing password in
  (In "-y" flags <-> overwrite_existing = true)
  /\ (In "-mhe=on" flags
      <-> output_ext = "7z"
          /\ exists pw, password = Some pw /\ pw <> EmptyString)
  /\ (In ("-mx" ++ str_of_Z compression_level)%string flags <-> output_ext <> "tar").
Proof.
  cbv zeta. rewrite !in_create_flags. split; [|split].
  - split; [|auto].
    intros [[_ H]|[(size & _ & _ & H)|[[H _]|(pw & _ & _ & [H|[_ H]])]]];
      first [exact H | discriminate H].
  - split.
    + intros [[_ H]|[(size & _ & _ & H)|[[_ H]|(pw & Hp & Hne & [H|[H7 _]])]]];
        try discriminate H.
      eauto.
    + intros (H7 & pw & Hp & Hne). right. right. right. eauto 8.
  - split; [|auto].
    intros [[H _]|[(size & _ & _ & H)|[[_ H]|(pw & _ & _ & [H|[_ H]])]]];
      first [exact H | discriminate H].
Qed.

(** ** ArchiveViewer *)

Lemma input_nil {W} (prompt : string) (st : io_state W) :
  stdin st = [] -> input prompt st = (Raise EOFError, [Prompt prompt], st).
Proof. intros H. unfold input. rewrite H. reflexivity. Qed.

Lemma input_cons {W} (prompt : string) (st : io_state W)
      (line : string) (rest : list string) :
  stdin st = line :: rest ->
  input prompt st
  = (Ok line, [Prompt prompt], {| stdin := rest; world := world st |}).
Proof. intros H. unfold input. rewrite H. reflexivity. Qed.

Section ViewerFacts.
Context {W : Type} (os : os_ops W) (seven_zip_path : string).

(** X15.  [view_archive] launches at most one process: the 7-Zip binary with
    one of the reading verbs [l], [t] and [i] on a path that exists and is
    one of the two forms of the typed path; nothing is launched when no
    path is typed or neither form exists. *)
Theorem view_archive_only_reads (st : io_state W) :
  let log := snd (fst (view_archive os seven_zip_path st)) in
  commands log = []
  \/ exists answer rest choice archive_path,
       stdin st = answer :: rest
       /\ commands log = [view_cmd seven_zip_path choice archive_path]
       /\ (archive_path = fst (clean_macos_path (strip answer))
           \/ archive_path = snd (clean_macos_path (strip answer)))
       /\ path_exists os (world st) archive_path = true
       /\ hd EmptyString (view_cmd seven_zip_path choice archive_path) = seven_zip_path
       /\ In (nth 1 (view_cmd seven_zip_path choice archive_path) EmptyString)
             ["l"; "t"; "i"]
       /\ last (view_cmd seven_zip_path choice archive_path) EmptyString = archive_path.
Proof.
  cbv zeta. unfold view_archive. rewrite bind_log.
  destruct (stdin st) as [|answer rest] eqn:Hin;
    [rewrite (input_nil _ _ Hin); left; reflexivity|].
  rewrite (input_cons _ _ _ _ Hin). cbn [app commands].
  destruct (negb (truthy (strip answer))); [left; reflexivity|].
  destruct (clean_macos_path (strip answer)) as [original_path unescaped_path] eqn:Hc.
  rewrite bind_log. cbn [get_world app world].
  assert (Hcmd : forall choice archive_path,
             hd EmptyString (view_cmd seven_zip_path choice archive_path)
             = seven_zip_path
             /\ In (nth 1 (view_cmd seven_zip_path choice archive_path) EmptyString)
                   ["l"; "t"; "i"]
             /\ last (view_cmd seven_zip_path choice archive_path) EmptyString
                = archive_path).
  { intros choice archive_path. unfold view_cmd.
    destruct (String.eqb choice "3"); [cbn; intuition|].
    destruct (String.eqb choice "4"); [cbn; intuition|].
    destruct (String.eqb choice "2"); cbn; intuition. }
  assert (Hrun : forall archive_path,
             path_exists os (world st) archive_path = true ->
             archive_path = original_path \/ archive_path = unescaped_path ->
             let log :=
               snd (fst ((if negb (truthy archive_path)
                          then emit (PrintError ("Archive file not found: "
                                                 ++ original_path))
                          else
                            answer <- input "Choose option (1-4, default 1): " ;;
                            let choice := strip answer in
                            let cmd := view_cmd seven_zip_path choice archive_path in
                            emit (Run cmd) ;;;
                            r <- os_step (fun w => run_process os w cmd) ;;
                            match r with
                            | Exited _ => ret tt
                            | RunRaised msg => raise (OSError msg)
                            end)
                         {| stdin := rest; world := world st |})) in
             commands log = []
             \/ exists choice,
                  commands log = [view_cmd seven_zip_path choice archive_path]).
  { intros archive_path He Hform. cbv zeta.
    destruct (negb (truthy archive_path)); [left; reflexivity|].
    rewrite bind_log. unfold input. cbn [stdin].
    destruct rest as [|answer' rest']; [left; reflexivity|].
    cbn [app commands]. rewrite bind_log. cbn [emit app commands].
    rewrite bind_log. unfold os_step. cbn [world].
    destruct (run_process os (world st)
                          (view_cmd seven_zip_path (strip answer') archive_path))
      as [[code|msg] w']; cbn [app ret raise fst snd commands];
      right; exists (strip answer'); reflexivity. }
  destruct (path_exists os (world st) original_path) eqn:He.
  - destruct (Hrun original_path He (or_introl eq_refl)) as [H|[choice H]];
      [left; exact H|].
    right. exists answer, rest, choice, original_path.
    cbn [fst snd]. split; [reflexivity|]. split; [exact H|].
    split; [left; rewrite Hc; reflexivity|]. split; [exact He | apply Hcmd].
  - destruct (path_exists os (world st) unescaped_path) eqn:Hu; [|left; reflexivity].
    destruct (Hrun unescaped_path Hu (or_intror eq_refl)) as [H|[choice H]];
      [left; exact H|].
    right. exists answer, rest, choice, unescaped_path.
    cbn [fst snd]. split; [reflexivity|]. split; [exact H|].
    split; [right; rewrite Hc; reflexivity|]. split; [exact Hu | apply Hcmd].
Qed.

End ViewerFacts.

(** ** Start-up *)

Section StartupFacts.
Context {W : Type} (os : os_ops W).
Variable expanduser : string -> string.
Variable config_exists : W -> bool.
Variable remove_config : W -> option string * W.

(** X16.  The binary chosen at start-up exists, unless neither the bundled
    binary nor any of the four standard paths exists: then it is the bare
    name [7zz].  A chosen path that does not exist as a file ends [run]
    with exit status 1 before anything is launched or read, so the bare
    name is of use only when a file [7zz] lies in the working directory,
    not when [7zz] is on the search path. *)
Theorem missing_binary_ends_the_run
        (bundled_path : string) (prefs : preferences) (st : io_state W) :
  let seven_zip_path :=
    init_seven_zip_path (path_exists os (world st)) bundled_path in
  (path_exists os (world st) seven_zip_path = true
   \/ (seven_zip_path = "7zz"
       /\ path_exists os (world st) bundled_path = false
       /\ Forall (fun q => path_exists os (world st) q = false) external_paths))
  /\ (path_exists os (world st) seven_zip_path = false ->
      run os seven_zip_path expanduser config_exists remove_config prefs st
      = (Ok 1%Z, [PrintError ("7-Zip not found at: " ++ seven_zip_path)], st)).
Proof.
  cbv zeta. split.
  - unfold init_seven_zip_path.
    destruct (path_exists os (world st) bundled_path) eqn:Hb; [left; exact Hb|].
    destruct (find (path_exists os (world st)) external_paths) as [p|] eqn:Hf.
    + left. apply find_some in Hf. apply Hf.
    + right. split; [reflexivity|]. split; [reflexivity|].
      apply Forall_forall. intros q Hq. apply (find_none _ _ Hf q Hq).
  - intros Hmissing. unfold run, check_7zip, bind, get_world. cbn [world].
    rewrite Hmissing. reflexivity.
Qed.

End StartupFacts.

(** ** The preference menus *)

Lemma in_pop {A} (x : A) (idx : nat) (l : list A) : In x (pop idx l) -> In x l.
Proof.
  unfold pop. rewrite in_app_iff. intros [H|H].
  - rewrite <- (firstn_skipn idx l). apply in_or_app. left. exact H.
  - rewrite <- (firstn_skipn (S idx) l). apply in_or_app. right. exact H.
Qed.

Lemma NoDup_pop {A} (idx : nat) (l : list A) : NoDup l -> NoDup (pop idx l).
Proof.
  revert idx. induction l as [|a l IH]; intros idx Hnd.
  - unfold pop. rewrite firstn_nil, skipn_nil. constructor.
  - inversion Hnd as [|a' l' Hna Hl]; subst.
    destruct idx as [|idx]; [exact Hl|].
    change (pop (S idx) (a :: l)) with (a :: pop idx l).
    constructor; [|apply IH; exact Hl].
    intros Hin. apply Hna. apply (in_pop _ _ _ Hin).
Qed.

Lemma well_formed_defaults (desktop : string) :
  well_formed (fresh_preferences desktop).
Proof.
  unfold well_formed, level_in_range. cbn.
  split; [lia|]. split.
  - repeat (constructor; [cbn [In]; intuition discriminate|]). constructor.
  - intuition discriminate.
Qed.

(** Walks through a menu: the prompts and the saves tell nothing about the
    record, the tests are split. *)
Ltac walk_menu :=
  repeat first
    [ skip_bind
    | match goal with
      | |- yields _ _ (if ?c then _ else _) => destruct c eqn:?
      | |- yields _ _ (match ?x with _ => _ end) => destruct x eqn:?
      end ].

Section MenuFacts.
Context {W : Type} (os : os_ops W).
Variable expanduser : string -> string.
Variable config_exists : W -> bool.
Variable remove_config : W -> option string * W.

Lemma compression_preferences_well_formed (prefs : preferences) :
  well_formed prefs ->
  yields any_world (fun prefs' _ => well_formed prefs')
         (compression_preferences os prefs).
Proof.
  intros Hwf. unfold compression_preferences. walk_menu; apply yields_ret;
    try exact Hwf.
  destruct Hwf as (_ & Hnd & Hne). split; [|split; assumption].
  unfold level_in_range. cbn.
  match goal with
  | H : (_ && _)%bool = true |- _ => apply andb_true_iff in H; destruct H as [H0 H9]
  end.
  apply Z.leb_le in H0. apply Z.leb_le in H9. lia.
Qed.

Lemma directory_preferences_well_formed (prefs : preferences) :
  well_formed prefs ->
  yields any_world (fun prefs' _ => well_formed prefs')
         (directory_preferences os expanduser prefs).
Proof.
  intros Hwf. unfold directory_preferences. walk_menu; apply yields_ret;
    exact Hwf.
Qed.

Lemma auto_open_preferences_well_formed (prefs : preferences) :
  well_formed prefs ->
  yields any_world (fun prefs' _ => well_formed prefs')
         (auto_open_preferences os prefs).
Proof.
  intros Hwf. unfold auto_open_preferences. walk_menu; apply yields_ret;
    exact Hwf.
Qed.

Lemma exclusion_preferences_well_formed (prefs : preferences) :
  well_formed prefs ->
  yields any_world (fun prefs' _ => well_formed prefs')
         (exclusion_preferences os prefs).
Proof.
  intros Hwf. unfold exclusion_preferences. walk_menu; apply yields_ret;
    try exact Hwf; destruct Hwf as (Hl & Hnd & Hne);
    (split; [exact Hl|]); cbn [exclude_patterns set_exclude_patterns].
  - match goal with
    | H : (_ && _)%bool = true |- _ => apply andb_true_iff in H; destruct H as [Ht Hnew]
    end.
    apply truthy_true in Ht. apply negb_true_iff in Hnew.
    assert (Hfresh : ~ In (strip a0) (exclude_patterns prefs)).
    { intros Hin. apply Bool.not_true_iff_false in Hnew. apply Hnew.
      apply existsb_exists. exists (strip a0). split; [exact Hin|].
      apply String.eqb_refl. }
    split.
    + apply NoDup_app; [exact Hnd | repeat constructor; intros [] |].
      intros x Hx [<-|[]]. contradiction.
    + rewrite in_app_iff. intros [H|[H|[]]]; [contradiction | congruence].
  - match goal with
    | H : exclude_patterns prefs = _ |- _ => rewrite H in Hnd, Hne
    end.
    split; [apply NoDup_pop; exact Hnd|].
    intros Hin. apply Hne. apply (in_pop _ _ _ Hin).
  - apply (well_formed_defaults EmptyString).
Qed.

Lemma clear_specific_setting_well_formed (prefs : preferences) :
  well_formed prefs ->
  yields any_world (fun prefs' _ => well_formed prefs')
         (clear_specific_setting os expanduser prefs).
Proof.
  intros Hwf. unfold clear_specific_setting. walk_menu; apply yields_ret;
    try exact Hwf.
  destruct Hwf as (Hl & _ & _). split; [exact Hl|].
  apply (well_formed_defaults EmptyString).
Qed.

Lemma reset_preferences_well_formed :
  yields any_world (fun prefs' _ => well_formed prefs')
         (reset_preferences os expanduser config_exists remove_config).
Proof.
  unfold reset_preferences. walk_menu; apply yields_ret;
    apply well_formed_defaults.
Qed.

End MenuFacts.

Section SessionFacts.
Context {W : Type} (os : os_ops W) (seven_zip_path : string).
Variable expanduser : string -> string.
Variable config_exists : W -> bool.
Variable remove_config : W -> option string * W.

Lemma user_preferences_menu_well_formed (prefs : preferences) :
  well_formed prefs ->
  yields any_world (fun prefs' _ => well_formed prefs')
         (user_preferences_menu os expanduser config_exists remove_config prefs).
Proof.
  intros Hwf. unfold user_preferences_menu.
  apply (yields_while_input _ well_formed);
    [apply (grows_result well_formed) | exact Hwf | clear prefs Hwf].
  intros prefs line Hwf.
  destruct (String.eqb (strip line) "1").
  { eapply yields_bind; [apply compression_preferences_well_formed; exact Hwf|].
    intros p la Hp. apply yields_ret. exact Hp. }
  destruct (String.eqb (strip line) "2").
  { eapply yields_bind; [apply directory_preferences_well_formed; exact Hwf|].
    intros p la Hp. apply yields_ret. exact Hp. }
  destruct (String.eqb (strip line) "3").
  { eapply yields_bind; [apply auto_open_preferences_well_formed; exact Hwf|].
    intros p la Hp. apply yields_ret. exact Hp. }
  destruct (String.eqb (strip line) "4").
  { eapply yields_bind; [apply exclusion_preferences_well_formed; exact Hwf|].
    intros p la Hp. apply yields_ret. exact Hp. }
  destruct (String.eqb (strip line) "5").
  { eapply yields_bind; [apply clear_specific_setting_well_formed; exact Hwf|].
    intros p la Hp. apply yields_ret. exact Hp. }
  destruct (String.eqb (strip line) "6").
  { eapply yields_bind; [apply reset_preferences_well_formed|].
    intros p la Hp. apply yields_ret. exact Hp. }
  destruct (String.eqb (strip line) "7"); [apply yields_ret; exact Hwf|].
  skip_bind. apply yields_ret. exact Hwf.
Qed.

(** X17.  Whatever is typed in the preferences menu and its sub-menus, the
    record stays well formed: the custom level within 0..9, no exclusion
    pattern repeated, none empty. *)
Theorem preference_menu_keeps_the_record_well_formed
        (prefs prefs' : preferences) (st st' : io_state W) (log : list event) :
  well_formed prefs ->
  user_preferences_menu os expanduser config_exists remove_config prefs st
  = (Ok prefs', log, st') ->
  well_formed prefs'.
Proof.
  intros Hwf Hrun.
  destruct (yields_run any_world _ _ st st' prefs' log
                       (user_preferences_menu_well_formed prefs Hwf) I Hrun)
    as [H _].
  exact H.
Qed.

Lemma well_formed_same_except_last (p q : preferences) :
  same_except_last_output_directory p q -> well_formed p -> well_formed q.
Proof.
  intros (_ & Hl & _ & _ & He & _) (H1 & H2 & H3).
  unfold well_formed, level_in_range in *. rewrite <- Hl, <- He. auto.
Qed.

Lemma main_menu_well_formed (prefs : preferences) :
  well_formed prefs ->
  yields any_world (fun prefs' _ => well_formed prefs')
         (main_menu os seven_zip_path expanduser config_exists remove_config prefs).
Proof.
  intros Hwf. unfold main_menu.
  apply (yields_while_input _ well_formed);
    [apply (grows_result well_formed) | exact Hwf | clear prefs Hwf].
  intros prefs line Hwf.
  destruct (String.eqb (strip line) "1").
  { eapply yields_bind; [apply create_archive_prefs_yields|].
    intros p la Hp. cbv beta. skip_bind. apply yields_ret.
    apply (well_formed_same_except_last prefs p Hp Hwf). }
  destruct (String.eqb (strip line) "2");
    [skip_bind; skip_bind; apply yields_ret; exact Hwf|].
  destruct (String.eqb (strip line) "3");
    [skip_bind; skip_bind; apply yields_ret; exact Hwf|].
  destruct (String.eqb (strip line) "4").
  { eapply yields_bind; [apply user_preferences_menu_well_formed; exact Hwf|].
    intros p la Hp. apply yields_ret. exact Hp. }
  destruct (String.eqb (strip line) "5");
    [skip_bind; apply yields_ret; exact Hwf|].
  destruct (String.eqb (strip line) "6");
    skip_bind; apply yields_ret; exact Hwf.
Qed.

(** X18.  A whole session of the main menu, with any number of archives
    created, extracted and viewed and any changes made in the preferences
    menu, leaves a well-formed preference record well formed. *)
Theorem session_keeps_the_record_well_formed
        (prefs prefs' : preferences) (st st' : io_state W) (log : list event) :
  well_formed prefs ->
  main_menu os seven_zip_path expanduser config_exists remove_config prefs st
  = (Ok prefs', log, st') ->
  well_formed prefs'.
Proof.
  intros Hwf Hrun.
  destruct (yields_run any_world _ _ st st' prefs' log
                       (main_menu_well_formed prefs Hwf) I Hrun) as [H _].
  exact H.
Qed.

End SessionFacts.

Lemma preference_menu_keeps_the_record_well_formed_witness :
  match
    fst (fst (user_preferences_menu
                Sim.ops (fun s => s) (fun _ => false) (fun w => (None, w))
                Sim.prefs0
                (Sim.start ["1"; "5"; "7"; "4"; "1"; "*.tmp"; "4"; "2"; "1"; "7"]
                           (Sim.idle [] [] []))))
  with
  | Ok prefs' =>
      exclude_patterns prefs' = [".Thumbs.db"; "Thumbs.db"; "*.tmp"]
      /\ well_formed prefs'
  | Raise _ => False
  end.
Proof.
  destruct (user_preferences_menu
              Sim.ops (fun s => s) (fun _ => false) (fun w => (None, w))
              Sim.prefs0
              (Sim.start ["1"; "5"; "7"; "4"; "1"; "*.tmp"; "4"; "2"; "1"; "7"]
                         (Sim.idle [] [] [])))
    as [[r log] st'] eqn:E.
  assert (E' := E). vm_compute in E'. injection E' as Hr Hl Hs.
  subst r log st'. cbn [fst]. split; [reflexivity|].
  assert (Hwf : well_formed Sim.prefs0).
  { unfold well_formed, level_in_range. cbn.
    split; [lia|]. split.
    - repeat (constructor; [cbn [In]; intuition discriminate|]). constructor.
    - intuition discriminate. }
  exact (preference_menu_keeps_the_record_well_formed _ _ _ _ _ _ _ _ _ Hwf E).
Defined.

Lemma session_keeps_the_record_well_formed_witness :
  match
    fst (fst (main_menu
                Sim.ops "7zz" (fun s => s) (fun _ => false) (fun w => (None, w))
                Sim.prefs0
                (Sim.start ["4"; "1"; "5"; "9"; "7"; "5"; "8"; "6"]
                           (Sim.idle [] [] []))))
  with
  | Ok prefs' =>
      compression_preset prefs' = "custom"
      /\ custom_compression_level prefs' = 9%Z
      /\ well_formed prefs'
  | Raise _ => False
  end.
Proof.
  destruct (main_menu
              Sim.ops "7zz" (fun s => s) (fun _ => false) (fun w => (None, w))
              Sim.prefs0
              (Sim.start ["4"; "1"; "5"; "9"; "7"; "5"; "8"; "6"]
                         (Sim.idle [] [] [])))
    as [[r log] st'] eqn:E.
  assert (E' := E). vm_compute in E'. injection E' as Hr Hl Hs.
  subst r log st'. cbn [fst]. split; [reflexivity|]. split; [reflexivity|].
  assert (Hwf : well_formed Sim.prefs0).
  { unfold well_formed, level_in_range. cbn.
    split; [lia|]. split.
    - repeat (constructor; [cbn [In]; intuition discriminate|]). constructor.
    - intuition discriminate. }
  exact (session_keeps_the_record_well_formed _ _ _ _ _ _ _ _ _ _ Hwf E).
Defined.

(** ** The processes of a whole session *)





Section SessionLaunchFacts.
Context {W : Type} (os : os_ops W) (seven_zip_path : string).
Variable expanduser : string -> string.
Variable config_exists : W -> bool.
Variable remove_config : W -> option string * W.














End SessionLaunchFacts.

(** ** The preference menus: saving *)

Section SavingFacts.
Context {W : Type} (os : os_ops W).
Variable expanduser : string -> string.

Lemma save_preferences_yields (prefs : preferences) :
  yields any_world (fun _ l => Exists (save_attempt prefs) l)
         (save_preferences os prefs).
Proof.
  intros st _. split; [exact I|].
  unfold save_preferences, bind, os_step.
  destruct (write_config os (world st)) as [[|] w']; cbn;
    constructor; [left | right]; reflexivity.
Qed.

Ltac walk_saves :=
  repeat first
    [ match goal with
      | |- yields _ _ (bind (save_preferences _ _) _) =>
          eapply yields_bind; [apply save_preferences_yields|];
          intros ? ? ?; cbv beta in *
      end
    | skip_bind
    | match goal with
      | |- yields _ _ (if ?c then _ else _) => destruct c
      | |- yields _ _ (match ?x with _ => _ end) => destruct x
      end ].

Ltac saved_or_same :=
  apply yields_ret;
  first [ left; reflexivity
        | right; rewrite ?Exists_app; tauto ].

Lemma compression_preferences_saves (prefs : preferences) :
  yields any_world
         (fun prefs' l => prefs' = prefs \/ Exists (save_attempt prefs') l)
         (compression_preferences os prefs).
Proof. unfold compression_preferences. walk_saves; saved_or_same. Qed.

Lemma directory_preferences_saves (prefs : preferences) :
  yields any_world
         (fun prefs' l => prefs' = prefs \/ Exists (save_attempt prefs') l)
         (directory_preferences os expanduser prefs).
Proof. unfold directory_preferences. walk_saves; saved_or_same. Qed.

Lemma auto_open_preferences_saves (prefs : preferences) :
  yields any_world
         (fun prefs' l => prefs' = prefs \/ Exists (save_attempt prefs') l)
         (auto_open_preferences os prefs).
Proof. unfold auto_open_preferences. walk_saves; saved_or_same. Qed.

Lemma exclusion_preferences_saves (prefs : preferences) :
  yields any_world
         (fun prefs' l => prefs' = prefs \/ Exists (save_attempt prefs') l)
         (exclusion_preferences os prefs).
Proof. unfold exclusion_preferences. walk_saves; saved_or_same. Qed.

Lemma clear_specific_setting_saves (prefs : preferences) :
  yields any_world
         (fun prefs' l => prefs' = prefs \/ Exists (save_attempt prefs') l)
         (clear_specific_setting os expanduser prefs).
Proof. unfold clear_specific_setting. walk_saves; saved_or_same. Qed.

(** X20.  Each of the five preference sub-menus either returns the record it
    was given, or has tried to save the very record it returns: the log
    then holds the save of that record or the report that the save
    failed. *)
Theorem menus_save_what_they_change
        (menu : preferences -> io W preferences)
        (prefs prefs' : preferences) (st st' : io_state W) (log : list event) :
  In menu [compression_preferences os; directory_preferences os expanduser;
           auto_open_preferences os; exclusion_preferences os;
           clear_specific_setting os expanduser] ->
  menu prefs st = (Ok prefs', log, st') ->
  prefs' = prefs \/ Exists (save_attempt prefs') log.
Proof.
  intros Hmenu Hrun.
  assert (Hy : yields any_world
                      (fun prefs' l => prefs' = prefs \/ Exists (save_attempt prefs') l)
                      (menu prefs)).
  { destruct Hmenu as [<-|[<-|[<-|[<-|[<-|[]]]]]].
    - apply compression_preferences_saves.
    - apply directory_preferences_saves.
    - apply auto_open_preferences_saves.
    - apply exclusion_preferences_saves.
    - apply clear_specific_setting_saves. }
  destruct (yields_run any_world _ _ st st' prefs' log Hy I Hrun) as [H _].
  exact H.
Qed.

End SavingFacts.

Lemma menus_save_what_they_change_witness :
  match
    exclusion_preferences Sim.ops Sim.prefs0
                          (Sim.start ["1"; " *.log "] (Sim.idle [] [] []))
  with
  | (Ok prefs', log, _) =>
      exclude_patterns prefs' = [".DS_Store"; ".Thumbs.db"; "Thumbs.db"; "*.log"]
      /\ (prefs' = Sim.prefs0 \/ Exists (save_attempt prefs') log)
  | _ => False
  end.
Proof.
  destruct (exclusion_preferences Sim.ops Sim.prefs0
                                  (Sim.start ["1"; " *.log "] (Sim.idle [] [] [])))
    as [[r log] st'] eqn:E.
  assert (E' := E). vm_compute in E'. injection E' as Hr Hl Hs.
  subst r log st'. split; [reflexivity|].
  refine (menus_save_what_they_change
            Sim.ops (fun s => s) (exclusion_preferences Sim.ops) _ _ _ _ _ _ E).
  right. right. right. left. reflexivity.
Defined.

Section CustomLevelFacts.
Context {W : Type} (os : os_ops W).


End CustomLevelFacts.


(** ** PreferenceStore: lookup, reset and cleared keys *)

Module PreferenceOpsFacts.
Import PreferenceStore PreferenceOps PreferenceStoreFacts.

Lemma key_eqb_str (k0 : pyval) (k : string) :
  key_eqb k0 (PStr k) = true -> k0 = PStr k.
Proof.
  destruct k0 as [|[|]|z|[s|s| |s m e]|a|items|entries]; cbn; try discriminate.
  intros H. apply String.eqb_eq in H. subst. reflexivity.
Qed.

Lemma dict_get_set_str (d : pydict) (k k' : string) (v : pyval) :
  dict_get (dict_set d (PStr k) v) (PStr k')
  = if String.eqb k k' then Some v else dict_get d (PStr k').
Proof.
  induction d as [|[k0 v0] d IH]; cbn [dict_set dict_get]; [reflexivity|].
  destruct (key_eqb k0 (PStr k)) eqn:E.
  - apply key_eqb_str in E. subst k0. cbn [dict_get key_eqb].
    destruct (String.eqb k k'); reflexivity.
  - cbn [dict_get]. rewrite IH.
    destruct (key_eqb k0 (PStr k')) eqn:E'; [|reflexivity].
    apply key_eqb_str in E'. subst k0. cbn [key_eqb] in E.
    rewrite String.eqb_sym in E. rewrite E. reflexivity.
Qed.

Lemma entries_get_app (entries : list (string * pyval)) (k1 k : string)
      (v1 : pyval) :
  entries_get (entries ++ [(k1, v1)]) k
  = if String.eqb k1 k then Some v1 else entries_get entries k.
Proof. unfold entries_get. rewrite fold_left_app. reflexivity. Qed.

Lemma update_from_entries_get (entries : list (string * pyval)) (d : pydict)
      (k : string) :
  dict_get (update_from_entries d entries) (PStr k)
  = match entries_get entries k with
    | Some v => Some v
    | None => dict_get d (PStr k)
    end.
Proof.
  induction entries as [|[k1 v1] entries IH] using rev_ind; [reflexivity|].
  unfold update_from_entries in *. rewrite fold_left_app. cbn [fold_left fst snd].
  rewrite dict_get_set_str, entries_get_app.
  destruct (String.eqb k1 k); [reflexivity | exact IH].
Qed.

Lemma dict_set_keys (d : pydict) (k v : pyval) :
  exists extra, map fst (dict_set d k v) = map fst d ++ extra.
Proof.
  induction d as [|[k0 v0] d [extra IH]]; cbn [dict_set].
  - exists [k]. reflexivity.
  - destruct (key_eqb k0 k).
    + exists []. rewrite app_nil_r. reflexivity.
    + exists extra. cbn [map fst app]. rewrite IH. reflexivity.
Qed.

Lemma update_from_entries_keys (entries : list (string * pyval)) (d : pydict) :
  exists extra, map fst (update_from_entries d entries) = map fst d ++ extra.
Proof.
  unfold update_from_entries. revert d.
  induction entries as [|[k v] entries IH]; intros d; cbn [fold_left fst snd].
  - exists []. rewrite app_nil_r. reflexivity.
  - destruct (IH (dict_set d (PStr k) v)) as [extra Hx].
    destruct (dict_set_keys d (PStr k) v) as [extra0 H0].
    exists (extra0 ++ extra). rewrite Hx, H0, app_assoc. reflexivity.
Qed.

Lemma update_from_pairs_keys (items : list pyval) :
  forall d d', update_from_pairs d items = Ok d' ->
    exists extra, map fst d' = map fst d ++ extra.
Proof.
  induction items as [|item items IH]; intros d d' H; cbn [update_from_pairs] in H.
  - injection H as <-. exists []. rewrite app_nil_r. reflexivity.
  - destruct (update_pair item) as [[k v]|e]; [|discriminate].
    destruct (IH _ _ H) as [extra Hx].
    destruct (dict_set_keys d k v) as [extra0 H0].
    exists (extra0 ++ extra). rewrite Hx, H0, app_assoc. reflexivity.
Qed.

Section OpsFacts.
Variable desktop : string.
Variable float_repr : spec_float -> string.

(** X22.  Whatever the preference file holds, a record that
    [load_preferences] returns begins with the seven default keys in their
    fixed order; what the file adds comes after them. *)
Theorem loaded_record_has_the_default_keys
        (file : config_file) (prefs : pydict) (log : list event) :
  load_preferences desktop file = (Ok prefs, log) ->
  exists extra,
    map fst prefs
    = map PStr ["compression_preset"; "custom_compression_level";
                "default_output_directory"; "auto_open_after_extract";
                "exclude_patterns"; "remember_last_directory";
                "last_output_directory"]
      ++ extra.
Proof.
  intros H.
  change (map PStr ["compression_preset"; "custom_compression_level";
                    "default_output_directory"; "auto_open_after_extract";
                    "exclude_patterns"; "remember_last_directory";
                    "last_output_directory"])
    with (map fst (default_preferences desktop)).
  destruct file as [| | | |loaded]; cbn [load_preferences] in H;
    try (injection H as <- _; exists []; rewrite app_nil_r; reflexivity);
    try discriminate H.
  injection H as H _.
  destruct loaded as [|b|z|f|s|items|entries]; cbn [dict_update] in H;
    try discriminate H.
  - destruct s; [|discriminate H]. injection H as <-.
    exists []. rewrite app_nil_r. reflexivity.
  - apply (update_from_pairs_keys _ _ _ H).
  - injection H as <-. apply update_from_entries_keys.
Qed.

(** X23.  For a file that holds a JSON object, the loaded record has, under
    every name, the value of the file if the file has that name (the last
    one if it is repeated) and the default otherwise. *)
Theorem loaded_values_win_over_defaults
        (entries : list (string * pyval)) (prefs : pydict) (log : list event)
        (k : string) :
  load_preferences desktop (Document (PDict entries)) = (Ok prefs, log) ->
  dict_get prefs (PStr k)
  = match entries_get entries k with
    | Some v => Some v
    | None => dict_get (default_preferences desktop) (PStr k)
    end.
Proof.
  cbn [load_preferences dict_update]. intros [= <- _].
  apply update_from_entries_get.
Qed.

(** X24.  After [reset_preferences], provided [os.remove] did not raise, the
    record in memory is the default record and the next load returns the
    default record too, whatever the file held before (a file that
    [load_preferences] could not digest included) and however the write
    ended. *)
Theorem reset_restores_the_defaults
        (o : write_outcome) (file : config_file) :
  exists file' log,
    reset_preferences desktop float_repr false o file
    = (Ok (default_preferences desktop, file'), log)
    /\ fst (load_preferences desktop file') = Ok (default_preferences desktop).
Proof.
  unfold reset_preferences. rewrite andb_false_r.
  cbn [load_preferences].
  destruct o; cbn [save_preferences]; eexists; eexists; (split; [reflexivity|]).
  - cbn [load_preferences fst].
    exact (reload_of_updated_defaults desktop float_repr []).
  - reflexivity.
  - reflexivity.
Qed.

Lemma dict_get_embed_in (l : list (string * pyval)) (k : string) :
  In k (map fst l) -> exists v, dict_get (embed l) (PStr k) = Some v.
Proof.
  induction l as [|[k0 v0] l IH]; cbn [map fst In embed dict_get snd key_eqb];
    [intros []|].
  intros [->|Hin].
  - rewrite String.eqb_refl. eauto.
  - destruct (String.eqb k0 k); [eauto | apply IH; exact Hin].
Qed.

Lemma dict_get_embed_none (l : list (string * pyval)) (k : string) :
  ~ In k (map fst l) -> dict_get (embed l) (PStr k) = None.
Proof.
  induction l as [|[k0 v0] l IH]; cbn [map fst In embed dict_get snd key_eqb];
    [reflexivity|].
  intros Hn. destruct (String.eqb k0 k) eqn:E.
  - apply String.eqb_eq in E. exfalso. apply Hn. left. exact E.
  - apply IH. intros H. apply Hn. right. exact H.
Qed.

Lemma entries_get_none (l : list (string * pyval)) (k : string) :
  ~ In k (map fst l) -> entries_get l k = None.
Proof.
  induction l as [|[k1 v1] l IH] using rev_ind; [reflexivity|].
  rewrite map_app, in_app_iff. cbn [map fst In]. intros Hn.
  rewrite entries_get_app. destruct (String.eqb k1 k) eqn:E.
  - apply String.eqb_eq in E. exfalso. apply Hn. right. left. exact E.
  - apply IH. intros H. apply Hn. left. exact H.
Qed.

Lemma dict_del_embed (l : list (string * pyval)) (k : string) :
  NoDup (map fst l) ->
  exists l', dict_del (embed l) (PStr k) = embed l'
             /\ NoDup (map fst l') /\ ~ In k (map fst l')
             /\ (forall x, In x (map fst l') -> In x (map fst l)).
Proof.
  induction l as [|[k0 v0] l IH]; intros Hnd.
  - exists []. cbn. repeat split; [constructor | intros [] | intros x []].
  - cbn [map fst] in Hnd. inversion Hnd as [|k0' ks Hk0 Hl]; subst.
    cbn [embed map dict_del fst snd key_eqb].
    destruct (String.eqb k0 k) eqn:E.
    + apply String.eqb_eq in E. subst k0. exists l.
      split; [reflexivity|]. split; [exact Hl|]. split; [exact Hk0|].
      intros x Hx. right. exact Hx.
    + apply String.eqb_neq in E.
      destruct (IH Hl) as (l' & Hdel & Hnd' & Hnk & Hsub).
      exists ((k0, v0) :: l'). cbn [embed map fst snd In].
      split; [f_equal; exact Hdel|].
      split; [constructor; [intros H; apply Hk0, Hsub, H | exact Hnd']|].
      split; [intros [H|H]; [apply E; exact H | apply Hnk; exact H]|].
      intros x [->|Hx]; [left; reflexivity | right; apply Hsub; exact Hx].
Qed.

(** X25.  "Clear last directory memory" does not outlive the session: the
    key is deleted from the record and the record is saved without it, but
    the next load puts [last_output_directory] back with the Desktop
    default. *)
Theorem cleared_last_directory_returns_on_reload
        (file : config_file) (l : list (string * pyval)) :
  NoDup (map fst l) ->
  In "last_output_directory" (map fst l) ->
  let run := clear_last_directory float_repr WriteOk file (embed l) in
  dict_get (fst (fst run)) (PStr "last_output_directory") = None
  /\ exists reloaded,
       load_preferences desktop (snd (fst run)) = (Ok reloaded, [])
       /\ dict_get reloaded (PStr "last_output_directory") = Some (PStr desktop).
Proof.
  intros Hnd Hin. cbv zeta. unfold clear_last_directory.
  destruct (dict_get_embed_in l _ Hin) as [v ->].
  destruct (dict_del_embed l "last_output_directory" Hnd)
    as (l' & -> & Hnd' & Hnk & _).
  cbn [save_preferences fst snd].
  split; [apply dict_get_embed_none; exact Hnk|].
  rewrite (dumped_embed float_repr), (fold_set_fresh l' []) by exact Hnd'.
  cbn [app load_preferences dict_update].
  eexists. split; [reflexivity|].
  rewrite update_from_entries_get, (entries_get_none l' _ Hnk). reflexivity.
Qed.

End OpsFacts.

Lemma loaded_record_has_the_default_keys_witness :
  exists extra,
    map fst (update_from_entries (default_preferences "/Users/u/Desktop")
                                 [("theme", PStr "dark");
                                  ("compression_preset", PStr "fast")])
    = map PStr ["compression_preset"; "custom_compression_level";
                "default_output_directory"; "auto_open_after_extract";
                "exclude_patterns"; "remember_last_directory";
                "last_output_directory"]
      ++ extra.
Proof.
  apply (loaded_record_has_the_default_keys
           "/Users/u/Desktop"
           (Document (PDict [("theme", PStr "dark");
                             ("compression_preset", PStr "fast")]))
           _ []).
  reflexivity.
Defined.

Lemma loaded_values_win_over_defaults_witness :
  dict_get (update_from_entries (default_preferences "/Users/u/Desktop")
                                [("compression_preset", PStr "fast");
                                 ("compression_preset", PStr "maximum")])
           (PStr "compression_preset")
  = Some (PStr "maximum").
Proof.
  apply (loaded_values_win_over_defaults
           "/Users/u/Desktop"
           [("compression_preset", PStr "fast");
            ("compression_preset", PStr "maximum")]
           _ [] "compression_preset").
  reflexivity.
Defined.

Lemma cleared_last_directory_returns_on_reload_witness :
  exists reloaded,
    load_preferences
      "/Users/u/Desktop"
      (snd (fst (clear_last_directory
                   (fun _ => "nan") WriteOk Absent
                   (embed (default_entries "/Users/u/Desktop")))))
    = (Ok reloaded, [])
    /\ dict_get reloaded (PStr "last_output_directory")
       = Some (PStr "/Users/u/Desktop").
Proof.
  apply (cleared_last_directory_returns_on_reload
           "/Users/u/Desktop" (fun _ => "nan") Absent
           (default_entries "/Users/u/Desktop")).
  - cbn [default_entries map fst].
    repeat (constructor; [cbn [In]; intuition discriminate|]). constructor.
  - cbn. auto 10.
Defined.

End PreferenceOpsFacts.

(** ** ExtractionCoordinator: the verdict of a batch *)

Lemma successes_all (jobs : list (string * job_outcome)) :
  List.length (successes jobs) = List.length jobs
  <-> forallb (fun j => job_ok (snd j)) jobs = true.
Proof.
  unfold successes. rewrite length_map.
  induction jobs as [|j jobs IH]; [cbn; tauto|].
  cbn [filter forallb List.length].
  pose proof (filter_length_le (fun j => job_ok (snd j)) jobs) as Hle.
  destruct (job_ok (snd j)); cbn [List.length andb].
  - rewrite <- IH. lia.
  - split; [lia | discriminate].
Qed.

Lemma successes_none (jobs : list (string * job_outcome)) :
  List.length (successes jobs) = 0
  <-> forallb (fun j => negb (job_ok (snd j))) jobs = true.
Proof.
  unfold successes. rewrite length_map.
  induction jobs as [|j jobs IH]; [cbn; tauto|].
  cbn [filter forallb]. destruct (job_ok (snd j)); cbn [List.length negb andb].
  - split; [lia | discriminate].
  - exact IH.
Qed.

Section VerdictFacts.
Context {W : Type} (os : os_ops W) (seven_zip_path : string).

(** X26.  The verdict of a batch follows the jobs: all succeeded exactly when
    every job ended with exit status 0; all failed exactly when there is a
    job and none ended so; otherwise it is a partial success that counts
    the jobs with status 0 and lists every other job with its reason. *)
Theorem batch_verdict_follows_the_jobs
        (archive_paths : list string) (extract_to : string) (mode : extraction_mode)
        (flag : option string) (sel : list string) (st : io_state W) :
  let n := List.length archive_paths in
  let jobs := fst (job_outcomes os seven_zip_path n extract_to mode flag sel
                                (world st) archive_paths) in
  let verdict :=
    fst (fst (run_batch os seven_zip_path archive_paths extract_to mode flag sel st)) in
  (verdict = Ok AllSucceeded <-> forallb (fun j => job_ok (snd j)) jobs = true)
  /\ (verdict = Ok (AllFailed (failures jobs))
      <-> archive_paths <> []
          /\ forallb (fun j => negb (job_ok (snd j))) jobs = true)
  /\ (verdict = Ok (PartialSuccess (List.length (successes jobs)) (failures jobs))
      <-> 0 < List.length (successes jobs) < n)
  /\ (verdict = Ok AllSucceeded
      \/ verdict = Ok (AllFailed (failures jobs))
      \/ verdict = Ok (PartialSuccess (List.length (successes jobs)) (failures jobs))).
Proof.
  intros n jobs verdict.
  pose proof (run_batch_run os seven_zip_path archive_paths extract_to
                            mode flag sel st) as Hrun.
  cbv zeta in Hrun. subst verdict. rewrite Hrun. cbn [fst]. fold n. fold jobs.
  assert (Hlen : List.length jobs = n).
  { subst jobs n. rewrite <- (length_map fst), job_outcomes_archives. reflexivity. }
  pose proof (successes_all jobs) as Hall.
  pose proof (successes_none jobs) as Hnone.
  pose proof (successes_failures_partition jobs) as Hpart.
  rewrite Hlen in Hall, Hpart.
  assert (Hne : archive_paths <> [] <-> 0 < n).
  { subst n. destruct archive_paths as [|a l]; cbn [List.length]; split.
    - intros H. exfalso. apply H. reflexivity.
    - lia.
    - intros _. lia.
    - intros _. discriminate. }
  unfold summarize.
  destruct (List.length (successes jobs) =? n) eqn:Eall.
  - apply Nat.eqb_eq in Eall.
    split; [split; [intros _; apply Hall; exact Eall | reflexivity]|].
    split; [split; [discriminate|]|].
    { intros [Hn Hf]. apply Hnone in Hf. apply Hne in Hn. lia. }
    split; [split; [discriminate | lia]|]. left. reflexivity.
  - apply Nat.eqb_neq in Eall.
    destruct (0 <? List.length (successes jobs)) eqn:Epos.
    + apply Nat.ltb_lt in Epos.
      split; [split; [discriminate | intros H; apply Hall in H; contradiction]|].
      split; [split; [discriminate|]|].
      { intros [_ Hf]. apply Hnone in Hf. lia. }
      split; [split; [lia | reflexivity]|]. right. right. reflexivity.
    + apply Nat.ltb_ge in Epos.
      split; [split; [discriminate | intros H; apply Hall in H; contradiction]|].
      split; [split; [intros _|reflexivity]|].
      { split; [apply Hne; lia | apply Hnone; lia]. }
      split; [split; [discriminate | lia]|]. right. left. reflexivity.
Qed.

End VerdictFacts.

(** ** ExtractionCoordinator: consent *)

Lemma emits_yields {W A} (P : event -> Prop) (m : io W A) :
  emits P m -> yields any_world (fun _ l => Forall P l) m.
Proof.
  intros H st _. split; [exact I|]. specialize (H st).
  destruct (fst (fst (m st))); [exact H | exact I].
Qed.

(** Keeps, for the first part of a [bind], that its log satisfies [P]. *)
Ltac carry_log P :=
  match goal with
  | |- yields _ _ (bind _ _) =>
      eapply yields_bind;
      [ apply (emits_yields P); unfold find_archives;
        repeat first [ apply emits_emit; cbn; solve [eauto] | emits_step ]
      | intros ? ? ?; cbv beta in * ]
  end.

Ltac log_pieces :=
  intros _; rewrite ?app_nil_r, ?Forall_app; repeat split;
  first [assumption | constructor].

Section ConsentFacts.
Context {W : Type} (os : os_ops W) (seven_zip_path : string).

Lemma extract_archive_only_lists (prefs : preferences) :
  yields any_world
         (fun (o : option batch_result) l =>
            o = None -> Forall (only_listings seven_zip_path) l)
         (extract_archive os seven_zip_path prefs).
Proof.
  unfold extract_archive.
  carry_log (only_listings seven_zip_path).
  match goal with |- yields _ _ (if ?c then _ else _) => destruct c end;
    [carry_log (only_listings seven_zip_path); apply yields_ret; log_pieces|].
  carry_log (only_listings seven_zip_path).
  match goal with
  | |- yields _ _ (match ?x with _ => _ end) => destruct x as [|first others]
  end;
    [carry_log (only_listings seven_zip_path); apply yields_ret; log_pieces|].
  carry_log (only_listings seven_zip_path).
  carry_log (only_listings seven_zip_path).
  match goal with
  | |- yields _ _ (match ?x with _ => _ end) => destruct x as [selected_files|]
  end; [|apply yields_ret; log_pieces].
  carry_log (only_listings seven_zip_path).
  carry_log (only_listings seven_zip_path).
  carry_log (only_listings seven_zip_path).
  match goal with |- yields _ _ (match ?x with _ => _ end) => destruct x end;
    [carry_log (only_listings seven_zip_path); apply yields_ret; log_pieces|].
  carry_log (only_listings seven_zip_path).
  carry_log (only_listings seven_zip_path).
  carry_log (only_listings seven_zip_path).
  match goal with |- yields _ _ (match ?x with _ => _ end) => destruct x end;
    [|apply yields_ret; log_pieces].
  carry_log (only_listings seven_zip_path).
  match goal with |- yields _ _ (if ?c then _ else _) => destruct c end;
    [apply yields_ret; log_pieces|].
  eapply yields_weaken with (Q1 := fun o _ => o <> None).
  { intros res lres Ho Hnone. contradiction. }
  skip_bind.
  match goal with |- yields _ _ (match ?x with _ => _ end) => destruct x end;
    repeat skip_bind; apply yields_ret; discriminate.
Qed.

(** X27.  When [extract_archive] returns without a batch (no path, no archive
    found, a cancelled selection or policy, a directory that cannot be
    made, or anything but [y] at the final question), it has launched no
    extraction: the only process it can have launched is the listing. *)
Theorem nothing_is_extracted_without_consent
        (prefs : preferences) (st st' : io_state W) (log : list event) :
  extract_archive os seven_zip_path prefs st = (Ok None, log, st') ->
  Forall not_an_extraction log
  /\ Forall (fun cmd => exists archive, cmd = [seven_zip_path; "l"; archive])
            (commands log).
Proof.
  intros Hrun.
  destruct (yields_run any_world _ _ st st' None log
                       (extract_archive_only_lists prefs) I Hrun) as [H _].
  specialize (H eq_refl). split.
  - eapply Forall_impl; [|exact H].
    intros [] Hev; cbn; try exact I. destruct Hev as [archive ->]. cbn. discriminate.
  - clear Hrun. induction H as [|ev l Hev _ IH]; [constructor|].
    destruct ev; cbn [commands]; try exact IH. constructor; assumption.
Qed.

End ConsentFacts.

Lemma nothing_is_extracted_without_consent_witness :
  match
    extract_archive Sim.ops "7zz" Sim.prefs0
                    (Sim.start ["/data/a.7z"; "2"; "cancel"]
                               (Sim.idle [("/data/a.7z", 9%Z)] [] []))
  with
  | (Ok None, log, _) =>
      commands log = [["7zz"; "l"; "/data/a.7z"]]
      /\ Forall not_an_extraction log
  | _ => False
  end.
Proof.
  destruct (extract_archive Sim.ops "7zz" Sim.prefs0
                            (Sim.start ["/data/a.7z"; "2"; "cancel"]
                                       (Sim.idle [("/data/a.7z", 9%Z)] [] [])))
    as [[r log] st'] eqn:E.
  assert (E' := E). vm_compute in E'. injection E' as Hr Hl Hs.
  subst r log st'. split; [reflexivity|].
  exact (proj1 (nothing_is_extracted_without_consent _ _ _ _ _ _ E)).
Defined.

(** ** The technical listing *)

Lemma entry_with_the_same_path (files : list archive_entry)
      (current current' : archive_entry) :
  entry_path current' = entry_path current ->
  map entry_path (if has_path current' then files ++ [current'] else files)
  = map entry_path (if has_path current then files ++ [current] else files).
Proof.
  intros H. unfold has_path. rewrite H.
  destruct (match entry_path current with
            | Some p => truthy p
            | None => false
            end); [|reflexivity].
  rewrite !map_app. cbn [map]. rewrite H. reflexivity.
Qed.

Lemma listing_loop_paths (lines : list string) :
  forall files current files' current',
    listing_loop lines (files, current) = Ok (files', current') ->
    Forall (fun e => has_path e = true) files ->
    Forall (fun e => has_path e = true) files'
    /\ map entry_path (if has_path current' then files' ++ [current'] else files')
       = map entry_path (if has_path current then files ++ [current] else files)
         ++ map Some (filter truthy
                             (map (drop 7)
                                  (filter (fun line => startswith line "Path = ")
                                          (map strip lines)))).
Proof.
  induction lines as [|line lines IH]; intros files current files' current' H Hall.
  - cbn [listing_loop] in H. injection H as <- <-.
    split; [exact Hall|]. cbn. rewrite app_nil_r. reflexivity.
  - cbn [listing_loop] in H. cbn [map filter].
    unfold listing_step in H.
    destruct (startswith (strip line) "Path = ") eqn:Hp.
    + apply IH in H.
      * destruct H as [Hall' Hmap]. split; [exact Hall'|]. rewrite Hmap.
        clear Hmap. cbn [map filter].
        change (has_path {| entry_path := Some (drop 7 (strip line));
                            entry_size := None; entry_is_folder := None |})
          with (truthy (drop 7 (strip line))).
        destruct (truthy (drop 7 (strip line))); destruct (has_path current);
          rewrite ?map_app; cbn [map entry_path]; rewrite <- ?app_assoc;
          reflexivity.
      * destruct (has_path current) eqn:Hc; [|exact Hall].
        apply Forall_app. split; [exact Hall|]. constructor; [exact Hc | constructor].
    + destruct (startswith (strip line) "Size = ").
      * destruct (if isdigit (drop 7 (strip line))
                  then parse_int (drop 7 (strip line)) else Some 0%Z);
          [|discriminate H].
        apply IH in H; [|exact Hall]. destruct H as [Hall' Hmap].
        split; [exact Hall'|]. rewrite Hmap. f_equal.
        apply entry_with_the_same_path. reflexivity.
      * destruct (startswith (strip line) "Folder = ");
          (apply IH in H; [|exact Hall]); [|exact H].
        destruct H as [Hall' Hmap].
        split; [exact Hall'|]. rewrite Hmap. f_equal.
        apply entry_with_the_same_path. reflexivity.
Qed.

(** X28.  When [get_archive_contents] reads a listing without an exception,
    every entry it returns has a path that is not empty, and the paths of
    the entries are, in order, the texts after [Path = ] on the lines of
    the listing, the empty ones left out: neither a size nor a folder line
    adds or removes an entry. *)
Theorem listing_entries_are_the_named_paths
        (stdout : string) (files : list archive_entry) :
  archive_contents_of stdout = Ok files ->
  Forall (fun e => has_path e = true) files
  /\ map entry_path files = map Some (listed_paths stdout).
Proof.
  unfold archive_contents_of, listed_paths. intros H.
  destruct (listing_loop (split_on (ascii_of_nat 10) EmptyString stdout) ([], no_entry))
    as [[files' current']|e] eqn:Hloop; [|discriminate H].
  injection H as <-.
  destruct (listing_loop_paths _ _ _ _ _ Hloop (Forall_nil _)) as [Hall Hmap].
  cbn [has_path no_entry entry_path app map] in Hmap.
  split; [|exact Hmap].
  destruct (has_path current') eqn:Hc; [|exact Hall].
  apply Forall_app. split; [exact Hall|]. constructor; [exact Hc | constructor].
Qed.

Lemma listing_entries_are_the_named_paths_witness :
  listed_paths ("----------" ++ newline ++ "Path = a.txt" ++ newline
                ++ "Size = 12" ++ newline ++ "Folder = -" ++ newline ++ newline
                ++ "  Path = docs" ++ newline ++ "Folder = +")%string
  = ["a.txt"; "docs"]
  /\ map entry_path
         [ {| entry_path := Some "a.txt"; entry_size := Some 12%Z;
              entry_is_folder := Some false |};
           {| entry_path := Some "docs"; entry_size := None;
              entry_is_folder := Some true |} ]
     = map Some
           (listed_paths ("----------" ++ newline ++ "Path = a.txt" ++ newline
                          ++ "Size = 12" ++ newline ++ "Folder = -" ++ newline
                          ++ newline ++ "  Path = docs" ++ newline
                          ++ "Folder = +")%string).
Proof.
  split; [reflexivity|].
  apply (listing_entries_are_the_named_paths
           ("----------" ++ newline ++ "Path = a.txt" ++ newline
            ++ "Size = 12" ++ newline ++ "Folder = -" ++ newline ++ newline
            ++ "  Path = docs" ++ newline ++ "Folder = +")%string).
  reflexivity.
Defined.

(** ** ExtractionCoordinator: the archives that are extracted *)

Section ExistingArchiveFacts.
Context {W : Type} (os : os_ops W) (seven_zip_path : string).

Lemma find_archives_yields (w0 : W) (raw : list string) :
  yields (eq w0)
         (fun archive_paths _ =>
            Forall (fun p => path_exists os w0 p = true) archive_paths)
         (find_archives os raw).
Proof.
  unfold find_archives.
  apply (yields_bind _ (fun w _ => w0 = w));
    [apply yields_get_world; intros w Hw; exact Hw|].
  intros w la <-. cbv beta.
  eapply yields_weaken;
    [|apply (yields_for_list _ (Forall (fun p => path_exists os w0 p = true)));
      [constructor|]].
  { intros a l H. exact H. }
  intros acc path Hacc.
  destruct (clean_macos_path path) as [original_path unescaped_path].
  destruct (path_exists os w0 original_path) eqn:He.
  - apply yields_ret. apply Forall_app. split; [exact Hacc|].
    constructor; [exact He | constructor].
  - destruct (path_exists os w0 unescaped_path) eqn:Hu.
    + apply yields_ret. apply Forall_app. split; [exact Hacc|].
      constructor; [exact Hu | constructor].
    + apply (yields_bind _ (fun _ _ => True)); [apply yields_emit; exact I|].
      intros _ lb _. cbv beta. apply yields_ret. exact Hacc.
Qed.

Lemma quiet_extraction_launch {A} (w0 : W) (m : io W A) :
  emits not_a_launch m -> emits (extraction_launch os seven_zip_path w0) m.
Proof.
  apply emits_impl. intros ev H. destruct ev; cbn in *; first [exact I | destruct H].
Qed.

Lemma run_batch_extracts_existing (w0 : W) (archive_paths : list string)
      (extract_to : string) (mode : extraction_mode)
      (overwrite_flag : option string) (selected_files : list string) :
  Forall (fun p => path_exists os w0 p = true) archive_paths ->
  emits (extraction_launch os seven_zip_path w0)
        (run_batch os seven_zip_path archive_paths extract_to mode
                   overwrite_flag selected_files).
Proof.
  intros Hall st.
  pose proof (run_batch_run os seven_zip_path archive_paths extract_to mode
                            overwrite_flag selected_files st) as Hrun.
  cbv zeta in Hrun. rewrite Hrun. cbn [fst snd].
  pose proof (job_outcomes_archives os seven_zip_path (List.length archive_paths)
                                    extract_to mode overwrite_flag selected_files
                                    archive_paths (world st)) as Hjobs.
  apply Forall_app. split.
  - apply Forall_flat_map. apply Forall_forall. intros [a o] Hin.
    assert (Ha : path_exists os w0 a = true).
    { rewrite Forall_forall in Hall. apply Hall. rewrite <- Hjobs.
      apply (in_map fst _ _ Hin). }
    unfold job_events. apply Forall_app. split.
    + destruct mode; [destruct (1 <? List.length archive_paths)|];
        repeat constructor.
    + destruct o as [e|code|e].
      * constructor; [exact I | constructor].
      * constructor; [unfold extraction_launch; right; right; eauto 10|].
        constructor; [destruct (code =? 0)%Z; exact I | constructor].
      * constructor; [unfold extraction_launch; right; right; eauto 10|].
        constructor; [exact I | constructor].
  - constructor; [|constructor].
    destruct (summarize _ _ _); exact I.
Qed.

Lemma handle_auto_open_launches (w0 : W) (prefs : preferences)
      (directory_path : string) :
  emits (extraction_launch os seven_zip_path w0)
        (handle_auto_open os prefs directory_path).
Proof.
  unfold handle_auto_open.
  repeat first [ apply emits_emit; cbn; solve [eauto 10] | emits_step ].
Qed.

(** X29.  Every process [extract_archive] launches is the listing of an
    archive, [open] on a folder, or the extraction of an archive that
    existed when the method was called: a typed path that does not exist
    in either of its forms is never handed to the archiver. *)
Theorem only_existing_archives_are_extracted
        (prefs : preferences) (st : io_state W) :
  Forall (extraction_launch os seven_zip_path (world st))
         (snd (fst (extract_archive os seven_zip_path prefs st))).
Proof.
  unfold extract_archive. rewrite bind_log.
  destruct (stdin st) as [|answer rest] eqn:Hin;
    [rewrite (input_nil _ _ Hin); repeat constructor|].
  rewrite (input_cons _ _ _ _ Hin). cbn [app].
  constructor; [exact I|].
  destruct (negb (truthy (strip answer))); [repeat constructor|].
  rewrite bind_log.
  pose proof (find_archives_yields
                (world st) (split_ws (replace newline " " (strip answer)))
                {| stdin := rest; world := world st |} eq_refl) as [_ Hex].
  assert (Hquiet : emits not_a_launch
                         (find_archives os (split_ws (replace newline " " (strip answer)))))
    by (unfold find_archives; emits_auto).
  pose proof (quiet_extraction_launch (world st) _ Hquiet
                                      {| stdin := rest; world := world st |}) as Hl.
  destruct (find_archives os (split_ws (replace newline " " (strip answer)))
                          {| stdin := rest; world := world st |})
    as [[[archive_paths|e] l1] s2]; cbn [fst snd] in *; [|exact Hl].
  apply Forall_app. split; [exact Hl|].
  match goal with
  | |- Forall ?P (snd (fst (?k s2))) => assert (Hk : emits P k); [|exact (Hk s2)]
  end.
  pose proof (run_batch_extracts_existing (world st) archive_paths) as Hbatch.
  pose proof (handle_auto_open_launches (world st)) as Hopen.
  destruct archive_paths as [|first others];
    repeat first [ apply emits_emit; cbn; solve [eauto 10]
                 | solve [apply Hbatch; exact Hex]
                 | solve [apply Hopen]
                 | emits_step ].
Qed.

End ExistingArchiveFacts.

(** ** ArchivePlanner: the extension of the destination *)

Lemma substring_0_length (s : string) : substring 0 (String.length s) s = s.
Proof. induction s as [|c s IH]; cbn [String.length substring]; congruence. Qed.

Lemma endswith_refl (s : string) : endswith s s = true.
Proof.
  unfold endswith. rewrite Nat.leb_refl, Nat.sub_diag, substring_0_length.
  apply String.eqb_refl.
Qed.

Lemma endswith_cons (c : ascii) (s suf : string) :
  endswith s suf = true -> endswith (String c s) suf = true.
Proof.
  unfold endswith. cbn [String.length]. intros H.
  apply andb_true_iff in H. destruct H as [Hle Heq]. apply Nat.leb_le in Hle.
  apply andb_true_iff. split; [apply Nat.leb_le; lia|].
  rewrite Nat.sub_succ_l by exact Hle. cbn [substring]. exact Heq.
Qed.

Lemma endswith_app (a b suf : string) :
  endswith b suf = true -> endswith (a ++ b) suf = true.
Proof.
  intros H. induction a as [|c a IH]; [exact H|].
  cbn [append]. apply endswith_cons. exact IH.
Qed.

(** A suffix of [String c s] is a suffix of [s] or the whole string. *)
Lemma endswith_uncons (c : ascii) (s suf : string) :
  endswith (String c s) suf = true ->
  endswith s suf = true \/ suf = String c s.
Proof.
  unfold endswith. cbn [String.length]. intros H.
  apply andb_true_iff in H. destruct H as [Hle Heq]. apply Nat.leb_le in Hle.
  destruct (Nat.eq_dec (String.length suf) (S (String.length s))) as [Hfull|Hless].
  - right. rewrite Hfull, Nat.sub_diag in Heq.
    change (S (String.length s)) with (String.length (String c s)) in Heq.
    rewrite substring_0_length in Heq. apply String.eqb_eq in Heq. congruence.
  - left. assert (Hle' : String.length suf <= String.length s) by lia.
    apply andb_true_iff. split; [apply Nat.leb_le; exact Hle'|].
    rewrite Nat.sub_succ_l in Heq by exact Hle'. cbn [substring] in Heq. exact Heq.
Qed.

Lemma rsplit1_some_in (c : ascii) (s h t : string) :
  rsplit1 c s = Some (h, t) -> In c (list_ascii_of_string s).
Proof.
  revert h t. induction s as [|a s IH]; intros h t H; cbn [rsplit1] in H;
    [discriminate|].
  cbn [list_ascii_of_string In].
  destruct (rsplit1 c s) as [[h' t']|].
  - right. apply (IH h' t' eq_refl).
  - destruct (Ascii.eqb a c) eqn:E; [|discriminate].
    left. apply Ascii.eqb_eq. exact E.
Qed.

Lemma endswith_basename (p suf : string) :
  ~ In "/"%char (list_ascii_of_string suf) ->
  endswith p suf = true -> endswith (basename p) suf = true.
Proof.
  intros Hslash. unfold basename.
  induction p as [|a p IH]; intros H; [exact H|].
  cbn [rsplit1].
  destruct (rsplit1 "/" p) as [[h t]|] eqn:Hsplit.
  - destruct (endswith_uncons _ _ _ H) as [Hp| ->].
    + apply IH. exact Hp.
    + exfalso. apply Hslash. cbn [list_ascii_of_string In]. right.
      apply (rsplit1_some_in _ _ _ _ Hsplit).
  - destruct (Ascii.eqb a "/") eqn:E; [|exact H].
    apply Ascii.eqb_eq in E. subst a.
    destruct (endswith_uncons _ _ _ H) as [Hp| ->]; [exact Hp|].
    exfalso. apply Hslash. cbn [list_ascii_of_string In]. left. reflexivity.
Qed.

Lemma endswith_any_app (a b : string) (sufs : list string) :
  endswith_any b sufs = true -> endswith_any (a ++ b) sufs = true.
Proof.
  unfold endswith_any. rewrite !existsb_exists.
  intros [suf [Hin H]]. exists suf. split; [exact Hin | apply endswith_app; exact H].
Qed.

Lemma endswith_any_join (a b : string) (sufs : list string) :
  endswith_any b sufs = true -> endswith_any (join a b) sufs = true.
Proof.
  intros H. unfold join.
  destruct (startswith b "/"); [exact H|].
  destruct (String.eqb a EmptyString || endswith a "/")%bool.
  - apply endswith_any_app. exact H.
  - apply endswith_any_app. apply (endswith_any_app "/"). exact H.
Qed.

Lemma endswith_any_basename (p : string) :
  endswith_any p archive_extensions = true ->
  endswith_any (basename p) archive_extensions = true.
Proof.
  unfold endswith_any. rewrite !existsb_exists.
  intros [suf [Hin H]]. exists suf. split; [exact Hin|].
  apply endswith_basename; [|exact H].
  cbn [archive_extensions In] in Hin.
  destruct Hin as [<-|[<-|[<-|[<-|[]]]]]; cbn [list_ascii_of_string In];
    intuition discriminate.
Qed.

Lemma endswith_any_7z (name : string) :
  endswith_any (name ++ ".7z") archive_extensions = true.
Proof. apply endswith_any_app. reflexivity. Qed.

Lemma add_default_extension_known (name : string) :
  endswith_any (add_default_extension name) archive_extensions = true.
Proof.
  unfold add_default_extension.
  destruct (endswith_any name archive_extensions) eqn:E;
    [exact E | apply endswith_any_7z].
Qed.

Section ExtensionFacts.
Context {W : Type} (os : os_ops W) (seven_zip_path : string).

Lemma smart_name_known (w : W) (source_files : list string) (name : string) :
  generate_smart_archive_name os w source_files = Ok name ->
  endswith_any name archive_extensions = true.
Proof.
  unfold generate_smart_archive_name.
  destruct source_files as [|f [|g rest]].
  - cbn. discriminate.
  - destruct (path_isdir os w f); intros [= <-].
    + apply endswith_any_7z.
    + apply endswith_any_app. reflexivity.
  - intros H.
    match type of H with
    | match ?x with Ok _ => _ | Raise _ => _ end = _ =>
        destruct x as [base_name|e]; [|discriminate H]
    end.
    injection H as <-.
    apply endswith_any_app. apply (endswith_any_app "_"). apply endswith_any_7z.
Qed.

Lemma get_output_path_known (prefs : preferences) (default_name : string)
      (source_files : option (list string)) :
  endswith_any default_name archive_extensions = true ->
  yields any_world
         (fun r _ => endswith_any (fst r) archive_extensions = true)
         (get_output_path os prefs default_name source_files).
Proof.
  intros Hdef. unfold get_output_path.
  apply (yields_bind _ (fun _ _ => True)); [apply yields_trivial|].
  intros w la _. cbv beta.
  apply (yields_bind _ (fun name _ => endswith_any name archive_extensions = true)).
  { destruct source_files as [[|f files]|]; try (apply yields_ret; exact Hdef).
    apply yields_lift. intros name Hname. apply (smart_name_known _ _ _ Hname). }
  intros smart_name lb Hsmart. cbv beta.
  skip_bind.
  match goal with |- yields _ _ (if ?c then _ else _) => destruct c end;
    [apply yields_ret; apply endswith_any_join; exact Hsmart|].
  match goal with
  | |- yields _ _ (bind ?m _) =>
      apply (yields_bind _ (fun path _ => endswith_any path archive_extensions = true))
  end.
  { match goal with |- yields _ _ (if ?c then _ else _) => destruct c end;
      [|apply yields_ret; apply add_default_extension_known].
    destruct source_files as [[|source [|second files]]|];
      try apply yields_raise.
    - apply yields_ret. apply endswith_any_join. apply endswith_any_7z.
    - skip_bind. apply yields_ret. apply endswith_any_join.
      apply add_default_extension_known. }
  intros path lc Hpath. cbv beta.
  skip_bind. skip_bind.
  match goal with |- yields _ _ (if ?c then _ else _) => destruct c end;
    [|apply yields_ret; exact Hpath].
  skip_bind. skip_bind.
  match goal with |- yields _ _ (match ?x with _ => _ end) => destruct x end.
  - skip_bind. skip_bind. apply yields_ret. apply endswith_any_join.
    apply endswith_any_basename. exact Hpath.
  - skip_bind. apply yields_ret. exact Hpath.
Qed.

Lemma resolve_existing_output_known (prefs : preferences) (output_path : string) :
  endswith_any output_path archive_extensions = true ->
  yields any_world
         (fun r _ => forall chosen overwrite,
              fst r = Some (chosen, overwrite) ->
              endswith_any chosen archive_extensions = true)
         (resolve_existing_output os prefs output_path).
Proof.
  intros Hout. unfold resolve_existing_output.
  skip_bind.
  match goal with |- yields _ _ (if ?c then _ else _) => destruct c end;
    [|apply yields_ret; intros chosen overwrite [= <- _]; exact Hout].
  skip_bind. skip_bind.
  match goal with |- yields _ _ (if ?c then _ else _) => destruct c end.
  { eapply yields_bind; [apply (get_output_path_known prefs "archive.7z" None);
                         reflexivity|].
    intros [path prefs'] la Hp. cbv beta. cbn [fst] in Hp.
    skip_bind.
    match goal with |- yields _ _ (if ?c then _ else _) => destruct c end.
    - skip_bind. apply yields_ret. discriminate.
    - apply yields_ret. intros chosen overwrite [= <- _]. exact Hp. }
  match goal with |- yields _ _ (if ?c then _ else _) => destruct c end;
    [skip_bind; apply yields_ret; discriminate|].
  match goal with |- yields _ _ (if ?c then _ else _) => destruct c end;
    [apply yields_ret; intros chosen overwrite [= <- _]; exact Hout|].
  skip_bind. apply yields_ret. discriminate.
Qed.

(** X30.  The destination of every command [create_archive] builds ends in
    [.7z], [.zip], [.tar] or [.gz]: a name typed without one of them gets
    [.7z] appended, and the suggested names carry [.7z]. *)
Theorem planned_destination_has_a_known_extension
        (prefs prefs' : preferences) (st st' : io_state W)
        (plan : create_plan) (log : list event) :
  create_archive_plan os seven_zip_path prefs st = (Ok (Some plan, prefs'), log, st') ->
  endswith_any (plan_output_path plan) archive_extensions = true.
Proof.
  intros H. unfold create_archive_plan in H.
  split_bind H.
  destruct a as [[|f fs]|].
  1, 3: split_bind H; unfold ret in H; discriminate H.
  split_bind H.
  destruct (validate_files_for_archiving os a (f :: fs)) as [|v vs].
  { split_bind H. unfold ret in H. discriminate H. }
  split_bind H. destruct a0 as [output_path prefs0].
  pose proof (yields_run any_world _ _ _ _ _ _
                         (get_output_path_known prefs "archive.7z" (Some (v :: vs))
                                                eq_refl) I Hm1) as [Hp0 _].
  cbn [fst] in Hp0.
  split_bind H. destruct a0 as [[[out ow]|] prefs1].
  2: { unfold ret in H. discriminate H. }
  pose proof (yields_run any_world _ _ _ _ _ _
                         (resolve_existing_output_known prefs0 output_path Hp0) I Hm2)
    as [Hp1 _].
  specialize (Hp1 out ow eq_refl).
  split_bind H.
  destruct (startswith (path_abspath os a0 out) "/System"
            || startswith (path_abspath os a0 out) "/usr/bin").
  { split_bind H. unfold ret in H. discriminate H. }
  split_bind H. unfold ret in H. injection H as -> _ <- <-.
  destruct (create_archive_from_password_inv os seven_zip_path _ _ _ _ _ _ _ _ Hm4)
    as (pw & la & sa & lb & _ & _ & _ & Hout & _).
  rewrite Hout. exact Hp1.
Qed.

End ExtensionFacts.

Lemma planned_destination_has_a_known_extension_witness :
  match fst (fst (create_archive_plan Sim.ops "7zz" Sim.prefs0
                    (Sim.start ["/data/a.bin"; "n"; "/tmp/backup"; "n"; "y"]
                               Sim.one_file))) with
  | Ok (Some plan, _) =>
      plan_output_path plan = "/tmp/backup.7z"
      /\ endswith_any (plan_output_path plan) archive_extensions = true
  | _ => False
  end.
Proof.
  destruct (create_archive_plan Sim.ops "7zz" Sim.prefs0
              (Sim.start ["/data/a.bin"; "n"; "/tmp/backup"; "n"; "y"] Sim.one_file))
    as [[r log] st'] eqn:E.
  assert (E' := E). vm_compute in E'. injection E' as Hr Hl Hs.
  subst r log st'. cbn [fst]. split; [reflexivity|].
  exact (planned_destination_has_a_known_extension Sim.ops "7zz" _ _ _ _ _ _ E).
Defined.
